(** * MVV_Analytics: the transit graph builder and the reachability engine

    A shallow embedding of [backend/graph/graph_builder.py] and
    [backend/graph/reachability.py], and the properties of the design
    document checked against it.

    Conventions.
    - Python [int] and the numpy integers of the data frames are [Z].
    - A raised exception is the [Raise] case of [result]; the exception
      classes are the constructors of [exn], and a ValueError carries its
      message.
    - A Python [dict] whose iteration order is observable (the adjacency of a
      networkx graph, [earliest_arrival]) is an association list in insertion
      order, updated in place; a [dict] or [set] used for membership only is
      a [gmap] or [gset].
    - A pandas cell that may be NaN is an [option]. *)

From Stdlib Require Import ZArith List String Ascii Bool Lia Permutation.
From Stdlib Require Import OrderedTypeEx Sorted.
From stdpp Require Import base decidable option list gmap strings.

Local Open Scope string_scope.
Local Open Scope list_scope.
Local Open Scope Z_scope.

(** ** Exceptions *)

Inductive exn : Type :=
| ValueError (message : string)
| IndexError
| KeyError
| AttributeError
| NetworkXError.

Inductive result (A : Type) : Type :=
| Ok (a : A)
| Raise (e : exn).

Arguments Ok {A} a.
Arguments Raise {A} e.

Definition bind {A B : Type} (m : result A) (k : A -> result B) : result B :=
  match m with
  | Ok a => k a
  | Raise e => Raise e
  end.

Notation "'try' x <- m ; k" := (bind m (fun x => k))
  (at level 10, x pattern, m at level 100, k at level 200).

(** [for x in xs: body], where [body] threads a state and may raise. *)
Fixpoint for_each {A S : Type} (body : S -> A -> result S) (xs : list A) (s : S)
  : result S :=
  match xs with
  | [] => Ok s
  | x :: rest => try s' <- body s x; for_each body rest s'
  end.

(** ** Python primitives used by both modules *)

Module Py.

Definition is_digit (c : ascii) : bool :=
  let n := nat_of_ascii c in ((48 <=? n) && (n <=? 57))%nat.

Definition digit_val (c : ascii) : Z := Z.of_nat (nat_of_ascii c) - 48.

(** The white space [int()] strips, within ASCII. *)
Definition is_space (c : ascii) : bool :=
  let n := nat_of_ascii c in
  (((9 <=? n) && (n <=? 13)) || ((28 <=? n) && (n <=? 32)))%nat.

Fixpoint lstrip (cs : list ascii) : list ascii :=
  match cs with
  | c :: rest => if is_space c then lstrip rest else cs
  | [] => []
  end.

Definition strip (cs : list ascii) : list ascii :=
  rev (lstrip (rev (lstrip cs))).

(** Decimal digits, with single underscores allowed between digits. *)
Fixpoint int_digits (acc : Z) (cs : list ascii) : option Z :=
  match cs with
  | [] => Some acc
  | c :: rest =>
      if is_digit c then int_digits (acc * 10 + digit_val c) rest
      else if Ascii.eqb c "_"%char then
        match rest with
        | d :: rest' =>
            if is_digit d then int_digits (acc * 10 + digit_val d) rest'
            else None
        | [] => None
        end
      else None
  end.

Definition int_unsigned (cs : list ascii) : option Z :=
  match cs with
  | d :: rest => if is_digit d then int_digits (digit_val d) rest else None
  | [] => None
  end.

(** [int(s)] in base ten on an ASCII string; [ValueError] when [s] is not
    a literal (the message is kept without the quoted argument that follows
    it). *)
Definition int (s : string) : result Z :=
  let cs := strip (list_ascii_of_string s) in
  let parsed :=
    match cs with
    | c :: rest =>
        if Ascii.eqb c "-"%char then Z.opp <$> int_unsigned rest
        else if Ascii.eqb c "+"%char then int_unsigned rest
        else int_unsigned cs
    | [] => None
    end in
  match parsed with
  | Some z => Ok z
  | None => Raise (ValueError "invalid literal for int() with base 10")
  end.

(** [s.split(sep)] for a one-character separator. *)
Fixpoint split_chars (sep : ascii) (cur : list ascii) (cs : list ascii)
  : list string :=
  match cs with
  | [] => [string_of_list_ascii (rev cur)]
  | c :: rest =>
      if Ascii.eqb c sep
      then string_of_list_ascii (rev cur) :: split_chars sep [] rest
      else split_chars sep (c :: cur) rest
  end.

Definition split (sep : ascii) (s : string) : list string :=
  split_chars sep [] (list_ascii_of_string s).

(** [parts[i]] *)
Definition index {A : Type} (parts : list A) (i : nat) : result A :=
  match nth_error parts i with
  | Some x => Ok x
  | None => Raise IndexError
  end.

(** [range(start, stop, step)] as the list of its values; [ValueError]
    for a zero step. *)
Definition range (start stop step : Z) : result (list Z) :=
  if step =? 0 then Raise (ValueError "range() arg 3 must not be zero")
  else
    let len :=
      if 0 <? step
      then (if start <? stop then (stop - start - 1) / step + 1 else 0)
      else (if stop <? start then (start - stop - 1) / (- step) + 1 else 0) in
    Ok (map (fun i => start + Z.of_nat i * step) (seq 0 (Z.to_nat len))).

(** The direction [round(a / 60.0, 1)] takes on a float when [a / 60] lies
    half way between two tenths ([a mod 6 = 3], [0 < a < 2 ^ 53]): the
    double nearest to [a / 60] is computed exactly, [M] being its 53 bit
    significand, and compared with [a / 60]; when the quotient is itself a
    double the tie goes to the even tenth. *)
Definition float_half_up (a : Z) : bool :=
  let e0 := Z.log2 a - 6 in
  let e := if 60 * 2 ^ (e0 + 7) <=? a * 2 ^ 6 then e0 + 1 else e0 in
  let N := a * 2 ^ (52 - e) in
  let q := N / 60 in
  let r := N mod 60 in
  let M := if 2 * r <? 60 then q else if 60 <? 2 * r then q + 1
           else if Z.even q then q else q + 1 in
  match M * 60 ?= N with
  | Gt => true
  | Lt => false
  | Eq => Z.odd (a / 6)
  end.

End Py.

(** ** Insertion-ordered dictionaries *)

(** A [dict] whose iteration order matters: keys in first-insertion order,
    assignment to an existing key keeps its place. *)
Module OD.
Section Dict.
Context {V : Type}.

Fixpoint get (k : string) (d : list (string * V)) : option V :=
  match d with
  | [] => None
  | (k', v) :: rest => if String.eqb k k' then Some v else get k rest
  end.

Definition mem (k : string) (d : list (string * V)) : bool :=
  match get k d with Some _ => true | None => false end.

Fixpoint set (k : string) (v : V) (d : list (string * V))
  : list (string * V) :=
  match d with
  | [] => [(k, v)]
  | (k', v') :: rest =>
      if String.eqb k k' then (k', v) :: rest else (k', v') :: set k v rest
  end.

Definition keys (d : list (string * V)) : list string := map fst d.
End Dict.
End OD.

(** ** Stable sorting *)

(** [sorted(xs, key=...)] and the stable sorts of pandas: insertion keeps the
    input order of elements that compare equal. *)
Section Sorting.
Context {A : Type} (leb : A -> A -> bool).

Fixpoint insert_sorted (x : A) (l : list A) : list A :=
  match l with
  | [] => [x]
  | y :: rest => if leb x y then x :: l else y :: insert_sorted x rest
  end.

Fixpoint stable_sort (l : list A) : list A :=
  match l with
  | [] => []
  | x :: rest => insert_sorted x (stable_sort rest)
  end.
End Sorting.

(** ** The directed graph of networkx *)

Module Nx.

(** The graphs of this program are [nx.DiGraph()] objects: a node has one
    attribute dictionary, and so has an ordered pair of nodes joined by an
    edge. *)

(** The attribute dictionary of a node, written by [add_node] with its three
    keys at once.  A coordinate is carried unchanged from the feed to the
    answer; it is kept as the decimal of its cell, mantissa and exponent. *)
Record StopData : Type := {
  stop_name : string;
  lat : Z * Z;
  lon : Z * Z
}.

(** The attribute dictionary of an edge: a key is absent when its field is
    [None].  The value of [route_name] is [None] for NaN. *)
Record EdgeData : Type := {
  departure_time : option Z;
  arrival_time : option Z;
  duration : option Z;
  trip_id : option string;
  route_name : option (option string);
  transfer : option bool
}.

Definition empty_attrs : EdgeData :=
  {| departure_time := None; arrival_time := None; duration := None;
     trip_id := None; route_name := None; transfer := None |}.

Definition or_old {A : Type} (new old : option A) : option A :=
  match new with Some _ => new | None => old end.

(** [datadict.update(attr)] *)
Definition update_attrs (datadict attr : EdgeData) : EdgeData :=
  {| departure_time := or_old (departure_time attr) (departure_time datadict);
     arrival_time := or_old (arrival_time attr) (arrival_time datadict);
     duration := or_old (duration attr) (duration datadict);
     trip_id := or_old (trip_id attr) (trip_id datadict);
     route_name := or_old (route_name attr) (route_name datadict);
     transfer := or_old (transfer attr) (transfer datadict) |}.

(** A node of a [DiGraph]: its attributes ([None] for the empty dictionary
    of a node that only [add_edge] created) and its successors, one
    attribute dictionary per successor. *)
Record NodeEntry : Type := {
  node_attrs : option StopData;
  node_succ : list (string * EdgeData)
}.

Definition DiGraph : Type := list (string * NodeEntry).

Definition has_node (G : DiGraph) (n : string) : bool := OD.mem n G.

(** [G.add_node(n, stop_name=..., lat=..., lon=...)] *)
Definition add_node (G : DiGraph) (n : string) (attrs : StopData) : DiGraph :=
  match OD.get n G with
  | Some e =>
      OD.set n {| node_attrs := Some attrs; node_succ := node_succ e |} G
  | None => OD.set n {| node_attrs := Some attrs; node_succ := [] |} G
  end.

(** What [add_edge] does to an end point that is not yet a node. *)
Definition touch_node (G : DiGraph) (n : string) : DiGraph :=
  if has_node G n then G
  else OD.set n {| node_attrs := None; node_succ := [] |} G.

(** [G.add_edge(u, v, **attr)]: one dictionary per ordered pair; a second
    call for the same pair updates that dictionary. *)
Definition add_edge (G : DiGraph) (u v : string) (attr : EdgeData) : DiGraph :=
  let G1 := touch_node (touch_node G u) v in
  match OD.get u G1 with
  | Some e =>
      let datadict :=
        match OD.get v (node_succ e) with
        | Some d => d
        | None => empty_attrs
        end in
      OD.set u {| node_attrs := node_attrs e;
                  node_succ := OD.set v (update_attrs datadict attr)
                                 (node_succ e) |} G1
  | None => G1
  end.

(** [G.get_edge_data(u, v)] *)
Definition get_edge_data (G : DiGraph) (u v : string) : option EdgeData :=
  match OD.get u G with
  | Some e => OD.get v (node_succ e)
  | None => None
  end.

(** All edges of the graph, as [G.edges(data=True)] lists them. *)
Definition edges (G : DiGraph) : list (string * string * EdgeData) :=
  flat_map (fun '(u, e) => map (fun '(v, d) => (u, v, d)) (node_succ e)) G.

End Nx.

Import Nx.

(** ** graph_builder.py *)

(** *** Clock strings *)

(** [TransitGraphBuilder.time_to_seconds]; the argument is [None] for a NaN
    cell. *)
Definition time_to_seconds (time_str : option string) : result Z :=
  match time_str with
  | None => Ok 0
  | Some s =>
      let parts := Py.split ":"%char s in
      try p0 <- Py.index parts 0;
      try hours <- Py.int p0;
      try p1 <- Py.index parts 1;
      try minutes <- Py.int p1;
      try p2 <- Py.index parts 2;
      try seconds <- Py.int p2;
      Ok (hours * 3600 + minutes * 60 + seconds)
  end.

(** *** Calendar rules *)

Record CalendarRow : Type := {
  service_id : string;
  monday : Z;
  tuesday : Z;
  wednesday : Z;
  thursday : Z;
  friday : Z;
  saturday : Z;
  sunday : Z
}.

(** The dictionary [service_ids], with its three fixed keys. *)
Record ServiceIds : Type := {
  sids_weekday : list string;
  sids_saturday : list string;
  sids_sunday : list string
}.

Definition append_weekday (s : ServiceIds) (x : string) : ServiceIds :=
  {| sids_weekday := sids_weekday s ++ [x];
     sids_saturday := sids_saturday s;
     sids_sunday := sids_sunday s |}.

Definition append_saturday (s : ServiceIds) (x : string) : ServiceIds :=
  {| sids_weekday := sids_weekday s;
     sids_saturday := sids_saturday s ++ [x];
     sids_sunday := sids_sunday s |}.

Definition append_sunday (s : ServiceIds) (x : string) : ServiceIds :=
  {| sids_weekday := sids_weekday s;
     sids_saturday := sids_saturday s;
     sids_sunday := sids_sunday s ++ [x] |}.

(** The body of the loop over the calendar rows. *)
Definition classify_row (s : ServiceIds) (row : CalendarRow) : ServiceIds :=
  let sid := service_id row in
  if (monday row =? 1) && (tuesday row =? 1) && (wednesday row =? 1)
     && (thursday row =? 1) && (friday row =? 1) && (saturday row =? 0)
     && (sunday row =? 0)
  then append_weekday s sid
  else if (saturday row =? 1) && (sunday row =? 0) && (monday row =? 0)
          && (tuesday row =? 0) && (wednesday row =? 0) && (thursday row =? 0)
          && (friday row =? 0)
  then append_saturday s sid
  else if (sunday row =? 1) && (saturday row =? 0) && (monday row =? 0)
          && (tuesday row =? 0) && (wednesday row =? 0) && (thursday row =? 0)
          && (friday row =? 0)
  then append_sunday s sid
  else
    let s1 :=
      if (monday row =? 1) || (tuesday row =? 1) || (wednesday row =? 1)
         || (thursday row =? 1) || (friday row =? 1)
      then append_weekday s sid else s in
    let s2 := if saturday row =? 1 then append_saturday s1 sid else s1 in
    if sunday row =? 1 then append_sunday s2 sid else s2.

Definition get_service_ids_by_day_type (calendar_df : list CalendarRow)
  : ServiceIds :=
  fold_left classify_row calendar_df
    {| sids_weekday := []; sids_saturday := []; sids_sunday := [] |}.

(** *** The tables of the feed *)

Record StopRow : Type := {
  s_stop_id : string;
  s_stop_name : string;
  s_stop_lat : Z * Z;
  s_stop_lon : Z * Z
}.

Record TripRow : Type := {
  t_trip_id : string;
  t_service_id : string;
  t_route_id : string
}.

Record RouteRow : Type := {
  r_route_id : string;
  r_route_short_name : option string
}.

Record StopTimeRow : Type := {
  st_trip_id : string;
  st_stop_id : string;
  st_stop_sequence : Z;
  st_arrival_time : option string;
  st_departure_time : option string
}.

(** [min_transfer_time] is [None] when the column is absent or the cell is
    NaN. *)
Record TransferRow : Type := {
  from_stop_id : string;
  to_stop_id : string;
  min_transfer_time : option Z
}.

(** The data frames a [TransitGraphBuilder] holds after [load_gtfs_data];
    [transfers_df] is [None] when the feed has no transfers.txt. *)
Record Feed : Type := {
  stops_df : list StopRow;
  stop_times_df : list StopTimeRow;
  trips_df : list TripRow;
  routes_df : list RouteRow;
  calendar_df : list CalendarRow;
  transfers_df : option (list TransferRow)
}.

(** [settings.DEFAULT_TRANSFER_TIME] *)
Definition DEFAULT_TRANSFER_TIME : Z := 180.

(** A row of [stop_times_on_day] with its two added columns. *)
Record StopVisit : Type := {
  v_trip_id : string;
  v_stop_id : string;
  v_stop_sequence : Z;
  departure_time_sec : Z;
  arrival_time_sec : Z
}.

(** *** build_graph_for_day_type *)

Definition in_list (x : string) (l : list string) : bool :=
  existsb (String.eqb x) l.

(** The left merge of the day's trips with the route names, zipped into
    [trip_route_map]: the last pair of a trip wins. *)
Definition trips_with_routes (trips_on_day : list TripRow)
    (routes : list RouteRow) : list (string * option string) :=
  flat_map
    (fun t =>
       match filter (fun r => String.eqb (r_route_id r) (t_route_id t)) routes with
       | [] => [(t_trip_id t, None)]
       | matches => map (fun r => (t_trip_id t, r_route_short_name r)) matches
       end)
    trips_on_day.

Definition trip_route_map (pairs : list (string * option string))
  : list (string * option string) :=
  fold_left (fun m '(k, v) => OD.set k v m) pairs [].

(** The two [apply(self.time_to_seconds)] passes, the departure column
    first. *)
Definition convert_times (rows : list StopTimeRow) : result (list StopVisit) :=
  try deps <- for_each
      (fun acc r => try d <- time_to_seconds (st_departure_time r); Ok (acc ++ [d]))
      rows [];
  try arrs <- for_each
      (fun acc r => try a <- time_to_seconds (st_arrival_time r); Ok (acc ++ [a]))
      rows [];
  Ok (map (fun '(r, (d, a)) =>
             {| v_trip_id := st_trip_id r; v_stop_id := st_stop_id r;
                v_stop_sequence := st_stop_sequence r;
                departure_time_sec := d; arrival_time_sec := a |})
          (combine rows (combine deps arrs))).

Definition visit_leb (a b : StopVisit) : bool :=
  match String.compare (v_trip_id a) (v_trip_id b) with
  | Lt => true
  | Gt => false
  | Eq => v_stop_sequence a <=? v_stop_sequence b
  end.

Definition sequence_leb (a b : StopVisit) : bool :=
  v_stop_sequence a <=? v_stop_sequence b.

(** [groupby('trip_id')] on rows already sorted by trip: the runs of equal
    trip identifiers, in order. *)
Fixpoint groupby_trip (rows : list StopVisit) : list (string * list StopVisit) :=
  match rows with
  | [] => []
  | r :: rest =>
      match groupby_trip rest with
      | (k, g) :: gs =>
          if String.eqb (v_trip_id r) k then (k, r :: g) :: gs
          else (v_trip_id r, [r]) :: (k, g) :: gs
      | [] => [(v_trip_id r, [r])]
      end
  end.

(** The edge of one consecutive pair of visits: lines 214 to 235. *)
Definition segment_times (departure_time arrival_time : Z) : Z * Z :=
  let arrival_time :=
    if arrival_time <? departure_time then arrival_time + 24 * 3600
    else arrival_time in
  (arrival_time, arrival_time - departure_time).

Definition segment_attrs (trip : string) (route : option string)
    (from_stop to_stop : StopVisit) : EdgeData :=
  let departure := departure_time_sec from_stop in
  let '(arrival, dur) := segment_times departure (arrival_time_sec to_stop) in
  {| departure_time := Some departure;
     arrival_time := Some arrival;
     duration := Some dur;
     trip_id := Some trip;
     route_name := Some route;
     transfer := None |}.

(** [for i in range(len(trip_stops) - 1)] over one trip. *)
Fixpoint add_trip_edges (G : DiGraph) (trip : string) (route : option string)
    (trip_stops : list StopVisit) : DiGraph :=
  match trip_stops with
  | from_stop :: ((to_stop :: _) as rest) =>
      add_trip_edges
        (add_edge G (v_stop_id from_stop) (v_stop_id to_stop)
           (segment_attrs trip route from_stop to_stop))
        trip route rest
  | _ => G
  end.

Definition transfer_attrs (transfer_time : Z) : EdgeData :=
  {| departure_time := None; arrival_time := None;
     duration := Some transfer_time;
     trip_id := None; route_name := None; transfer := Some true |}.

Definition add_transfer (G : DiGraph) (row : TransferRow) : DiGraph :=
  let transfer_time :=
    match min_transfer_time row with
    | Some t => t
    | None => DEFAULT_TRANSFER_TIME
    end in
  if has_node G (from_stop_id row) && has_node G (to_stop_id row)
  then add_edge G (from_stop_id row) (to_stop_id row) (transfer_attrs transfer_time)
  else G.

Definition build_graph_for_day_type (feed : Feed) (service_ids : list string)
  : result DiGraph :=
  let G :=
    fold_left
      (fun G stop =>
         add_node G (s_stop_id stop)
           {| stop_name := s_stop_name stop; lat := s_stop_lat stop;
              lon := s_stop_lon stop |})
      (stops_df feed) [] in
  let trips_on_day :=
    filter (fun t => in_list (t_service_id t) service_ids) (trips_df feed) in
  let trip_ids := map t_trip_id trips_on_day in
  let route_map := trip_route_map (trips_with_routes trips_on_day (routes_df feed)) in
  let stop_times_on_day :=
    filter (fun r => in_list (st_trip_id r) trip_ids) (stop_times_df feed) in
  try visits <- convert_times stop_times_on_day;
  let visits := stable_sort visit_leb visits in
  let G :=
    fold_left
      (fun G '(trip, trip_stops) =>
         let trip_stops := stable_sort sequence_leb trip_stops in
         let route :=
           match OD.get trip route_map with
           | Some r => r
           | None => Some "Unknown"
           end in
         add_trip_edges G trip route trip_stops)
      (groupby_trip visits) G in
  let G :=
    match transfers_df feed with
    | Some rows => fold_left add_transfer rows G
    | None => G
    end in
  Ok G.

(** [build_all_graphs]: the dictionary [self.graphs]. *)
Definition build_all_graphs (feed : Feed) : result (gmap string DiGraph) :=
  let service_ids := get_service_ids_by_day_type (calendar_df feed) in
  try wd <- build_graph_for_day_type feed (sids_weekday service_ids);
  try sa <- build_graph_for_day_type feed (sids_saturday service_ids);
  try su <- build_graph_for_day_type feed (sids_sunday service_ids);
  Ok (<["sunday" := su]> (<["saturday" := sa]> (<["weekday" := wd]> ∅))).

(** ** reachability.py *)

Module Reachability.

(** An entry of the priority queue: [(arrival_time, stop_id, num_transfers)],
    compared as Python compares tuples. *)
Definition Entry : Type := Z * string * Z.

Definition entry_compare (a b : Entry) : comparison :=
  let '(t1, s1, n1) := a in
  let '(t2, s2, n2) := b in
  match t1 ?= t2 with
  | Eq => match String.compare s1 s2 with
          | Eq => n1 ?= n2
          | c => c
          end
  | c => c
  end.

Definition entry_ltb (a b : Entry) : bool :=
  match entry_compare a b with Lt => true | _ => false end.

Definition entry_eqb (a b : Entry) : bool :=
  let '(t1, s1, n1) := a in
  let '(t2, s2, n2) := b in
  (t1 =? t2) && String.eqb s1 s2 && (n1 =? n2).

(** *** heapq

    The heap is the multiset of its entries, held in a list in any
    arrangement: [heappop] hands out the least entry, which is all the
    search observes of it. *)
Definition heappush (pq : list Entry) (x : Entry) : list Entry := x :: pq.

Fixpoint min_entry (x : Entry) (l : list Entry) : Entry :=
  match l with
  | [] => x
  | y :: rest => min_entry (if entry_ltb y x then y else x) rest
  end.

Fixpoint remove_first (x : Entry) (l : list Entry) : list Entry :=
  match l with
  | [] => []
  | y :: rest => if entry_eqb x y then rest else y :: remove_first x rest
  end.

Definition heappop (pq : list Entry) : option (Entry * list Entry) :=
  match pq with
  | [] => None
  | x :: rest => let m := min_entry x rest in Some (m, remove_first m pq)
  end.

(** *** The edges between two stops, as the search reads them *)

(** What the loop [for edge in edges] meets: the attribute dictionary of
    the edge, or, on the branch written for a multigraph, one of the
    values stored in that dictionary. *)
Inductive EdgeItem : Type :=
| EdgeDict (e : EdgeData)
| AttrValue.

Definition present {A : Type} (o : option A) : nat :=
  match o with Some _ => 1%nat | None => 0%nat end.

(** [len(edge_data)] *)
Definition attr_count (e : EdgeData) : nat :=
  (present (departure_time e) + present (arrival_time e)
   + present (duration e) + present (trip_id e) + present (route_name e)
   + present (transfer e))%nat.

(** Lines 109 to 114. *)
Definition edges_of (edge_data : EdgeData) : list EdgeItem :=
  match departure_time edge_data with
  | Some _ => [EdgeDict edge_data]
  | None => repeat AttrValue (attr_count edge_data)
  end.

(** [edge[key]] *)
Definition getitem {A : Type} (o : option A) : result A :=
  match o with
  | Some x => Ok x
  | None => Raise KeyError
  end.

(** [edge.get('transfer', False)] as a condition. *)
Definition is_transfer_edge (e : EdgeData) : bool :=
  match transfer e with
  | Some b => b
  | None => false
  end.

(** The two assignments guarded by
    [best_arrival is None or arrival < best_arrival]. *)
Definition improve (best : option (Z * Z)) (arrival new_transfers : Z)
  : option (Z * Z) :=
  match best with
  | None => Some (arrival, new_transfers)
  | Some (best_arrival, _) =>
      if arrival <? best_arrival then Some (arrival, new_transfers) else best
  end.

(** The body of [for edge in edges], lines 119 to 152. *)
Definition consider_edge
    (departure_time_sec max_time_sec current_time num_transfers : Z)
    (best : option (Z * Z)) (edge : EdgeItem) : result (option (Z * Z)) :=
  match edge with
  | AttrValue => Raise AttributeError
  | EdgeDict e =>
      if is_transfer_edge e then
        try d <- getitem (duration e);
        let arrival_time := current_time + d in
        let new_transfers := num_transfers + 1 in
        if arrival_time - departure_time_sec <=? max_time_sec
        then Ok (improve best arrival_time new_transfers)
        else Ok best
      else
        try dep_time <- getitem (departure_time e);
        try arr_time <- getitem (arrival_time e);
        let '(dep_time, arr_time) :=
          if dep_time <? current_time - 24 * 3600
          then (dep_time + 24 * 3600, arr_time + 24 * 3600)
          else (dep_time, arr_time) in
        if current_time <=? dep_time then
          if arr_time - departure_time_sec <=? max_time_sec then
            let is_transfer := 120 <? dep_time - current_time in
            let new_transfers :=
              num_transfers + (if is_transfer then 1 else 0) in
            Ok (improve best arr_time new_transfers)
          else Ok best
        else Ok best
  end.

(** The search state: [earliest_arrival], [pq] and [explored]. *)
Record State : Type := {
  earliest_arrival : list (string * (Z * Z));
  pq : list Entry;
  explored : gset string
}.

(** The body of [for neighbor in G.neighbors(current_stop)]. *)
Definition relax_neighbor
    (departure_time_sec max_time_sec current_time num_transfers : Z)
    (acc : list (string * (Z * Z)) * list Entry)
    (nb : string * EdgeData)
  : result (list (string * (Z * Z)) * list Entry) :=
  let '(earliest, queue) := acc in
  let '(neighbor, edge_data) := nb in
  try best <- for_each
      (consider_edge departure_time_sec max_time_sec current_time num_transfers)
      (edges_of edge_data) None;
  match best with
  | Some (best_arrival, best_transfers) =>
      let better :=
        match OD.get neighbor earliest with
        | None => true
        | Some (known, _) => best_arrival <? known
        end in
      if better
      then Ok (OD.set neighbor (best_arrival, best_transfers) earliest,
               heappush queue (best_arrival, neighbor, best_transfers))
      else Ok acc
  | None => Ok acc
  end.

(** [G.neighbors(n)] with the edge data of each. *)
Definition neighbors (G : DiGraph) (n : string)
  : result (list (string * EdgeData)) :=
  match OD.get n G with
  | Some e => Ok (node_succ e)
  | None => Raise NetworkXError
  end.

(** One pass through the body of [while pq], lines 90 to 159. *)
Definition search_step (G : DiGraph) (departure_time_sec max_time_sec : Z)
    (st : State) : result State :=
  match heappop (pq st) with
  | None => Ok st
  | Some ((current_time, current_stop, num_transfers), rest) =>
      if decide (current_stop ∈ explored st) then
        Ok {| earliest_arrival := earliest_arrival st; pq := rest;
              explored := explored st |}
      else
        let explored' := {[current_stop]} ∪ explored st in
        if max_time_sec <? current_time - departure_time_sec then
          Ok {| earliest_arrival := earliest_arrival st; pq := rest;
                explored := explored' |}
        else
          try nbrs <- neighbors G current_stop;
          try acc <- for_each
              (relax_neighbor departure_time_sec max_time_sec
                 current_time num_transfers)
              nbrs (earliest_arrival st, rest);
          Ok {| earliest_arrival := fst acc; pq := snd acc;
                explored := explored' |}
  end.

(** [while pq], for at most [fuel] passes. *)
Fixpoint search_loop (fuel : nat) (G : DiGraph)
    (departure_time_sec max_time_sec : Z) (st : State) : result State :=
  match fuel with
  | O => Ok st
  | S fuel' =>
      match pq st with
      | [] => Ok st
      | _ :: _ =>
          try st' <- search_step G departure_time_sec max_time_sec st;
          search_loop fuel' G departure_time_sec max_time_sec st'
      end
  end.

(** Passes that always suffice: one per entry ever pushed, and an entry is
    pushed for the origin and at most once per edge. *)
Definition search_fuel (G : DiGraph) : nat := S (length (Nx.edges G)).

(** [ReachabilityCalculator.time_to_seconds], on HH:MM. *)
Definition time_to_seconds (time_str : string) : result Z :=
  let parts := Py.split ":"%char time_str in
  try p0 <- Py.index parts 0;
  try hours <- Py.int p0;
  try p1 <- Py.index parts 1;
  try minutes <- Py.int p1;
  Ok (hours * 3600 + minutes * 60).

(** An element of the answer.  [travel_time_minutes] is the float rounded
    to one decimal, held as its number of tenths of a minute. *)
Record ReachableStop : Type := {
  stop_id : string;
  stop_name : string;
  lat : Z * Z;
  lon : Z * Z;
  travel_time_minutes : Z;
  num_transfers : Z
}.

(** A frame of the timeline. *)
Record Frame : Type := {
  elapsed_minutes : Z;
  reachable_stops : list ReachableStop
}.

Section Engine.

(** Whether [round(sec / 60.0, 1)] goes up when [sec / 60] is half way
    between two tenths.  The direction is a matter of the float type at
    hand ([Py.float_half_up] for a Python float); the engine is stated
    for any. *)
Variable half_up : Z -> bool.

(** [round(travel_time_sec / 60.0, 1)], in tenths of a minute: the seconds
    are [k] tenths and a remainder [r] of sixths of a tenth.  Below a half
    the value rounds down and above it up, the error of the float division
    being far smaller than a sixth; at exactly a half ([r = 3]) the float
    decides, by [half_up]. *)
Definition round_minutes (travel_time_sec : Z) : Z :=
  let a := Z.abs travel_time_sec in
  let k := a / 6 in
  let r := a mod 6 in
  Z.sgn travel_time_sec *
  (if r <? 3 then k
   else if 3 <? r then k + 1
   else if half_up a then k + 1 else k).

(** The body of the loop that builds [results], lines 163 to 180. *)
Definition result_row (G : DiGraph) (origin_stop_id : string)
    (departure_time_sec : Z) (results : list ReachableStop)
    (item : string * (Z * Z)) : result (list ReachableStop) :=
  let '(stop, (arrival_time, transfers)) := item in
  if String.eqb stop origin_stop_id then Ok results
  else
    let travel_time_sec := arrival_time - departure_time_sec in
    try node <- match OD.get stop G with
                | Some e => Ok e
                | None => Raise KeyError
                end;
    try stop_data <- getitem (node_attrs node);
    Ok (results ++
        [{| stop_id := stop;
            stop_name := Nx.stop_name stop_data;
            lat := Nx.lat stop_data;
            lon := Nx.lon stop_data;
            travel_time_minutes := round_minutes travel_time_sec;
            num_transfers := transfers |}]).

Definition by_travel_time (a b : ReachableStop) : bool :=
  travel_time_minutes a <=? travel_time_minutes b.

(** [calculate_reachability] of a calculator holding [graphs]. *)
Definition calculate_reachability (graphs : gmap string DiGraph)
    (origin_stop_id departure_time : string) (max_time_minutes : Z)
    (day_type : string) : result (list ReachableStop) :=
  match graphs !! day_type with
  | None => Raise (ValueError ("Invalid day_type: " ++ day_type)%string)
  | Some G =>
      if negb (has_node G origin_stop_id)
      then Raise (ValueError ("Stop not found: " ++ origin_stop_id)%string)
      else
        try departure_time_sec <- time_to_seconds departure_time;
        let max_time_sec := max_time_minutes * 60 in
        try final <- search_loop (search_fuel G) G departure_time_sec
            max_time_sec
            {| earliest_arrival := [(origin_stop_id, (departure_time_sec, 0))];
               pq := [(departure_time_sec, origin_stop_id, 0)];
               explored := ∅ |};
        try results <- for_each (result_row G origin_stop_id departure_time_sec)
            (earliest_arrival final) [];
        Ok (stable_sort by_travel_time results)
  end.

Definition calculate_reachability_timeline (graphs : gmap string DiGraph)
    (origin_stop_id departure_time : string)
    (max_time_minutes time_step_minutes : Z) (day_type : string)
  : result (list Frame) :=
  try all_reachable <- calculate_reachability graphs origin_stop_id
      departure_time max_time_minutes day_type;
  try steps <- Py.range time_step_minutes (max_time_minutes + 1)
      time_step_minutes;
  Ok (map (fun step =>
             {| elapsed_minutes := step;
                reachable_stops :=
                  filter (fun stop => travel_time_minutes stop <=? step * 10)
                    all_reachable |})
          steps).

End Engine.

End Reachability.

(** ** The classification rule in the words of the design

    A rule active on Monday to Friday only goes to weekday, one active on
    Saturday only to saturday, one active on Sunday only to sunday; any other
    rule goes to every variant that has a day flag of the rule set. *)

Inductive Variant : Type := Weekday | Saturday | Sunday.

Definition ids_of (v : Variant) (s : ServiceIds) : list string :=
  match v with
  | Weekday => sids_weekday s
  | Saturday => sids_saturday s
  | Sunday => sids_sunday s
  end.

Definition weekdays_only (row : CalendarRow) : bool :=
  (monday row =? 1) && (tuesday row =? 1) && (wednesday row =? 1)
  && (thursday row =? 1) && (friday row =? 1) && (saturday row =? 0)
  && (sunday row =? 0).

Definition saturday_only (row : CalendarRow) : bool :=
  (saturday row =? 1) && (sunday row =? 0) && (monday row =? 0)
  && (tuesday row =? 0) && (wednesday row =? 0) && (thursday row =? 0)
  && (friday row =? 0).

Definition sunday_only (row : CalendarRow) : bool :=
  (sunday row =? 1) && (saturday row =? 0) && (monday row =? 0)
  && (tuesday row =? 0) && (wednesday row =? 0) && (thursday row =? 0)
  && (friday row =? 0).

Definition day_flag (v : Variant) (row : CalendarRow) : bool :=
  match v with
  | Weekday =>
      (monday row =? 1) || (tuesday row =? 1) || (wednesday row =? 1)
      || (thursday row =? 1) || (friday row =? 1)
  | Saturday => saturday row =? 1
  | Sunday => sunday row =? 1
  end.

Definition is_variant (v w : Variant) : bool :=
  match v, w with
  | Weekday, Weekday | Saturday, Saturday | Sunday, Sunday => true
  | _, _ => false
  end.

Definition classified_into (v : Variant) (row : CalendarRow) : bool :=
  if weekdays_only row then is_variant v Weekday
  else if saturday_only row then is_variant v Saturday
  else if sunday_only row then is_variant v Sunday
  else day_flag v row.

Definition rule (sid : string) (mo tu we th fr sa su : bool) : CalendarRow :=
  {| service_id := sid; monday := Z.b2z mo; tuesday := Z.b2z tu;
     wednesday := Z.b2z we; thursday := Z.b2z th; friday := Z.b2z fr;
     saturday := Z.b2z sa; sunday := Z.b2z su |}.

(** ** Feeds and graphs used as examples *)

Module Scenario.

Definition stop (id name : string) : StopRow :=
  {| s_stop_id := id; s_stop_name := name;
     s_stop_lat := (481351, -4); s_stop_lon := (115820, -4) |}.

Definition visit (trip stop : string) (seq : Z) (arr dep : option string)
  : StopTimeRow :=
  {| st_trip_id := trip; st_stop_id := stop; st_stop_sequence := seq;
     st_arrival_time := arr; st_departure_time := dep |}.

Definition weekday_rule (sid : string) : CalendarRow :=
  {| service_id := sid; monday := 1; tuesday := 1; wednesday := 1;
     thursday := 1; friday := 1; saturday := 0; sunday := 0 |}.

Definition trip (id : string) : TripRow :=
  {| t_trip_id := id; t_service_id := "S"; t_route_id := "R" |}.

Definition stop_data (name : string) : StopData :=
  {| Nx.stop_name := name; Nx.lat := (481351, -4); Nx.lon := (115820, -4) |}.

Definition trip_edge (trip : string) (dep arr : Z) : EdgeData :=
  {| departure_time := Some dep; arrival_time := Some arr;
     duration := Some (arr - dep); trip_id := Some trip;
     route_name := Some (Some "U6"); transfer := None |}.

(** Stops A, B and C; one trip leaves A at 09:00:00, reaches B at 09:10:00,
    leaves it at 09:20:00 and reaches C at 09:30:00. *)
Definition feed : Feed :=
  {| stops_df := [stop "A" "Alpha"; stop "B" "Beta"; stop "C" "Gamma"];
     stop_times_df :=
       [visit "T1" "A" 1 (Some "09:00:00") (Some "09:00:00");
        visit "T1" "B" 2 (Some "09:10:00") (Some "09:20:00");
        visit "T1" "C" 3 (Some "09:30:00") (Some "09:30:00")];
     trips_df := [trip "T1"];
     routes_df := [{| r_route_id := "R"; r_route_short_name := Some "U6" |}];
     calendar_df := [weekday_rule "S"];
     transfers_df := None |}.

(** The weekday graph of [feed]: A to B, 09:00:00 to 09:10:00, and B to C,
    09:20:00 to 09:30:00. *)
Definition graph : DiGraph :=
  [("A", {| node_attrs := Some (stop_data "Alpha");
            node_succ := [("B", trip_edge "T1" 32400 33000)] |});
   ("B", {| node_attrs := Some (stop_data "Beta");
            node_succ := [("C", trip_edge "T1" 33600 34200)] |});
   ("C", {| node_attrs := Some (stop_data "Gamma"); node_succ := [] |})].

Definition no_trips : DiGraph :=
  [("A", {| node_attrs := Some (stop_data "Alpha"); node_succ := [] |});
   ("B", {| node_attrs := Some (stop_data "Beta"); node_succ := [] |});
   ("C", {| node_attrs := Some (stop_data "Gamma"); node_succ := [] |})].

Definition graphs : gmap string DiGraph :=
  <["sunday" := no_trips]> (<["saturday" := no_trips]> (<["weekday" := graph]> ∅)).

Definition reached (id name : string) (tenths transfers : Z)
  : Reachability.ReachableStop :=
  {| Reachability.stop_id := id; Reachability.stop_name := name;
     Reachability.lat := (481351, -4); Reachability.lon := (115820, -4);
     Reachability.travel_time_minutes := tenths;
     Reachability.num_transfers := transfers |}.

(** Two trips run from A to B, at 09:00 and at 10:00, and a transfer rule
    links the same two stops. *)
Definition parallel_feed : Feed :=
  {| stops_df := [stop "A" "Alpha"; stop "B" "Beta"];
     stop_times_df :=
       [visit "T1" "A" 1 (Some "09:00:00") (Some "09:00:00");
        visit "T1" "B" 2 (Some "09:10:00") (Some "09:10:00");
        visit "T2" "A" 1 (Some "10:00:00") (Some "10:00:00");
        visit "T2" "B" 2 (Some "10:10:00") (Some "10:10:00")];
     trips_df := [trip "T1"; trip "T2"];
     routes_df := [{| r_route_id := "R"; r_route_short_name := Some "U6" |}];
     calendar_df := [weekday_rule "S"];
     transfers_df :=
       Some [{| from_stop_id := "A"; to_stop_id := "B";
                min_transfer_time := Some 120 |}] |}.

(** The same two trips, without the transfer rule. *)
Definition two_trips_feed : Feed :=
  {| stops_df := stops_df parallel_feed;
     stop_times_df := stop_times_df parallel_feed;
     trips_df := trips_df parallel_feed;
     routes_df := routes_df parallel_feed;
     calendar_df := calendar_df parallel_feed;
     transfers_df := None |}.



(** Two stops that no trip joins, and a transfer rule from A to B. *)
Definition transfer_feed : Feed :=
  {| stops_df := [stop "A" "Alpha"; stop "B" "Beta"];
     stop_times_df := [];
     trips_df := [];
     routes_df := [];
     calendar_df := [weekday_rule "S"];
     transfers_df :=
       Some [{| from_stop_id := "A"; to_stop_id := "B";
                min_transfer_time := Some 120 |}] |}.

(** Night service.  Trip T1 leaves O at 24:00:00 and reaches C at 24:10:00;
    trip T2 leaves O at 24:00:00, reaches B at 24:20:00, leaves it at
    24:20:00 and goes on to C, where the feed gives no arrival time. *)
Definition night_feed : Feed :=
  {| stops_df := [stop "O" "Origin"; stop "B" "Beta"; stop "C" "Gamma"];
     stop_times_df :=
       [visit "T1" "O" 1 (Some "24:00:00") (Some "24:00:00");
        visit "T1" "C" 2 (Some "24:10:00") (Some "24:10:00");
        visit "T2" "O" 1 (Some "24:00:00") (Some "24:00:00");
        visit "T2" "B" 2 (Some "24:20:00") (Some "24:20:00");
        visit "T2" "C" 3 None None];
     trips_df := [trip "T1"; trip "T2"];
     routes_df := [{| r_route_id := "R"; r_route_short_name := Some "U6" |}];
     calendar_df := [weekday_rule "S"];
     transfers_df := None |}.

End Scenario.

(** ** Order of the queue entries *)

Definition entry_le (a b : Reachability.Entry) : Prop :=
  Reachability.entry_compare a b <> Gt.

(** ** Conditions on the edges of a graph *)

Definition every_edge (P : EdgeData -> bool) (G : DiGraph) : bool :=
  forallb (fun '(_, n) => forallb (fun '(_, e) => P e) (node_succ n)) G.



(** The search can read the edge: it has the keys of a trip segment (and,
    when a transfer was merged into it, a duration), or no key at all. *)
Definition readable (e : EdgeData) : bool :=
  match departure_time e with
  | Some _ =>
      if Reachability.is_transfer_edge e then
        match duration e with Some _ => true | None => false end
      else
        match arrival_time e with Some _ => true | None => false end
  | None => (Reachability.attr_count e =? 0)%nat
  end.

(** Every successor is a node, as [add_edge] sees to. *)
Definition successors_are_nodes (G : DiGraph) : bool :=
  forallb (fun '(_, n) => forallb (fun '(v, _) => has_node G v) (node_succ n)) G.

(** Every node has the attributes [add_node] writes. *)
Definition nodes_described (G : DiGraph) : bool :=
  forallb (fun '(_, n) => match node_attrs n with Some _ => true | None => false end) G.

Definition well_formed (G : DiGraph) : bool :=
  successors_are_nodes G && nodes_described G && every_edge readable G.

(** ** What is left of a search

    The edges out of the stops not yet explored, and with them a bound on
    the passes of [while pq] still to come. *)
Definition pending (G : DiGraph) (done : gset string) : nat :=
  list_sum (map (fun '(k, n) =>
                   if decide (k ∈ done) then 0%nat else length (node_succ n)) G).

Definition passes_left (G : DiGraph) (st : Reachability.State) : nat :=
  (length (Reachability.pq st) + pending G (Reachability.explored st))%nat.

(** The stops of the state are nodes of the graph. *)
Definition stops_known (G : DiGraph) (ea : list (string * (Z * Z)))
    (q : list Reachability.Entry) : Prop :=
  (forall x, In x q -> has_node G x.1.2 = true) /\
  (forall k v, In (k, v) ea -> has_node G k = true).


(** ** Results that correspond *)

(** Two computations raise the same exception, or return related values. *)
Definition rel_result {A B : Type} (R : A -> B -> Prop) (r1 : result A)
    (r2 : result B) : Prop :=
  match r1, r2 with
  | Ok a, Ok b => R a b
  | Raise e1, Raise e2 => e1 = e2
  | _, _ => False
  end.

(** ** The search over any arrangement of the heap

    [heapq] keeps the queue in an array in heap order, and which of the
    arrays that hold the same entries it is depends on the history of pushes
    and pops.  A run of the loop is described here without fixing that: each
    pass may start from any arrangement of the entries in the queue. *)

Definition with_pq (st : Reachability.State) (q : list Reachability.Entry)
  : Reachability.State :=
  {| Reachability.earliest_arrival := Reachability.earliest_arrival st;
     Reachability.pq := q;
     Reachability.explored := Reachability.explored st |}.

Inductive searches (G : DiGraph) (dep maxs : Z)
  : Reachability.State -> result Reachability.State -> Prop :=
| searches_done (st : Reachability.State) :
    Reachability.pq st = [] -> searches G dep maxs st (Ok st)
| searches_raise (st : Reachability.State) (q : list Reachability.Entry)
    (e : exn) :
    Permutation (Reachability.pq st) q -> q <> [] ->
    Reachability.search_step G dep maxs (with_pq st q) = Raise e ->
    searches G dep maxs st (Raise e)
| searches_pass (st st' : Reachability.State) (q : list Reachability.Entry)
    (r : result Reachability.State) :
    Permutation (Reachability.pq st) q -> q <> [] ->
    Reachability.search_step G dep maxs (with_pq st q) = Ok st' ->
    searches G dep maxs st' r ->
    searches G dep maxs st r.

(** The states hold the same records and the same queue entries. *)
Definition same_state (st1 st2 : Reachability.State) : Prop :=
  Reachability.earliest_arrival st1 = Reachability.earliest_arrival st2 /\
  Permutation (Reachability.pq st1) (Reachability.pq st2) /\
  Reachability.explored st1 = Reachability.explored st2.

(** The same, for the records and queue that the loop over the neighbours
    threads. *)
Definition same_acc (a b : list (string * (Z * Z)) * list Reachability.Entry)
  : Prop :=
  a.1 = b.1 /\ Permutation a.2 b.2.

(** [calculate_reachability], its loop being any run of [searches]. *)
Definition reaches (half_up : Z -> bool) (graphs : gmap string DiGraph)
    (origin_stop_id departure_time : string) (max_time_minutes : Z)
    (day_type : string) (answer : result (list Reachability.ReachableStop))
  : Prop :=
  match graphs !! day_type with
  | None => answer = Raise (ValueError ("Invalid day_type: " ++ day_type)%string)
  | Some G =>
      if negb (has_node G origin_stop_id)
      then answer = Raise (ValueError ("Stop not found: " ++ origin_stop_id)%string)
      else
        match Reachability.time_to_seconds departure_time with
        | Raise e => answer = Raise e
        | Ok departure_time_sec =>
            exists out,
              searches G departure_time_sec (max_time_minutes * 60)
                {| Reachability.earliest_arrival :=
                     [(origin_stop_id, (departure_time_sec, 0))];
                   Reachability.pq := [(departure_time_sec, origin_stop_id, 0)];
                   Reachability.explored := ∅ |} out /\
              answer =
                (try final <- out;
                 try results <- for_each
                     (Reachability.result_row half_up G origin_stop_id
                        departure_time_sec)
                     (Reachability.earliest_arrival final) [];
                 Ok (stable_sort Reachability.by_travel_time results))
        end
  end.


(** ** Two searches that differ in their budget *)

(** The edge does not go back in time: a transfer has a duration of at
    least 0, a trip segment does not arrive before it leaves. *)
Definition nonneg_edge (e : EdgeData) : bool :=
  if Reachability.is_transfer_edge e then
    match duration e with Some d => 0 <=? d | None => true end
  else
    match departure_time e, arrival_time e with
    | Some d, Some a => d <=? a
    | _, _ => true
    end.









(** The row of the answer for a stop of [earliest_arrival]. *)
Definition make_row (half_up : Z -> bool) (departure_time_sec : Z)
    (stop : string) (data : StopData) (arrival transfers : Z)
  : Reachability.ReachableStop :=
  {| Reachability.stop_id := stop;
     Reachability.stop_name := Nx.stop_name data;
     Reachability.lat := Nx.lat data;
     Reachability.lon := Nx.lon data;
     Reachability.travel_time_minutes :=
       Reachability.round_minutes half_up (arrival - departure_time_sec);
     Reachability.num_transfers := transfers |}.


(** ** One edge for an ordered pair of stops *)

(** No node lists a successor twice: the graph has at most one edge from a
    stop to another. *)
Definition one_edge_per_pair (G : DiGraph) : Prop :=
  Forall (fun kv => NoDup (OD.keys (node_succ kv.2))) G.


(** ** What a search keeps true of its queue and of its records *)

(** Every entry of the queue satisfies [E], every record [R]. *)
Definition state_keeps (E : Reachability.Entry -> Prop)
    (R : string -> Z * Z -> Prop) (st : Reachability.State) : Prop :=
  (forall x, In x (Reachability.pq st) -> E x) /\
  (forall k v, In (k, v) (Reachability.earliest_arrival st) -> R k v).

Definition acc_keeps (E : Reachability.Entry -> Prop)
    (R : string -> Z * Z -> Prop)
    (acc : list (string * (Z * Z)) * list Reachability.Entry) : Prop :=
  (forall x, In x acc.2 -> E x) /\ (forall k v, In (k, v) acc.1 -> R k v).

(** [v] can be reached from [u] along edges of the graph. *)
Inductive connected (G : DiGraph) (u : string) : string -> Prop :=
| connected_here : connected G u u
| connected_step (v w : string) (node : NodeEntry) (e : EdgeData) :
    connected G u v -> OD.get v G = Some node -> In (w, e) (node_succ node) ->
    connected G u w.

(** What is known of a candidate that the loop over the edges has kept: it
    is within the budget, it adds at most one transfer, and it does not
    arrive before the current time when the edge does not go back in
    time. *)
Definition kept (dep maxs cur n : Z) (e : EdgeData) (best : option (Z * Z))
  : Prop :=
  match best with
  | Some (a, t) =>
      a - dep <= maxs /\ n <= t <= n + 1 /\ (nonneg_edge e = true -> cur <= a)
  | None => True
  end.

(** The order of a sort by an integer key. *)
Definition by_key {A : Type} (key : A -> Z) (a b : A) : bool := key a <=? key b.

(** ** reachability.py: the stops a calculator knows *)

Module Calculator.

(** The dictionary that describes a stop, with its four keys. *)
Record StopInfo : Type := {
  stop_id : string;
  stop_name : string;
  lat : Z * Z;
  lon : Z * Z
}.

(** The dictionary built from [stop_data], lines 251 to 257 and 275 to
    280; a node that only [add_edge] created has no [stop_name] key. *)
Definition describe (stop : string) (node : NodeEntry) : result StopInfo :=
  try stop_data <- Reachability.getitem (node_attrs node);
  Ok {| stop_id := stop;
        stop_name := Nx.stop_name stop_data;
        lat := Nx.lat stop_data;
        lon := Nx.lon stop_data |}.

(** [get_stop_info]; [Ok None] is the returned [None]. *)
Definition get_stop_info (graphs : gmap string DiGraph)
    (stop : string) (day_type : string) : result (option StopInfo) :=
  match graphs !! day_type with
  | None => Ok None
  | Some G =>
      if negb (has_node G stop) then Ok None
      else
        try node <- match OD.get stop G with
                    | Some e => Ok e
                    | None => Raise KeyError
                    end;
        try info <- describe stop node;
        Ok (Some info)
  end.



End Calculator.

(** ** api/app.py: the endpoints

    An endpoint is modelled as the function the decorator wraps: what it
    returns, or the status code of the HTTPException it raises.  The
    validation of the request and of the response by the framework is
    outside of it. *)

Module Api.

(** The fields of [ReachabilityRequest] and, with [time_step_minutes], of
    [ReachabilityTimelineRequest]. *)
Record ReachabilityRequest : Type := {
  origin_stop_id : string;
  max_time_minutes : Z;
  departure_time : string;
  day_type : string
}.

Record ReachabilityTimelineRequest : Type := {
  search : ReachabilityRequest;
  time_step_minutes : Z
}.

(** What can be raised inside the [try] of an endpoint: an exception of the
    calculator, or the endpoint's own HTTPException (which is an
    [Exception], and no [ValueError]). *)
Inductive raised : Type :=
| Builtin (e : exn)
| HTTPException (status_code : Z).

Inductive Response (A : Type) : Type :=
| Returned (body : A)
| HTTPError (status_code : Z).

Arguments Returned {A} body.
Arguments HTTPError {A} status_code.

Definition lift {A : Type} (r : result A) : A + raised :=
  match r with
  | Ok a => inl a
  | Raise e => inr (Builtin e)
  end.

(** [except ValueError: raise HTTPException(400)], then
    [except Exception: raise HTTPException(500)]. *)
Definition except_400_500 {A : Type} (body : A + raised) : Response A :=
  match body with
  | inl a => Returned a
  | inr (Builtin (ValueError _)) => HTTPError 400
  | inr _ => HTTPError 500
  end.


(** Lines 160 to 163 and 199 to 202. *)
Definition find_origin (graphs : gmap string DiGraph) (stop day : string)
  : Calculator.StopInfo + raised :=
  match lift (Calculator.get_stop_info graphs stop day) with
  | inl (Some origin) => inl origin
  | inl None => inr (HTTPException 404)
  | inr e => inr e
  end.


Section Endpoints.
Variable half_up : Z -> bool.

(** [POST /reachability] *)
Definition calculate_reachability (calculator : option (gmap string DiGraph))
    (request : ReachabilityRequest)
  : Response (Calculator.StopInfo * list Reachability.ReachableStop) :=
  match calculator with
  | None => HTTPError 503
  | Some graphs =>
      except_400_500
        match find_origin graphs (origin_stop_id request) (day_type request) with
        | inr e => inr e
        | inl origin =>
            match lift (Reachability.calculate_reachability half_up graphs
                          (origin_stop_id request) (departure_time request)
                          (max_time_minutes request) (day_type request)) with
            | inr e => inr e
            | inl reachable => inl (origin, reachable)
            end
        end
  end.

(** [POST /reachability-timeline] *)
Definition calculate_reachability_timeline
    (calculator : option (gmap string DiGraph))
    (request : ReachabilityTimelineRequest)
  : Response (Calculator.StopInfo * list Reachability.Frame) :=
  match calculator with
  | None => HTTPError 503
  | Some graphs =>
      let r := search request in
      except_400_500
        match find_origin graphs (origin_stop_id r) (day_type r) with
        | inr e => inr e
        | inl origin =>
            match lift (Reachability.calculate_reachability_timeline half_up
                          graphs (origin_stop_id r) (departure_time r)
                          (max_time_minutes r) (time_step_minutes request)
                          (day_type r)) with
            | inr e => inr e
            | inl timeline => inl (origin, timeline)
            end
        end
  end.

End Endpoints.

(** [GET /health]: the value of [calculator_loaded]. *)
Definition health_check (calculator : option (gmap string DiGraph)) : bool :=
  match calculator with Some _ => true | None => false end.

(** A departure time of two digits, a colon and two digits, which the
    pattern of the request models accepts. *)
Definition clock_string (s : string) : bool :=
  match list_ascii_of_string s with
  | [h1; h2; c; m1; m2] =>
      Py.is_digit h1 && Py.is_digit h2 && Ascii.eqb c ":"%char
      && Py.is_digit m1 && Py.is_digit m2
  | _ => false
  end.

End Api.

(** The exceptions the search raises on a graph it cannot read. *)
Definition graph_error (e : exn) : bool :=
  match e with
  | KeyError | AttributeError | NetworkXError => true
  | _ => false
  end.

(** ** The stages of [build_graph_for_day_type], and what they keep *)

(** The attributes [add_node] writes for a row of stops.txt. *)
Definition row_data (stop : StopRow) : StopData :=
  {| stop_name := s_stop_name stop; lat := s_stop_lat stop;
     lon := s_stop_lon stop |}.

(** Lines 160 to 166: the graph after the loop over the stops. *)
Definition stop_nodes (feed : Feed) : DiGraph :=
  fold_left (fun G stop => add_node G (s_stop_id stop) (row_data stop))
    (stops_df feed) [].

(** The attribute dictionary of a node: [None] when [x] is no node,
    [Some None] when it is a node without attributes. *)
Definition node_data (G : DiGraph) (x : string) : option (option StopData) :=
  match OD.get x G with
  | Some node => Some (node_attrs node)
  | None => None
  end.


(** Every successor of a node is a node. *)
Definition closed (G : DiGraph) : Prop :=
  Forall (fun kv => Forall (fun ve => has_node G ve.1 = true) (node_succ kv.2)) G.

(** The trip is one of trips.txt, of a service of the day type. *)
Definition on_day (feed : Feed) (service_ids : list string) (trip : string)
  : Prop :=
  exists t, In t (trips_df feed) /\ t_trip_id t = trip /\
            in_list (t_service_id t) service_ids = true.

(** The visit comes from a row of stop_times.txt of a trip of the day. *)
Definition visit_of (feed : Feed) (service_ids : list string) (v : StopVisit)
  : Prop :=
  on_day feed service_ids (v_trip_id v) /\
  exists r, In r (stop_times_df feed) /\ st_trip_id r = v_trip_id v /\
            st_stop_id r = v_stop_id v.



(** ** data/gtfs_downloader.py: the downloader, on local storage

    The files the downloader works on are the state: the zip at
    [GTFS_ZIP_PATH], the directory [GTFS_EXTRACT_DIR] and the JSON file at
    [METADATA_PATH].  What lies outside the program is a parameter: the
    archives, their SHA-256 digest, what [extractall] writes for an archive,
    and the feed version read from an extracted feed_info.txt. *)

Module Downloader.

(** The four keys of the metadata dictionary; [None] is JSON null. *)
Record Metadata : Type := {
  checksum : option string;
  download_date : option string;
  feed_version : option string;
  last_updated : option string
}.

(** What a call ends with: a returned value, or a raised exception. *)
Inductive Raised : Type :=
| RequestException
| BadZipFile
| Python (e : exn).

Inductive Outcome (A : Type) : Type :=
| Returns (a : A)
| Raises (e : Raised).

Arguments Returns {A} a.
Arguments Raises {A} e.

(** [datetime.now()], read twice: as a date and in ISO format. *)
Record Clock : Type := {
  today : string;
  now_iso : string
}.

(** [required_files] of [validate_gtfs]. *)
Definition required_files : list string :=
  ["agency.txt"; "stops.txt"; "routes.txt"; "trips.txt"; "stop_times.txt";
   "calendar.txt"].

(** [validate_gtfs], on the names that exist in the directory. *)
Definition validate_gtfs (names : list string) : bool :=
  forallb (fun filename => in_list filename names) required_files.

(** The files [TransitGraphBuilder.load_gtfs_data] reads without a
    [try], in the order it reads them; the first that does not exist is
    its FileNotFoundError. *)
Definition files_read : list string :=
  ["stops.txt"; "stop_times.txt"; "trips.txt"; "routes.txt"; "calendar.txt"].

Definition first_missing (names : list string) : option string :=
  List.find (fun filename => negb (in_list filename names)) files_read.

Section Storage.

Variable Archive : Type.

(** [compute_checksum]: the hex digest of the bytes. *)
Variable sha256 : Archive -> string.

(** What [ZipFile(zip_path).extractall(extract_dir)] leaves in the emptied
    directory, and whether it returned ([true]) or raised BadZipFile. *)
Variable extractall : Archive -> list string * bool.

(** The first [feed_version] of an extracted feed_info.txt, if it can be
    read. *)
Variable read_feed_version : Archive -> option string.

Record Files : Type := {
  gtfs_zip : option Archive;
  gtfs_dir : list string;
  metadata_json : option Metadata
}.

(** What [requests.get] and the streaming of the response come to. *)
Inductive Response : Type :=
| Unreachable
| Interrupted (partial : Archive)
| Complete (archive : Archive).

(** [download_gtfs]: the zip is opened for writing once the status of the
    response is known, and holds what arrived. *)
Definition download_gtfs (response : Response) (files : Files)
  : Outcome Archive * Files :=
  match response with
  | Unreachable => (Raises RequestException, files)
  | Interrupted partial =>
      (Raises RequestException,
       {| gtfs_zip := Some partial; gtfs_dir := gtfs_dir files;
          metadata_json := metadata_json files |})
  | Complete archive =>
      (Returns archive,
       {| gtfs_zip := Some archive; gtfs_dir := gtfs_dir files;
          metadata_json := metadata_json files |})
  end.

(** [extract_gtfs]: the directory is removed and made anew before the zip
    is opened. *)
Definition extract_gtfs (archive : Archive) (files : Files)
  : Outcome unit * Files :=
  let '(names, finished) := extractall archive in
  (if finished then Returns tt else Raises BadZipFile,
   {| gtfs_zip := gtfs_zip files; gtfs_dir := names;
      metadata_json := metadata_json files |}).

(** [extract_feed_version] *)
Definition extract_feed_version (archive : Archive) (names : list string)
  : option string :=
  if in_list "feed_info.txt" names then read_feed_version archive else None.

(** [load_metadata] *)
Definition load_metadata (files : Files) : Metadata :=
  match metadata_json files with
  | Some metadata => metadata
  | None =>
      {| checksum := None; download_date := None; feed_version := None;
         last_updated := None |}
  end.

(** [save_metadata] *)
Definition save_metadata (metadata : Metadata) (files : Files) : Files :=
  {| gtfs_zip := gtfs_zip files; gtfs_dir := gtfs_dir files;
     metadata_json := Some metadata |}.

Definition same_checksum (new_checksum : string) (current : option string)
  : bool :=
  match current with
  | Some c => String.eqb new_checksum c
  | None => false
  end.

(** [check_and_update] *)
Definition check_and_update (response : Response) (clock : Clock)
    (files : Files) : Outcome bool * Files :=
  match download_gtfs response files with
  | (Raises e, files) => (Raises e, files)
  | (Returns archive, files) =>
      let new_checksum := sha256 archive in
      let current_checksum := checksum (load_metadata files) in
      if same_checksum new_checksum current_checksum then (Returns false, files)
      else
        match extract_gtfs archive files with
        | (Raises e, files) => (Raises e, files)
        | (Returns _, files) =>
            if negb (validate_gtfs (gtfs_dir files)) then (Returns false, files)
            else
              let new_metadata :=
                {| checksum := Some new_checksum;
                   download_date := Some (today clock);
                   feed_version :=
                     extract_feed_version archive (gtfs_dir files);
                   last_updated := Some (now_iso clock) |} in
              (Returns true, save_metadata new_metadata files)
        end
  end.

(** [force_download] *)
Definition force_download (response : Response) (clock : Clock)
    (files : Files) : Outcome unit * Files :=
  match download_gtfs response files with
  | (Raises e, files) => (Raises e, files)
  | (Returns archive, files) =>
      match extract_gtfs archive files with
      | (Raises e, files) => (Raises e, files)
      | (Returns _, files) =>
          if negb (validate_gtfs (gtfs_dir files))
          then (Raises (Python (ValueError "GTFS validation failed")), files)
          else
            let metadata :=
              {| checksum := Some (sha256 archive);
                 download_date := Some (today clock);
                 feed_version :=
                   extract_feed_version archive (gtfs_dir files);
                 last_updated := Some (now_iso clock) |} in
            (Returns tt, save_metadata metadata files)
      end
  end.

(** The metadata names an archive that was extracted whole and passed the
    validation. *)
Definition recorded_valid (metadata : option Metadata) : Prop :=
  forall m, metadata = Some m ->
    exists archive names,
      checksum m = Some (sha256 archive) /\
      extractall archive = (names, true) /\ validate_gtfs names = true.

End Storage.

Arguments download_gtfs {Archive} response files.
Arguments extract_gtfs {Archive} extractall archive files.
Arguments extract_feed_version {Archive} read_feed_version archive names.
Arguments load_metadata {Archive} files.
Arguments save_metadata {Archive} metadata files.
Arguments check_and_update {Archive} sha256 extractall read_feed_version
  response clock files.
Arguments force_download {Archive} sha256 extractall read_feed_version
  response clock files.
Arguments recorded_valid {Archive} sha256 extractall metadata.
Arguments gtfs_zip {Archive} f.
Arguments gtfs_dir {Archive} f.
Arguments metadata_json {Archive} f.
Arguments Unreachable {Archive}.
Arguments Interrupted {Archive} partial.
Arguments Complete {Archive} archive.

End Downloader.

(** * Properties *)

(** ** Insertion-ordered dictionaries *)

Module DictFacts.

Lemma get_in {V : Type} (k : string) (v : V) (d : list (string * V)) :
  OD.get k d = Some v -> In (k, v) d.
Proof.
  induction d as [|[k' v'] d IH]; [discriminate|]. cbn.
  destruct (String.eqb_spec k k') as [->|_].
  - intros [= ->]. now left.
  - intros H. right. now apply IH.
Qed.

Lemma in_set {V : Type} (k k0 : string) (v v0 : V) (d : list (string * V)) :
  In (k, v) (OD.set k0 v0 d) -> (k = k0 /\ v = v0) \/ In (k, v) d.
Proof.
  induction d as [|[k' v'] d IH]; cbn.
  - intros [[= <- <-]|[]]. now left.
  - destruct (String.eqb_spec k0 k') as [->|_]; cbn.
    + intros [[= <- <-]|H]; [now left|right; now right].
    + intros [[= <- <-]|H]; [right; now left|].
      destruct (IH H) as [?|?]; [now left|right; now right].
Qed.

Lemma get_set {V : Type} (k k0 : string) (v0 : V) (d : list (string * V)) :
  OD.get k (OD.set k0 v0 d) = if String.eqb k k0 then Some v0 else OD.get k d.
Proof.
  induction d as [|[k' v'] d IH]; cbn.
  - reflexivity.
  - destruct (String.eqb_spec k0 k') as [->|Hne]; cbn.
    + now destruct (String.eqb k k').
    + destruct (String.eqb_spec k k') as [->|_].
      * destruct (String.eqb_spec k' k0); [congruence|reflexivity].
      * exact IH.
Qed.

Lemma keys_set {V : Type} (k0 : string) (v0 : V) (d : list (string * V)) :
  NoDup (OD.keys d) -> NoDup (OD.keys (OD.set k0 v0 d)).
Proof.
  unfold OD.keys. induction d as [|[k' v'] d IH]; cbn.
  - intros _. apply NoDup_singleton.
  - intros [Hnotin Hnd]%NoDup_cons.
    destruct (String.eqb_spec k0 k') as [->|Hne]; cbn.
    + apply NoDup_cons. now split.
    + apply NoDup_cons. split; [|now apply IH].
      rewrite list_elem_of_In. intros Hin.
      apply in_map_iff in Hin as [[k v] [Hk Hin]].
      cbn in Hk. subst k.
      destruct (in_set _ _ _ _ _ Hin) as [[-> _]|Hin']; [congruence|].
      apply Hnotin. rewrite list_elem_of_In. apply in_map_iff. now exists (k', v).
Qed.


End DictFacts.

(** ** The graph builder *)

Module BuilderFacts.

Lemma set_forall {V : Type} (P : V -> Prop) (k : string) (v : V)
    (d : list (string * V)) :
  P v -> Forall (fun kv => P kv.2) d -> Forall (fun kv => P kv.2) (OD.set k v d).
Proof.
  intros Hv. induction 1 as [|[k' v'] d Hv' Hd IH]; cbn.
  - now repeat constructor.
  - destruct (String.eqb k k'); constructor; auto.
Qed.

Lemma get_forall {V : Type} (P : V -> Prop) (k : string) (v : V)
    (d : list (string * V)) :
  Forall (fun kv => P kv.2) d -> OD.get k d = Some v -> P v.
Proof.
  induction 1 as [|[k' v'] d Hv' Hd IH]; cbn; [discriminate|].
  destruct (String.eqb k k'); [now intros [= <-]|exact IH].
Qed.

Lemma add_node_one_edge (G : DiGraph) (n : string) (attrs : StopData) :
  one_edge_per_pair G -> one_edge_per_pair (add_node G n attrs).
Proof.
  unfold one_edge_per_pair, add_node. intros HG.
  destruct (OD.get n G) as [e|] eqn:Hget.
  - apply (set_forall (fun x => NoDup (OD.keys (node_succ x)))); [|exact HG].
    exact (get_forall (fun x => NoDup (OD.keys (node_succ x))) n e G HG Hget).
  - apply (set_forall (fun x => NoDup (OD.keys (node_succ x)))); [|exact HG].
    apply NoDup_nil_2.
Qed.

Lemma touch_node_one_edge (G : DiGraph) (n : string) :
  one_edge_per_pair G -> one_edge_per_pair (touch_node G n).
Proof.
  unfold one_edge_per_pair, touch_node. intros HG.
  destruct (has_node G n); [exact HG|].
  apply (set_forall (fun x => NoDup (OD.keys (node_succ x)))); [|exact HG].
  apply NoDup_nil_2.
Qed.

(** [add_edge] writes into the dictionary of the pair, and adds none. *)
Lemma add_edge_one_edge (G : DiGraph) (u v : string) (attr : EdgeData) :
  one_edge_per_pair G -> one_edge_per_pair (add_edge G u v attr).
Proof.
  intros HG. unfold add_edge.
  pose proof (touch_node_one_edge _ v (touch_node_one_edge G u HG)) as H1.
  destruct (OD.get u (touch_node (touch_node G u) v)) as [e|] eqn:Hget;
    [|exact H1].
  apply (set_forall (fun x => NoDup (OD.keys (node_succ x)))); [|exact H1].
  cbn. apply DictFacts.keys_set.
  exact (get_forall (fun x => NoDup (OD.keys (node_succ x))) u e _ H1 Hget).
Qed.

Lemma add_trip_edges_one_edge (trip : string) (route : option string)
    (trip_stops : list StopVisit) :
  forall G, one_edge_per_pair G ->
            one_edge_per_pair (add_trip_edges G trip route trip_stops).
Proof.
  induction trip_stops as [|a l IH]; intros G HG; [exact HG|].
  destruct l as [|b l]; [exact HG|].
  cbn [add_trip_edges]. apply IH. now apply add_edge_one_edge.
Qed.

Lemma fold_one_edge {A : Type} (f : DiGraph -> A -> DiGraph) (xs : list A) :
  (forall G x, one_edge_per_pair G -> one_edge_per_pair (f G x)) ->
  forall G, one_edge_per_pair G -> one_edge_per_pair (fold_left f xs G).
Proof.
  intros Hf. induction xs as [|x xs IH]; intros G HG; [exact HG|].
  cbn. apply IH. now apply Hf.
Qed.

(** Every graph the builder returns has at most one edge for an ordered
    pair of stops. *)
Lemma built_one_edge (feed : Feed) (service_ids : list string) (G : DiGraph) :
  build_graph_for_day_type feed service_ids = Ok G -> one_edge_per_pair G.
Proof.
  unfold build_graph_for_day_type.
  destruct (convert_times _) as [visits|]; [|discriminate]. cbn [bind].
  intros [= <-].
  assert (Htrips : forall xs G0, one_edge_per_pair G0 ->
            one_edge_per_pair
              (fold_left
                 (fun G1 '(trip, trip_stops) =>
                    add_trip_edges G1 trip
                      match
                        OD.get trip
                          (trip_route_map
                             (trips_with_routes
                                (filter (fun t => in_list (t_service_id t) service_ids)
                                   (trips_df feed))
                                (routes_df feed)))
                      with
                      | Some r => r
                      | None => Some "Unknown"
                      end (stable_sort sequence_leb trip_stops)) xs G0)).
  { intros xs. apply fold_one_edge. intros G1 [trip stops] HG1.
    now apply add_trip_edges_one_edge. }
  assert (Hstops : one_edge_per_pair
            (fold_left
               (fun G0 stop =>
                  add_node G0 (s_stop_id stop)
                    {| stop_name := s_stop_name stop; lat := s_stop_lat stop;
                       lon := s_stop_lon stop |}) (stops_df feed) [])).
  { apply fold_one_edge; [|constructor]. intros G1 x HG1.
    now apply add_node_one_edge. }
  destruct (transfers_df feed) as [rows|]; [|now apply Htrips].
  apply fold_one_edge; [|now apply Htrips].
  intros G1 row HG1. unfold add_transfer.
  destruct (_ && _); [now apply add_edge_one_edge|exact HG1].
Qed.

End BuilderFacts.

(** C1. A graph the builder returns has at most one edge for an ordered
    pair of stops.  Two trips and a transfer rule that all join A to B leave
    one edge from A to B: it carries the times of the trip added last and the
    transfer's flag and duration; the segment of the first trip is gone.
    Without the transfer rule the edge is the second trip's alone. *)
Theorem parallel_edges_overwritten :
  (forall feed service_ids G,
     build_graph_for_day_type feed service_ids = Ok G -> one_edge_per_pair G) /\
  (exists G,
     build_graph_for_day_type Scenario.parallel_feed ["S"] = Ok G /\
     Nx.edges G =
       [("A", "B",
         {| departure_time := Some 36000; arrival_time := Some 36600;
            duration := Some 120; trip_id := Some "T2";
            route_name := Some (Some "U6"); transfer := Some true |})]) /\
  (exists G,
     build_graph_for_day_type Scenario.two_trips_feed ["S"] = Ok G /\
     Nx.edges G = [("A", "B", Scenario.trip_edge "T2" 36000 36600)]).
Proof.
  split; [exact BuilderFacts.built_one_edge|].
  split; eexists; (split; [vm_compute; reflexivity|]); reflexivity.
Qed.






(** *** Calendar rules *)

Lemma classify_row_ids (v : Variant) (s : ServiceIds) (row : CalendarRow) :
  ids_of v (classify_row s row)
  = ids_of v s ++ (if classified_into v row then [service_id row] else []).
Proof.
  unfold classify_row, classified_into, weekdays_only, saturday_only,
    sunday_only, day_flag.
  repeat match goal with
         | |- context [if ?c then _ else _] => destruct c eqn:?
         end;
    destruct v; cbn; rewrite ?app_nil_r, <- ?app_assoc; try reflexivity;
    try discriminate.
Qed.

Lemma classify_fold_ids (v : Variant) (cal : list CalendarRow) (s : ServiceIds) :
  ids_of v (fold_left classify_row cal s)
  = ids_of v s ++ map service_id (filter (classified_into v) cal).
Proof.
  revert s. induction cal as [|row cal IH]; intros s; cbn.
  - now rewrite app_nil_r.
  - rewrite IH, classify_row_ids.
    destruct (classified_into v row); cbn; rewrite <- ?app_assoc, ?app_nil_r;
      reflexivity.
Qed.

(** C5. The service identifiers listed for a variant are those of the
    calendar rules the rule of the design sends there, in calendar order: a
    rule active on Monday to Friday only goes to weekday alone, one active on
    Saturday only to saturday alone, one active on Sunday only to sunday
    alone, and any other rule to every variant of which a day flag is set
    (for weekday: one of Monday to Friday).  So a Saturday and Sunday rule is
    in both saturday and sunday, and a rule with no day set is in none. *)
Theorem service_classification :
  (forall (cal : list CalendarRow) (v : Variant),
     ids_of v (get_service_ids_by_day_type cal)
     = map service_id (filter (classified_into v) cal)) /\
  (forall sid,
     get_service_ids_by_day_type [rule sid true true true true true false false]
     = {| sids_weekday := [sid]; sids_saturday := []; sids_sunday := [] |}) /\
  (forall sid,
     get_service_ids_by_day_type [rule sid false false false false false true false]
     = {| sids_weekday := []; sids_saturday := [sid]; sids_sunday := [] |}) /\
  (forall sid,
     get_service_ids_by_day_type [rule sid false false false false false false true]
     = {| sids_weekday := []; sids_saturday := []; sids_sunday := [sid] |}) /\
  (forall sid,
     get_service_ids_by_day_type [rule sid false false false false false true true]
     = {| sids_weekday := []; sids_saturday := [sid]; sids_sunday := [sid] |}) /\
  (forall sid mo tu we th fr sa su,
     weekdays_only (rule sid mo tu we th fr sa su) = false ->
     saturday_only (rule sid mo tu we th fr sa su) = false ->
     sunday_only (rule sid mo tu we th fr sa su) = false ->
     get_service_ids_by_day_type [rule sid mo tu we th fr sa su]
     = {| sids_weekday := if mo || tu || we || th || fr then [sid] else [];
          sids_saturday := if sa then [sid] else [];
          sids_sunday := if su then [sid] else [] |}) /\
  (forall sid,
     get_service_ids_by_day_type [rule sid false false false false false false false]
     = {| sids_weekday := []; sids_saturday := []; sids_sunday := [] |}).
Proof.
  split.
  { intros cal v. unfold get_service_ids_by_day_type.
    rewrite classify_fold_ids. now destruct v. }
  repeat split; try (intros; reflexivity).
  intros sid mo tu we th fr sa su.
  destruct mo, tu, we, th, fr, sa, su; cbn; intros; try reflexivity;
    discriminate.
Qed.

Lemma service_classification_witness :
  get_service_ids_by_day_type [rule "S" true false false false false true false]
  = {| sids_weekday := ["S"]; sids_saturday := ["S"]; sids_sunday := [] |}.
Proof.
  exact (proj1 (proj2 (proj2 (proj2 (proj2 (proj2 service_classification)))))
           "S" true false false false false true false
           eq_refl eq_refl eq_refl).
Defined.

(** ** Scenarios *)

Lemma scenario_feed_builds : build_all_graphs Scenario.feed = Ok Scenario.graphs.
Proof. vm_compute. reflexivity. Qed.

Lemma scenario_quarter_hour (half_up : Z -> bool) :
  Reachability.calculate_reachability half_up Scenario.graphs
    "A" "09:00" 15 "weekday"
  = Ok [Scenario.reached "B" "Beta" 100 0].
Proof. vm_compute. reflexivity. Qed.

(** C2. On the graph built from the feed with stops A, B and C, one segment
    from A to B (09:00:00 to 09:10:00) and one from B to C (09:20:00 to
    09:30:00), the search from A at 09:00 with a budget of 30 minutes returns
    B at 10.0 minutes (100 tenths) with no transfer, then C at 30.0 minutes
    (300 tenths) with one transfer; with a budget of 15 minutes it returns B
    alone. *)
Theorem scenario_reachability (half_up : Z -> bool) :
  build_all_graphs Scenario.feed = Ok Scenario.graphs /\
  Scenario.graphs !! "weekday" = Some Scenario.graph /\
  Reachability.calculate_reachability half_up Scenario.graphs
    "A" "09:00" 30 "weekday"
  = Ok [Scenario.reached "B" "Beta" 100 0; Scenario.reached "C" "Gamma" 300 1] /\
  Reachability.calculate_reachability half_up Scenario.graphs
    "A" "09:00" 15 "weekday"
  = Ok [Scenario.reached "B" "Beta" 100 0].
Proof.
  split; [exact scenario_feed_builds|].
  split; [vm_compute; reflexivity|].
  split; [vm_compute; reflexivity|].
  exact (scenario_quarter_hour half_up).
Qed.

(** ** The timeline *)

(** [range(step, stop + 1, step)] for a positive step: the multiples of
    [step] from [step] up to the largest one that does not exceed [stop]. *)
Lemma range_multiples (step stop : Z) :
  0 < step ->
  Py.range step (stop + 1) step
  = Ok (map (fun k => Z.of_nat k * step) (seq 1 (Z.to_nat (stop / step)))).
Proof.
  intros Hstep. unfold Py.range.
  destruct (Z.eqb_spec step 0) as [->|_]; [lia|].
  destruct (Z.ltb_spec 0 step) as [_|]; [|lia].
  f_equal.
  assert (Hlen : (if step <? stop + 1 then (stop + 1 - step - 1) / step + 1 else 0)
                 = Z.max 0 (stop / step)).
  { destruct (Z.ltb_spec step (stop + 1)).
    - replace (stop + 1 - step - 1) with (stop + (-1) * step) by lia.
      rewrite Z.div_add by lia.
      assert (1 <= stop / step) by (apply Z.div_le_lower_bound; lia). lia.
    - assert (stop / step <= 0); [|lia].
      destruct (Z.le_gt_cases 0 stop).
      + rewrite Z.div_small; lia.
      + assert (stop / step < 0) by (apply Z.div_lt_upper_bound; lia). lia. }
  rewrite Hlen.
  replace (Z.to_nat (Z.max 0 (stop / step))) with (Z.to_nat (stop / step)) by lia.
  rewrite <- seq_shift, map_map.
  apply map_ext. intros k. lia.
Qed.

(** C6. For a completed search and a positive step, the timeline has one
    frame for each of step, 2 * step, ... up to the largest multiple of the
    step that does not exceed the budget; the frame of an elapsed value holds
    the stops of the search result whose travel time is at most that value
    (in tenths: at most ten times it), in the order of the result.  On the
    scenario with stops A, B and C, step 10 and budget 30, the frames are
    10 with B, 20 with B, and 30 with B and C. *)
Theorem timeline_frames (half_up : Z -> bool) :
  (forall graphs origin departure budget step day_type all_reachable,
     0 < step ->
     Reachability.calculate_reachability half_up graphs origin departure
       budget day_type = Ok all_reachable ->
     Reachability.calculate_reachability_timeline half_up graphs origin
       departure budget step day_type
     = Ok (map (fun k =>
                  {| Reachability.elapsed_minutes := Z.of_nat k * step;
                     Reachability.reachable_stops :=
                       filter (fun stop =>
                                 Reachability.travel_time_minutes stop
                                 <=? Z.of_nat k * step * 10)
                         all_reachable |})
               (seq 1 (Z.to_nat (budget / step))))) /\
  Reachability.calculate_reachability_timeline half_up Scenario.graphs
    "A" "09:00" 30 10 "weekday"
  = Ok [{| Reachability.elapsed_minutes := 10;
           Reachability.reachable_stops := [Scenario.reached "B" "Beta" 100 0] |};
        {| Reachability.elapsed_minutes := 20;
           Reachability.reachable_stops := [Scenario.reached "B" "Beta" 100 0] |};
        {| Reachability.elapsed_minutes := 30;
           Reachability.reachable_stops :=
             [Scenario.reached "B" "Beta" 100 0;
              Scenario.reached "C" "Gamma" 300 1] |}].
Proof.
  split; [|vm_compute; reflexivity].
  intros graphs origin departure budget step day_type all_reachable Hstep Hall.
  unfold Reachability.calculate_reachability_timeline.
  rewrite Hall. cbn [bind].
  rewrite (range_multiples step budget Hstep). cbn [bind].
  now rewrite map_map.
Qed.

Lemma timeline_frames_witness :
  Reachability.calculate_reachability_timeline Py.float_half_up Scenario.graphs
    "A" "09:00" 15 10 "weekday"
  = Ok [{| Reachability.elapsed_minutes := 10;
           Reachability.reachable_stops := [Scenario.reached "B" "Beta" 100 0] |}].
Proof.
  exact (proj1 (timeline_frames Py.float_half_up) Scenario.graphs
           "A" "09:00" 15 10 "weekday" [Scenario.reached "B" "Beta" 100 0]
           eq_refl (scenario_quarter_hour Py.float_half_up)).
Defined.

(** ** Loops and sorting *)

Module LoopFacts.

Lemma for_each_inv {A S : Type} (P : S -> Prop) (f : S -> A -> result S)
    (xs : list A) :
  (forall x s s', In x xs -> P s -> f s x = Ok s' -> P s') ->
  forall s s', P s -> for_each f xs s = Ok s' -> P s'.
Proof.
  induction xs as [|x xs IH]; intros Hf s s' HP; cbn [for_each].
  - now intros [= <-].
  - destruct (f s x) as [s1|] eqn:Hx; [|discriminate]. cbn [bind].
    apply IH; [|exact (Hf x s s1 (or_introl eq_refl) HP Hx)].
    intros y t t' Hy. apply Hf. now right.
Qed.

Lemma for_each_rel {A S1 S2 : Type} (R : S1 -> S2 -> Prop)
    (f1 : S1 -> A -> result S1) (f2 : S2 -> A -> result S2) (xs : list A) :
  (forall x s1 s2, In x xs -> R s1 s2 -> rel_result R (f1 s1 x) (f2 s2 x)) ->
  forall s1 s2, R s1 s2 -> rel_result R (for_each f1 xs s1) (for_each f2 xs s2).
Proof.
  induction xs as [|x xs IH]; intros Hf s1 s2 HR; [exact HR|].
  cbn [for_each].
  pose proof (Hf x s1 s2 (or_introl eq_refl) HR) as Hx.
  destruct (f1 s1 x) as [s1'|e1], (f2 s2 x) as [s2'|e2]; cbn in Hx |- *;
    try contradiction; [|exact Hx].
  apply IH; [|exact Hx]. intros y t1 t2 Hy. apply Hf. now right.
Qed.

Lemma insert_sorted_in {A : Type} (leb : A -> A -> bool) (x y : A) (l : list A) :
  In x (insert_sorted leb y l) <-> x = y \/ In x l.
Proof.
  induction l as [|z l IH]; cbn; [intuition|].
  destruct (leb y z); cbn; [intuition|]. rewrite IH. intuition.
Qed.

Lemma stable_sort_in {A : Type} (leb : A -> A -> bool) (x : A) (l : list A) :
  In x (stable_sort leb l) <-> In x l.
Proof.
  induction l as [|y l IH]; cbn; [reflexivity|].
  rewrite insert_sorted_in, IH. intuition.
Qed.

End LoopFacts.

(** ** The priority queue *)

Module HeapFacts.
Import Reachability.

Lemma entry_compare_lt (a b : Entry) :
  entry_compare a b = Lt <->
  a.1.1 < b.1.1 \/
  (a.1.1 = b.1.1 /\
   (String_as_OT.lt a.1.2 b.1.2 \/ (a.1.2 = b.1.2 /\ a.2 < b.2))).
Proof.
  destruct a as [[t1 s1] n1], b as [[t2 s2] n2]. cbn.
  destruct (Z.compare_spec t1 t2) as [->|Ht|Ht].
  - destruct (String.compare s1 s2) eqn:Hs.
    + apply String_as_OT.cmp_eq in Hs. subst s2.
      rewrite Z.compare_lt_iff. split; [intros; right; auto|].
      intros [?|[_ [Hlt|[_ ?]]]]; [lia| |assumption].
      apply String_as_OT.lt_not_eq in Hlt. exfalso. now apply Hlt.
    + apply String_as_OT.cmp_lt in Hs. split; [intros; right; auto|reflexivity].
    + split; [discriminate|].
      intros [?|[_ [Hlt|[-> _]]]]; [lia| |].
      * apply String_as_OT.cmp_lt in Hlt.
        unfold String_as_OT.cmp in Hlt. congruence.
      * assert (String.compare s2 s2 = Eq) by now apply String_as_OT.cmp_eq.
        congruence.
  - split; [intros; left; assumption|reflexivity].
  - split; [discriminate|]. intros [?|[? _]]; lia.
Qed.

Lemma entry_compare_eq (a b : Entry) : entry_compare a b = Eq <-> a = b.
Proof.
  destruct a as [[t1 s1] n1], b as [[t2 s2] n2]. cbn.
  destruct (Z.compare_spec t1 t2) as [->|Ht|Ht].
  - destruct (String.compare s1 s2) eqn:Hs.
    + apply String_as_OT.cmp_eq in Hs. subst s2.
      rewrite Z.compare_eq_iff. split; [now intros ->|now intros [= ->]].
    + split; [discriminate|]. intros [= -> ->].
      assert (String.compare s2 s2 = Eq) by now apply String_as_OT.cmp_eq.
      congruence.
    + split; [discriminate|]. intros [= -> ->].
      assert (String.compare s2 s2 = Eq) by now apply String_as_OT.cmp_eq.
      congruence.
  - split; [discriminate|]. intros [= ? _ _]. lia.
  - split; [discriminate|]. intros [= ? _ _]. lia.
Qed.

Lemma entry_compare_antisym (a b : Entry) :
  entry_compare a b = CompOpp (entry_compare b a).
Proof.
  destruct a as [[t1 s1] n1], b as [[t2 s2] n2]. cbn.
  rewrite (Z.compare_antisym t2 t1), (String.compare_antisym s1 s2),
    (Z.compare_antisym n2 n1).
  destruct (t2 ?= t1); cbn; try reflexivity.
  destruct (String.compare s2 s1); cbn; reflexivity.
Qed.

Lemma entry_lt_trans (a b c : Entry) :
  entry_compare a b = Lt -> entry_compare b c = Lt -> entry_compare a c = Lt.
Proof.
  rewrite !entry_compare_lt.
  intros [?|[? [?|[? ?]]]] [?|[? [?|[? ?]]]]; try (left; lia);
    right; (split; [lia|]).
  - left. eapply String_as_OT.lt_trans; eassumption.
  - left. congruence.
  - left. congruence.
  - right. split; [congruence|lia].
Qed.

Lemma entry_le_trans (a b c : Entry) :
  entry_le a b -> entry_le b c -> entry_le a c.
Proof.
  unfold entry_le. intros Hab Hbc.
  destruct (entry_compare a b) eqn:E1; [| |congruence].
  - apply entry_compare_eq in E1. now subst.
  - destruct (entry_compare b c) eqn:E2; [| |congruence].
    + apply entry_compare_eq in E2. subst. now rewrite E1.
    + now rewrite (entry_lt_trans a b c E1 E2).
Qed.

Lemma entry_le_refl (a : Entry) : entry_le a a.
Proof.
  unfold entry_le. now rewrite (proj2 (entry_compare_eq a a) eq_refl).
Qed.

Lemma entry_le_antisym (a b : Entry) : entry_le a b -> entry_le b a -> a = b.
Proof.
  unfold entry_le. rewrite (entry_compare_antisym b a).
  destruct (entry_compare a b) eqn:E; cbn; try congruence.
  intros _ _. now apply entry_compare_eq.
Qed.

Lemma entry_ltb_false (a b : Entry) : entry_ltb a b = false -> entry_le b a.
Proof.
  unfold entry_ltb, entry_le. rewrite (entry_compare_antisym b a).
  destruct (entry_compare a b); cbn; congruence.
Qed.

Lemma entry_ltb_true (a b : Entry) : entry_ltb a b = true -> entry_le a b.
Proof.
  unfold entry_ltb, entry_le. destruct (entry_compare a b); congruence.
Qed.

Lemma entry_eqb_eq (a b : Entry) : entry_eqb a b = true <-> a = b.
Proof.
  destruct a as [[t1 s1] n1], b as [[t2 s2] n2]. cbn.
  rewrite !andb_true_iff, !Z.eqb_eq, String.eqb_eq.
  split; [intros [[-> ->] ->]; reflexivity|intros [= -> -> ->]; auto].
Qed.


Lemma min_entry_spec (x : Entry) (l : list Entry) :
  In (min_entry x l) (x :: l) /\
  forall y, In y (x :: l) -> entry_le (min_entry x l) y.
Proof.
  revert x. induction l as [|z l IH]; intros x; cbn [min_entry].
  - split; [now left|]. intros y [<-|[]]. apply entry_le_refl.
  - destruct (IH (if entry_ltb z x then z else x)) as [Hin Hmin].
    split.
    + destruct Hin as [Hin|Hin]; [|now right; right].
      rewrite <- Hin. destruct (entry_ltb z x); [right; now left|now left].
    + intros y Hy.
      destruct (entry_ltb z x) eqn:Hzx.
      * destruct Hy as [<-|Hy]; [|now apply Hmin].
        eapply entry_le_trans; [apply Hmin; now left|].
        now apply entry_ltb_true.
      * destruct Hy as [<-|[<-|Hy]].
        -- apply Hmin. now left.
        -- eapply entry_le_trans; [apply Hmin; now left|].
           now apply entry_ltb_false.
        -- apply Hmin. now right.
Qed.

Lemma remove_first_perm (x : Entry) (l : list Entry) :
  In x l -> Permutation l (x :: remove_first x l).
Proof.
  induction l as [|y l IH]; [intros []|]. intros Hin. cbn.
  destruct (entry_eqb x y) eqn:E.
  - apply entry_eqb_eq in E. now subst.
  - destruct Hin as [->|Hin].
    + rewrite (proj2 (entry_eqb_eq x x) eq_refl) in E. discriminate.
    + rewrite perm_swap. constructor. now apply IH.
Qed.

(** What [heappop] hands out: a least entry of the queue, and the rest. *)
Lemma heappop_spec (q : list Entry) (m : Entry) (rest : list Entry) :
  heappop q = Some (m, rest) ->
  In m q /\ (forall y, In y q -> entry_le m y) /\ Permutation q (m :: rest).
Proof.
  destruct q as [|x l]; [discriminate|]. intros [= <- <-].
  destruct (min_entry_spec x l) as [Hin Hmin].
  split; [assumption|]. split; [assumption|].
  now apply remove_first_perm.
Qed.

Lemma heappop_nonempty (q : list Entry) :
  q <> [] -> exists m rest, heappop q = Some (m, rest).
Proof. destruct q; [congruence|]. intros _. cbn. eauto. Qed.

(** The least entry of a queue does not depend on its arrangement. *)
Lemma least_unique (q q' : list Entry) (m m' : Entry) :
  Permutation q q' ->
  In m q -> (forall y, In y q -> entry_le m y) ->
  In m' q' -> (forall y, In y q' -> entry_le m' y) ->
  m = m'.
Proof.
  intros Hp Hin Hmin Hin' Hmin'.
  apply entry_le_antisym.
  - apply Hmin. eapply Permutation_in; [symmetry; eassumption|assumption].
  - apply Hmin'. eapply Permutation_in; eassumption.
Qed.

Lemma heappop_perm (q q' : list Entry) (m : Entry) (rest : list Entry) :
  Permutation q q' -> heappop q = Some (m, rest) ->
  exists rest', heappop q' = Some (m, rest') /\ Permutation rest rest'.
Proof.
  intros Hp Hpop.
  destruct (heappop_spec _ _ _ Hpop) as (Hin & Hmin & Hperm).
  destruct (heappop_nonempty q') as (m' & rest' & Hpop').
  { intros ->. apply Permutation_sym, Permutation_nil in Hp. subst.
    destruct Hin. }
  destruct (heappop_spec _ _ _ Hpop') as (Hin' & Hmin' & Hperm').
  assert (m = m') by exact (least_unique q q' m m' Hp Hin Hmin Hin' Hmin').
  subst m'.
  exists rest'. split; [assumption|].
  apply (Permutation_cons_inv (a := m)).
  now rewrite <- Hperm, <- Hperm'.
Qed.

Lemma heappop_single (x : Entry) : heappop [x] = Some (x, []).
Proof.
  cbn. now rewrite (proj2 (entry_eqb_eq x x) eq_refl).
Qed.

End HeapFacts.

(** ** The search raises nothing on a well-formed graph, and ends *)

Module Runs.
Import Reachability.

Lemma search_loop_done (fuel : nat) (G : DiGraph) (dep maxs : Z) (st : State) :
  pq st = [] -> search_loop fuel G dep maxs st = Ok st.
Proof. intros H. destruct fuel; cbn; [reflexivity|now rewrite H]. Qed.

Lemma node_of (G : DiGraph) (n : string) :
  has_node G n = true -> exists node, OD.get n G = Some node.
Proof. unfold has_node, OD.mem. destruct (OD.get n G); [eauto|discriminate]. Qed.

Lemma edge_of_node (P : EdgeData -> bool) (G : DiGraph) (n : string)
    (node : NodeEntry) :
  every_edge P G = true -> OD.get n G = Some node ->
  forall nb e, In (nb, e) (node_succ node) -> P e = true.
Proof.
  intros HG Hget nb e Hin. apply DictFacts.get_in in Hget.
  unfold every_edge in HG. rewrite forallb_forall in HG.
  specialize (HG _ Hget). cbn in HG. rewrite forallb_forall in HG.
  exact (HG _ Hin).
Qed.

Lemma successors_known (G : DiGraph) (n : string) (node : NodeEntry) :
  successors_are_nodes G = true -> OD.get n G = Some node ->
  forall nb e, In (nb, e) (node_succ node) -> has_node G nb = true.
Proof.
  intros HG Hget nb e Hin. apply DictFacts.get_in in Hget.
  unfold successors_are_nodes in HG. rewrite forallb_forall in HG.
  specialize (HG _ Hget). cbn in HG. rewrite forallb_forall in HG.
  exact (HG _ Hin).
Qed.

Lemma node_described (G : DiGraph) (n : string) (node : NodeEntry) :
  nodes_described G = true -> OD.get n G = Some node ->
  exists data, node_attrs node = Some data.
Proof.
  intros HG Hget. apply DictFacts.get_in in Hget.
  unfold nodes_described in HG. rewrite forallb_forall in HG.
  specialize (HG _ Hget). cbn in HG.
  destruct (node_attrs node); [eauto|discriminate].
Qed.

Lemma consider_readable (dep maxs cur n : Z) (e : EdgeData)
    (best : option (Z * Z)) :
  readable e = true ->
  exists best', for_each (consider_edge dep maxs cur n) (edges_of e) best = Ok best'.
Proof.
  unfold readable, edges_of.
  destruct (departure_time e) as [d|] eqn:Hd.
  - cbn. rewrite Hd. destruct (is_transfer_edge e).
    + destruct (duration e); [|discriminate]. intros _. cbn.
      destruct (_ <=? _); cbn; eauto.
    + destruct (arrival_time e); [|discriminate]. intros _. cbn.
      destruct (_ <? _); destruct (_ <=? _); try destruct (_ <=? _); cbn; eauto.
  - intros ->%Nat.eqb_eq. cbn. eauto.
Qed.

Lemma relax_known (G : DiGraph) (dep maxs cur n : Z)
    (ea : list (string * (Z * Z))) (q : list Entry) (nb : string)
    (e : EdgeData) :
  readable e = true -> has_node G nb = true -> stops_known G ea q ->
  exists ea' q',
    relax_neighbor dep maxs cur n (ea, q) (nb, e) = Ok (ea', q') /\
    stops_known G ea' q'.
Proof.
  intros Hread Hnb [Hq Hea]. unfold relax_neighbor.
  destruct (consider_readable dep maxs cur n e None Hread) as [best ->].
  cbn [bind]. destruct best as [[a t]|]; [|exists ea, q; now split].
  destruct (match OD.get nb ea with
            | Some (known, _) => a <? known
            | None => true
            end); [|exists ea, q; now split].
  eexists _, _. split; [reflexivity|]. split.
  - intros x [<-|Hx]; [exact Hnb|now apply Hq].
  - intros k v Hin. apply DictFacts.in_set in Hin as [[-> _]|Hin];
      [exact Hnb|now apply (Hea k v)].
Qed.

Lemma relax_all_known (G : DiGraph) (dep maxs cur n : Z)
    (nbrs : list (string * EdgeData)) :
  (forall nb e, In (nb, e) nbrs -> readable e = true /\ has_node G nb = true) ->
  forall ea q, stops_known G ea q ->
  exists ea' q',
    for_each (relax_neighbor dep maxs cur n) nbrs (ea, q) = Ok (ea', q') /\
    stops_known G ea' q'.
Proof.
  induction nbrs as [|[nb e] nbrs IH]; intros H ea q Hk.
  - exists ea, q. now split.
  - destruct (H nb e (or_introl eq_refl)) as [Hread Hnb].
    destruct (relax_known G dep maxs cur n ea q nb e Hread Hnb Hk)
      as (ea1 & q1 & Hstep & Hk1).
    cbn [for_each]. rewrite Hstep. cbn [bind].
    apply IH; [|assumption]. intros nb' e' Hin. apply H. now right.
Qed.

Lemma step_known (G : DiGraph) (dep maxs : Z) (st : State) :
  well_formed G = true ->
  stops_known G (earliest_arrival st) (pq st) ->
  exists st',
    search_step G dep maxs st = Ok st' /\
    stops_known G (earliest_arrival st') (pq st').
Proof.
  intros [[Hsucc _]%andb_true_iff Hread]%andb_true_iff Hk.
  unfold search_step.
  destruct (heappop (pq st)) as [[[[cur stop] n] rest]|] eqn:Hpop;
    [|exists st; now split].
  destruct (HeapFacts.heappop_spec _ _ _ Hpop) as (Hin & _ & Hperm).
  assert (Hrest : stops_known G (earliest_arrival st) rest).
  { destruct Hk as [Hq Hea]. split; [|assumption].
    intros x Hx. apply Hq. eapply Permutation_in; [symmetry; exact Hperm|].
    now right. }
  destruct (decide (stop ∈ explored st)); [eexists; split; [reflexivity|exact Hrest]|].
  destruct (maxs <? cur - dep); [eexists; split; [reflexivity|exact Hrest]|].
  destruct (node_of G stop) as [node Hnode].
  { destruct Hk as [Hq _]. exact (Hq _ Hin). }
  unfold neighbors. rewrite Hnode. cbn [bind].
  destruct (relax_all_known G dep maxs cur n (node_succ node)) with
    (ea := earliest_arrival st) (q := rest) as (ea' & q' & Hrun & Hk');
    [|exact Hrest|].
  { intros nb e Hnb. split.
    - exact (edge_of_node readable G stop node Hread Hnode nb e Hnb).
    - exact (successors_known G stop node Hsucc Hnode nb e Hnb). }
  rewrite Hrun. cbn [bind]. eexists. split; [reflexivity|exact Hk'].
Qed.

Lemma loop_known (G : DiGraph) (dep maxs : Z) (fuel : nat) (st : State) :
  well_formed G = true ->
  stops_known G (earliest_arrival st) (pq st) ->
  exists st',
    search_loop fuel G dep maxs st = Ok st' /\
    stops_known G (earliest_arrival st') (pq st').
Proof.
  intros Hwf. revert st. induction fuel as [|fuel IH]; intros st Hk.
  - exists st. now split.
  - cbn [search_loop]. destruct (pq st) eqn:Hq; [exists st; split; [reflexivity|now rewrite Hq]|].
    rewrite <- Hq in Hk.
    destruct (step_known G dep maxs st Hwf Hk) as (st1 & Hstep & Hk1).
    rewrite Hstep. cbn [bind]. now apply IH.
Qed.

Lemma rows_described (half_up : Z -> bool) (G : DiGraph) (origin : string)
    (dep : Z) (items : list (string * (Z * Z))) (acc : list ReachableStop) :
  nodes_described G = true ->
  (forall k v, In (k, v) items -> has_node G k = true) ->
  exists rows, for_each (result_row half_up G origin dep) items acc = Ok rows.
Proof.
  intros Hdesc. revert acc.
  induction items as [|[k [a t]] items IH]; intros acc Hk; [cbn; eauto|].
  cbn [for_each]. unfold result_row at 1.
  destruct (String.eqb k origin).
  - cbn [bind]. apply IH. intros k' v' Hin. apply (Hk k' v'). now right.
  - destruct (node_of G k (Hk k (a, t) (or_introl eq_refl))) as [node Hnode].
    rewrite Hnode. cbn [bind].
    destruct (node_described G k node Hdesc Hnode) as [data ->]. cbn [bind getitem].
    apply IH. intros k' v' Hin. apply (Hk k' v'). now right.
Qed.

(** *** The loop ends *)

Lemma pending_cons (G : DiGraph) (k : string) (node : NodeEntry)
    (done : gset string) :
  pending ((k, node) :: G) done
  = ((if decide (k ∈ done) then 0 else length (node_succ node)) + pending G done)%nat.
Proof. reflexivity. Qed.

Lemma pending_grows (G : DiGraph) (k : string) (done : gset string) :
  (pending G ({[k]} ∪ done) <= pending G done)%nat.
Proof.
  induction G as [|[k' node] G IH]; [reflexivity|].
  rewrite !pending_cons.
  destruct (decide (k' ∈ {[k]} ∪ done)), (decide (k' ∈ done)); try lia.
  set_solver.
Qed.

Lemma pending_explore (G : DiGraph) (k : string) (node : NodeEntry)
    (done : gset string) :
  OD.get k G = Some node -> k ∉ done ->
  (pending G ({[k]} ∪ done) + length (node_succ node) <= pending G done)%nat.
Proof.
  induction G as [|[k' node'] G IH]; [discriminate|].
  rewrite !pending_cons. cbn [OD.get].
  destruct (String.eqb_spec k k') as [->|Hne].
  - intros [= ->] Hnotin.
    destruct (decide (k' ∈ {[k']} ∪ done)) as [_|Hn]; [|set_solver].
    destruct (decide (k' ∈ done)); [contradiction|].
    pose proof (pending_grows G k' done) as Hle. lia.
  - intros Hget Hnotin. specialize (IH Hget Hnotin).
    destruct (decide (k' ∈ {[k]} ∪ done)), (decide (k' ∈ done)); try lia.
    set_solver.
Qed.

Lemma relax_pushes_one (dep maxs cur n : Z) (ea ea' : list (string * (Z * Z)))
    (q q' : list Entry) (nb : string * EdgeData) :
  relax_neighbor dep maxs cur n (ea, q) nb = Ok (ea', q') ->
  (length q' <= S (length q))%nat.
Proof.
  unfold relax_neighbor. destruct nb as [nb e].
  destruct (for_each _ _ _) as [[[a t]|]|]; cbn [bind]; try discriminate.
  - destruct (match OD.get nb ea with Some (known, _) => a <? known | None => true end).
    + intros [= <- <-]. cbn. lia.
    + intros [= <- <-]. lia.
  - intros [= <- <-]. lia.
Qed.

Lemma relax_pushes (dep maxs cur n : Z) (nbrs : list (string * EdgeData)) :
  forall ea q ea' q',
  for_each (relax_neighbor dep maxs cur n) nbrs (ea, q) = Ok (ea', q') ->
  (length q' <= length q + length nbrs)%nat.
Proof.
  induction nbrs as [|nb nbrs IH]; intros ea q ea' q'.
  - intros [= <- <-]. cbn. lia.
  - cbn [for_each].
    destruct (relax_neighbor dep maxs cur n (ea, q) nb) as [[ea1 q1]|] eqn:H1;
      [|discriminate].
    cbn [bind]. intros H. apply IH in H.
    apply relax_pushes_one in H1. cbn. lia.
Qed.

Lemma step_fewer_left (G : DiGraph) (dep maxs : Z) (st st' : State) :
  pq st <> [] -> search_step G dep maxs st = Ok st' ->
  (passes_left G st' < passes_left G st)%nat.
Proof.
  intros Hne. unfold search_step, passes_left.
  destruct (HeapFacts.heappop_nonempty (pq st) Hne) as ([[cur stop] n] & rest & Hpop).
  rewrite Hpop.
  destruct (HeapFacts.heappop_spec _ _ _ Hpop) as (_ & _ & Hperm).
  apply Permutation_length in Hperm. cbn in Hperm.
  destruct (decide (stop ∈ explored st)) as [|Hnew].
  { intros [= <-]. cbn. lia. }
  destruct (maxs <? cur - dep).
  { intros [= <-]. cbn. pose proof (pending_grows G stop (explored st)). lia. }
  unfold neighbors. destruct (OD.get stop G) as [node|] eqn:Hnode; [|discriminate].
  cbn [bind].
  destruct (for_each _ (node_succ node) _) as [[ea' q']|] eqn:Hrun; [|discriminate].
  cbn [bind]. intros [= <-]. cbn.
  apply relax_pushes in Hrun.
  pose proof (pending_explore G stop node (explored st) Hnode Hnew). lia.
Qed.

(** With a pass for each entry that can still be pushed, the loop stops on
    an empty queue. *)
Lemma loop_runs_dry (G : DiGraph) (dep maxs : Z) (fuel : nat) (st st' : State) :
  (passes_left G st <= fuel)%nat ->
  search_loop fuel G dep maxs st = Ok st' -> pq st' = [].
Proof.
  revert st. induction fuel as [|fuel IH]; intros st Hle.
  - intros [= <-]. unfold passes_left in Hle.
    destruct (pq st); [reflexivity|cbn in Hle; lia].
  - cbn [search_loop]. destruct (pq st) eqn:Hq; [now intros [= <-]|].
    destruct (search_step G dep maxs st) as [st1|] eqn:Hstep; [|discriminate].
    cbn [bind]. apply IH.
    assert (pq st <> []) as Hne by (rewrite Hq; discriminate).
    pose proof (step_fewer_left G dep maxs st st1 Hne Hstep). lia.
Qed.

Lemma pending_all (G : DiGraph) : pending G ∅ = length (Nx.edges G).
Proof.
  induction G as [|[k node] G IH]; [reflexivity|].
  rewrite pending_cons, IH. unfold Nx.edges. cbn [flat_map].
  rewrite length_app, length_map.
  destruct (decide (k ∈ (∅ : gset string))); [set_solver|reflexivity].
Qed.

End Runs.

(** ** When the search raises *)

(** C3, as the code has it: with a budget of 0 minutes, and with one of -5
    minutes, the search returns (the empty list) and raises nothing. *)
Lemma non_positive_budget_accepted :
  Reachability.calculate_reachability Py.float_half_up Scenario.graphs
    "A" "09:00" 0 "weekday" = Ok [] /\
  Reachability.calculate_reachability Py.float_half_up Scenario.graphs
    "A" "09:00" (-5) "weekday" = Ok [].
Proof. split; vm_compute; reflexivity. Qed.

(** C3, amended. [calculate_reachability] raises ValueError when the day
    type has no graph ("Invalid day_type"), and when the origin is not a node
    of the graph of the day type ("Stop not found").  Otherwise, for a departure time that parses and a
    well-formed graph (every successor is a node, every node has its stop
    attributes, every edge has the keys of a trip segment), it returns
    normally for every budget, positive or not: the loop runs until the
    queue is empty and the answer is built. *)
Theorem reachability_errors (half_up : Z -> bool) (graphs : gmap string DiGraph)
    (origin departure day_type : string) (budget : Z) :
  (graphs !! day_type = None ->
   Reachability.calculate_reachability half_up graphs origin departure budget
     day_type = Raise (ValueError ("Invalid day_type: " ++ day_type)%string)) /\
  (forall G,
     graphs !! day_type = Some G -> has_node G origin = false ->
     Reachability.calculate_reachability half_up graphs origin departure budget
       day_type = Raise (ValueError ("Stop not found: " ++ origin)%string)) /\
  (forall G t,
     graphs !! day_type = Some G -> has_node G origin = true ->
     well_formed G = true ->
     Reachability.time_to_seconds departure = Ok t ->
     exists final rows,
       Reachability.search_loop (Reachability.search_fuel G) G t (budget * 60)
         {| Reachability.earliest_arrival := [(origin, (t, 0))];
            Reachability.pq := [(t, origin, 0)];
            Reachability.explored := ∅ |} = Ok final /\
       Reachability.pq final = [] /\
       Reachability.calculate_reachability half_up graphs origin departure
         budget day_type = Ok rows).
Proof.
  unfold Reachability.calculate_reachability.
  split; [intros ->; reflexivity|].
  split; [intros G -> ->; reflexivity|].
  intros G t HG Hnode Hwf Htime. rewrite HG, Hnode, Htime. cbn [negb bind].
  set (init := {| Reachability.earliest_arrival := [(origin, (t, 0))];
                  Reachability.pq := [(t, origin, 0)];
                  Reachability.explored := ∅ |}).
  assert (Hinit : stops_known G (Reachability.earliest_arrival init)
                    (Reachability.pq init)).
  { split.
    - intros x [<-|[]]. exact Hnode.
    - intros k v [[= <- _]|[]]. exact Hnode. }
  destruct (Runs.loop_known G t (budget * 60) (Reachability.search_fuel G)
              init Hwf Hinit) as (final & Hrun & [_ Hea]).
  pose proof Hwf as [[_ Hdesc]%andb_true_iff _]%andb_true_iff.
  destruct (Runs.rows_described half_up G origin t
              (Reachability.earliest_arrival final) [] Hdesc Hea) as [rows Hrows].
  exists final, (stable_sort (Reachability.by_travel_time) rows).
  split; [exact Hrun|]. split.
  - apply (Runs.loop_runs_dry G t (budget * 60) (Reachability.search_fuel G)
             init final); [|exact Hrun].
    unfold passes_left, Reachability.search_fuel. cbn.
    now rewrite Runs.pending_all.
  - rewrite Hrun. cbn [bind]. rewrite Hrows. reflexivity.
Qed.

Lemma reachability_errors_witness :
  exists final rows,
    Reachability.search_loop (Reachability.search_fuel Scenario.graph)
      Scenario.graph 32400 (-5 * 60)
      {| Reachability.earliest_arrival := [("A", (32400, 0))];
         Reachability.pq := [(32400, "A", 0)];
         Reachability.explored := ∅ |} = Ok final /\
    Reachability.pq final = [] /\
    Reachability.calculate_reachability Py.float_half_up Scenario.graphs
      "A" "09:00" (-5) "weekday" = Ok rows.
Proof.
  apply (proj2 (proj2 (reachability_errors Py.float_half_up Scenario.graphs
                         "A" "09:00" "weekday" (-5))));
    vm_compute; reflexivity.
Defined.

(** ** An edge that holds only a transfer *)

(** The attribute dictionary of a transfer between two stops that no trip
    joins has no [departure_time] key: the search takes the branch written
    for several edges, iterates over the values of the dictionary, and
    raises AttributeError at the first. *)
Lemma transfer_only_edge_raises (half_up : Z -> bool) :
  exists G,
    build_graph_for_day_type Scenario.transfer_feed ["S"] = Ok G /\
    Nx.get_edge_data G "A" "B" = Some (transfer_attrs 120) /\
    Reachability.calculate_reachability half_up {["weekday" := G]}
      "A" "09:00" 30 "weekday" = Raise AttributeError.
Proof.
  eexists. split; [vm_compute; reflexivity|].
  split; vm_compute; reflexivity.
Qed.

(** ** The search with no budget *)

Module ZeroBudget.
Import Reachability.



End ZeroBudget.




(** ** The answer does not depend on the arrangement of the heap *)

Module Determinism.
Import Reachability.

Lemma relax_same (dep maxs cur n : Z) (nb : string * EdgeData)
    (a b : list (string * (Z * Z)) * list Entry) :
  same_acc a b ->
  rel_result same_acc (relax_neighbor dep maxs cur n a nb)
    (relax_neighbor dep maxs cur n b nb).
Proof.
  destruct a as [ea q], b as [ea' q']. intros [Hea Hq]. cbn in Hea, Hq.
  subst ea'. unfold relax_neighbor. destruct nb as [nb e].
  destruct (for_each _ (edges_of e) None) as [[[a t]|]|err]; cbn [bind].
  - destruct (match OD.get nb ea with Some (known, _) => a <? known | None => true end);
      cbn; split; cbn; auto.
    unfold heappush. now constructor.
  - cbn. now split.
  - reflexivity.
Qed.

Lemma step_same (G : DiGraph) (dep maxs : Z) (st1 st2 : State) :
  same_state st1 st2 ->
  rel_result same_state (search_step G dep maxs st1) (search_step G dep maxs st2).
Proof.
  intros (Hea & Hq & Hex). unfold search_step.
  destruct (heappop (pq st1)) as [[[[cur stop] n] rest]|] eqn:Hpop.
  - destruct (HeapFacts.heappop_perm _ _ _ _ Hq Hpop) as (rest' & -> & Hrest).
    rewrite <- Hex, <- Hea.
    destruct (decide (stop ∈ explored st1)); [cbn; now repeat split|].
    destruct (maxs <? cur - dep); [cbn; now repeat split|].
    destruct (neighbors G stop) as [nbrs|err]; cbn [bind]; [|reflexivity].
    pose proof (LoopFacts.for_each_rel same_acc
                  (relax_neighbor dep maxs cur n) (relax_neighbor dep maxs cur n)
                  nbrs (fun x s1 s2 _ H => relax_same dep maxs cur n x s1 s2 H)
                  (earliest_arrival st1, rest) (earliest_arrival st1, rest')
                  (conj eq_refl Hrest)) as Hrun.
    destruct (for_each _ nbrs (earliest_arrival st1, rest)) as [[ea1 q1]|e1],
      (for_each _ nbrs (earliest_arrival st1, rest')) as [[ea2 q2]|e2];
      cbn in Hrun |- *; try contradiction; [|exact Hrun].
    destruct Hrun as [Hea' Hq']. cbn in Hea', Hq'. now repeat split.
  - destruct (pq st1) eqn:E1; [|discriminate].
    apply Permutation_nil in Hq. rewrite Hq. cbn.
    repeat split; [assumption| |assumption]. now rewrite E1, Hq.
Qed.

Lemma same_state_done (st1 st2 : State) :
  same_state st1 st2 -> pq st1 = [] -> pq st2 = [] -> st1 = st2.
Proof.
  destruct st1, st2. intros (Hea & _ & Hex). cbn in *. intros -> ->.
  now subst.
Qed.

(** Any two runs from states with the same entries end alike. *)
Lemma searches_agree (G : DiGraph) (dep maxs : Z) (st1 : State)
    (r1 : result State) :
  searches G dep maxs st1 r1 ->
  forall st2 r2, same_state st1 st2 -> searches G dep maxs st2 r2 -> r1 = r2.
Proof.
  induction 1 as [st1 Hdone|st1 q1 e1 Hp1 Hne1 Hstep1
                  |st1 st1' q1 r1 Hp1 Hne1 Hstep1 _ IH];
    intros st2 r2 Hsame Hrun2.
  - destruct Hsame as (Hea & Hq & Hex).
    rewrite Hdone in Hq. apply Permutation_nil in Hq.
    inversion Hrun2 as [st Hd|st q e Hp Hne _|st st' q r Hp Hne _ _]; subst.
    + f_equal. apply same_state_done; [now repeat split; try rewrite Hdone, Hq|assumption..].
    + rewrite Hq in Hp. apply Permutation_nil in Hp. contradiction.
    + rewrite Hq in Hp. apply Permutation_nil in Hp. contradiction.
  - assert (Hnot : pq st2 <> []).
    { intros E. destruct Hsame as (_ & Hq & _). rewrite E in Hq.
      apply Permutation_sym, Permutation_nil in Hq. rewrite Hq in Hp1.
      apply Permutation_nil in Hp1. contradiction. }
    inversion Hrun2 as [st Hd|st q e Hp Hne Hstep2|st st' q r Hp Hne Hstep2 _];
      subst; [contradiction| |].
    + pose proof (step_same G dep maxs (with_pq st1 q1) (with_pq st2 q)) as H.
      rewrite Hstep1, Hstep2 in H. cbn in H. f_equal. apply H.
      destruct Hsame as (Hea & Hq & Hex). repeat split; cbn; auto.
      now rewrite <- Hp1, Hq.
    + pose proof (step_same G dep maxs (with_pq st1 q1) (with_pq st2 q)) as H.
      rewrite Hstep1, Hstep2 in H. cbn in H. exfalso. apply H.
      destruct Hsame as (Hea & Hq & Hex). repeat split; cbn; auto.
      now rewrite <- Hp1, Hq.
  - assert (Hnot : pq st2 <> []).
    { intros E. destruct Hsame as (_ & Hq & _). rewrite E in Hq.
      apply Permutation_sym, Permutation_nil in Hq. rewrite Hq in Hp1.
      apply Permutation_nil in Hp1. contradiction. }
    inversion Hrun2 as [st Hd|st q e Hp Hne Hstep2|st st' q r Hp Hne Hstep2 Hrest];
      subst; [contradiction| |].
    + pose proof (step_same G dep maxs (with_pq st1 q1) (with_pq st2 q)) as H.
      rewrite Hstep1, Hstep2 in H. cbn in H. exfalso. apply H.
      destruct Hsame as (Hea & Hq & Hex). repeat split; cbn; auto.
      now rewrite <- Hp1, Hq.
    + pose proof (step_same G dep maxs (with_pq st1 q1) (with_pq st2 q)) as H.
      rewrite Hstep1, Hstep2 in H. cbn in H.
      apply (IH st' r2); [|exact Hrest]. apply H.
      destruct Hsame as (Hea & Hq & Hex). repeat split; cbn; auto.
      now rewrite <- Hp1, Hq.
Qed.

Lemma with_own_pq (st : State) : with_pq st (pq st) = st.
Proof. now destruct st. Qed.

(** The loop of the embedding is one of the runs. *)
Lemma loop_searches (G : DiGraph) (dep maxs : Z) (fuel : nat) (st : State) :
  (passes_left G st <= fuel)%nat ->
  searches G dep maxs st (search_loop fuel G dep maxs st).
Proof.
  revert st. induction fuel as [|fuel IH]; intros st Hle.
  - cbn. apply searches_done. unfold passes_left in Hle.
    destruct (pq st); [reflexivity|cbn in Hle; lia].
  - cbn [search_loop]. destruct (pq st) as [|x q] eqn:Hq.
    + now apply searches_done.
    + assert (Hne : pq st <> []) by (rewrite Hq; discriminate).
      destruct (search_step G dep maxs st) as [st'|e] eqn:Hstep; cbn [bind].
      * apply (searches_pass G dep maxs st st' (pq st)); auto.
        -- now rewrite with_own_pq.
        -- apply IH.
           pose proof (Runs.step_fewer_left G dep maxs st st' Hne Hstep). lia.
      * apply (searches_raise G dep maxs st (pq st)); auto.
        now rewrite with_own_pq.
Qed.

(** [calculate_reachability] is one of the runs [reaches] describes. *)
Lemma calculate_reaches (half_up : Z -> bool) (graphs : gmap string DiGraph)
    (origin departure : string) (budget : Z) (day_type : string) :
  reaches half_up graphs origin departure budget day_type
    (calculate_reachability half_up graphs origin departure budget day_type).
Proof.
  unfold reaches, calculate_reachability.
  destruct (graphs !! day_type) as [G|]; [|reflexivity].
  destruct (negb (has_node G origin)); [reflexivity|].
  destruct (time_to_seconds departure) as [t|e]; [|reflexivity]. cbn [bind].
  eexists. split; [|reflexivity].
  apply loop_searches. unfold passes_left, search_fuel. cbn.
  now rewrite Runs.pending_all.
Qed.

End Determinism.

(** C9. The output of [calculate_reachability] is fixed by its inputs.
    The function is one run of the search, and every run, whatever
    arrangement the heap gives its entries at each pass, returns the same
    list, element for element and in the same order, or raises the same
    exception; so any two runs on the same inputs agree. *)
Theorem reachability_deterministic (half_up : Z -> bool)
    (graphs : gmap string DiGraph) (origin departure : string) (budget : Z)
    (day_type : string) :
  reaches half_up graphs origin departure budget day_type
    (Reachability.calculate_reachability half_up graphs origin departure
       budget day_type) /\
  (forall r1 r2,
     reaches half_up graphs origin departure budget day_type r1 ->
     reaches half_up graphs origin departure budget day_type r2 ->
     r1 = r2).
Proof.
  split; [apply Determinism.calculate_reaches|].
  intros r1 r2. unfold reaches.
  destruct (graphs !! day_type) as [G|]; [|congruence].
  destruct (negb (has_node G origin)); [congruence|].
  destruct (Reachability.time_to_seconds departure) as [t|e]; [|congruence].
  intros (out1 & Hrun1 & ->) (out2 & Hrun2 & ->).
  rewrite (Determinism.searches_agree G t (budget * 60) _ out1 Hrun1 _ out2
             (conj eq_refl (conj (Permutation_refl _) eq_refl)) Hrun2).
  reflexivity.
Qed.

Lemma reachability_deterministic_witness :
  Reachability.calculate_reachability Py.float_half_up Scenario.graphs
    "A" "09:00" 30 "weekday"
  = Ok [Scenario.reached "B" "Beta" 100 0; Scenario.reached "C" "Gamma" 300 1].
Proof.
  apply (proj2 (reachability_deterministic Py.float_half_up Scenario.graphs
                  "A" "09:00" 30 "weekday")).
  - apply Determinism.calculate_reaches.
  - unfold reaches. cbn.
    exists (Ok {| Reachability.earliest_arrival :=
                    [("A", (32400, 0)); ("B", (33000, 0)); ("C", (34200, 1))];
                  Reachability.pq := [];
                  Reachability.explored := {["A"; "B"; "C"]} |}).
    split; [|vm_compute; reflexivity].
    eapply searches_pass;
      [apply Permutation_refl|discriminate|vm_compute; reflexivity|].
    eapply searches_pass;
      [apply Permutation_refl|discriminate|vm_compute; reflexivity|].
    eapply searches_pass;
      [apply Permutation_refl|discriminate|vm_compute; reflexivity|].
    replace (Ok _) with (Ok (A := Reachability.State)
       {| Reachability.earliest_arrival :=
            [("A", (32400, 0)); ("B", (33000, 0)); ("C", (34200, 1))];
          Reachability.pq := [];
          Reachability.explored := {["C"]} ∪ ({["B"]} ∪ ({["A"]} ∪ ∅)) |})
      by (f_equal; f_equal; vm_compute; reflexivity).
    apply searches_done. reflexivity.
Defined.

(** ** A larger budget keeps what a smaller one found *)

Module Monotone.
Import Reachability.

(** *** While both searches run *)










(** *** Once the search with the smaller budget has ended *)



Lemma in_edges_of (e : EdgeData) (x : EdgeItem) :
  In x (edges_of e) -> x = EdgeDict e \/ x = AttrValue.
Proof.
  unfold edges_of. destruct (departure_time e).
  - intros [<-|[]]. now left.
  - intros H. right. now apply repeat_spec in H.
Qed.





(** *** Both loops, pass for pass *)


(** *** The records have one entry per stop *)

Lemma relax_keys (dep maxs cur n : Z) (nb : string * EdgeData)
    (a a' : list (string * (Z * Z)) * list Entry) :
  NoDup (OD.keys a.1) -> relax_neighbor dep maxs cur n a nb = Ok a' ->
  NoDup (OD.keys a'.1).
Proof.
  destruct a as [ea q], nb as [nb e]. unfold relax_neighbor. intros Hnd.
  destruct (for_each _ (edges_of e) None) as [[[b t]|]|]; cbn [bind];
    [|now intros [= <-]|discriminate].
  destruct (match OD.get nb ea with Some (known, _) => b <? known | None => true end);
    intros [= <-]; [|assumption].
  now apply DictFacts.keys_set.
Qed.

Lemma step_keys (G : DiGraph) (dep maxs : Z) (st st' : State) :
  NoDup (OD.keys (earliest_arrival st)) -> search_step G dep maxs st = Ok st' ->
  NoDup (OD.keys (earliest_arrival st')).
Proof.
  intros Hnd. unfold search_step.
  destruct (heappop (pq st)) as [[[[cur stop] n] rest]|]; [|now intros [= <-]].
  destruct (decide (stop ∈ explored st)); [now intros [= <-]|].
  destruct (maxs <? cur - dep); [now intros [= <-]|].
  destruct (neighbors G stop) as [nbrs|]; [|discriminate]. cbn [bind].
  destruct (for_each _ nbrs _) as [acc|] eqn:Hrun; [|discriminate].
  cbn [bind]. intros [= <-]. cbn. revert Hrun.
  apply (LoopFacts.for_each_inv (fun a => NoDup (OD.keys a.1))); [|exact Hnd].
  intros x s s' _ Hs. now apply relax_keys.
Qed.

Lemma loop_keys (G : DiGraph) (dep maxs : Z) (fuel : nat) (st st' : State) :
  NoDup (OD.keys (earliest_arrival st)) ->
  search_loop fuel G dep maxs st = Ok st' ->
  NoDup (OD.keys (earliest_arrival st')).
Proof.
  revert st. induction fuel as [|fuel IH]; intros st Hnd; cbn [search_loop];
    [now intros [= <-]|].
  destruct (pq st); [now intros [= <-]|].
  destruct (search_step G dep maxs st) as [s|] eqn:Hstep; [|discriminate].
  cbn [bind]. apply IH. exact (step_keys G dep maxs st s Hnd Hstep).
Qed.

(** *** From the records to the answer *)

Lemma rows_in (half_up : Z -> bool) (G : DiGraph) (origin : string) (dep : Z)
    (items : list (string * (Z * Z))) :
  forall acc rows,
  for_each (result_row half_up G origin dep) items acc = Ok rows ->
  forall x,
    In x rows <->
    In x acc \/
    exists k a t node data,
      In (k, (a, t)) items /\ String.eqb k origin = false /\
      OD.get k G = Some node /\ node_attrs node = Some data /\
      x = make_row half_up dep k data a t.
Proof.
  induction items as [|[k [a t]] items IH]; intros acc rows; cbn [for_each].
  - intros [= <-] x. split; [now left|].
    intros [H|(k & a & t & node & data & [] & _)]. exact H.
  - unfold result_row at 1.
    destruct (String.eqb k origin) eqn:Hk.
    + cbn [bind]. intros Hrun x. rewrite (IH acc rows Hrun x).
      split; (intros [H|(k' & a' & t' & node & data & Hin & Hrest)]; [now left|right]).
      * exists k', a', t', node, data. split; [now right|exact Hrest].
      * destruct Hin as [[= -> -> ->]|Hin].
        -- destruct Hrest as [Hk' _]. congruence.
        -- exists k', a', t', node, data. now split.
    + destruct (OD.get k G) as [node|] eqn:Hnode; [|discriminate]. cbn [bind].
      destruct (node_attrs node) as [data|] eqn:Hdata; [|discriminate].
      cbn [bind getitem]. intros Hrun x. rewrite (IH _ rows Hrun x).
      split.
      * intros [[H|[<-|[]]]%in_app_or|(k' & a' & t' & node' & data' & Hin & Hrest)].
        -- now left.
        -- right. exists k, a, t, node, data. repeat split; auto. now left.
        -- right. exists k', a', t', node', data'. split; [now right|exact Hrest].
      * intros [H|(k' & a' & t' & node' & data' & Hin & Hk' & Hn' & Hd' & ->)].
        -- left. apply in_or_app. now left.
        -- destruct Hin as [[= -> -> ->]|Hin].
           ++ left. apply in_or_app. right. left.
              rewrite Hnode in Hn'. injection Hn' as <-.
              rewrite Hdata in Hd'. injection Hd' as <-. reflexivity.
           ++ right. exists k', a', t', node', data'. now repeat split.
Qed.

(** *** A budget below zero *)

Lemma negative_budget (G : DiGraph) (origin : string) (t maxs : Z) (fuel : nat) :
  maxs < 0 ->
  search_loop (S fuel) G t maxs
    {| earliest_arrival := [(origin, (t, 0))]; pq := [(t, origin, 0)];
       explored := ∅ |}
  = Ok {| earliest_arrival := [(origin, (t, 0))]; pq := [];
          explored := {[origin]} ∪ ∅ |}.
Proof.
  intros Hneg. cbn [search_loop pq]. unfold search_step. cbn [pq explored].
  rewrite HeapFacts.heappop_single.
  destruct (decide (origin ∈ (∅ : gset string))); [set_solver|].
  destruct (Z.ltb_spec maxs (t - t)); [|lia]. cbn [bind earliest_arrival].
  now rewrite Runs.search_loop_done.
Qed.

End Monotone.




(** * Further properties of the search *)

(** ** Invariants of the loop *)

Module Keeps.
Import Reachability.

Lemma improve_kept (dep maxs cur n a t : Z) (e : EdgeData)
    (best : option (Z * Z)) :
  kept dep maxs cur n e best -> kept dep maxs cur n e (Some (a, t)) ->
  kept dep maxs cur n e (improve best a t).
Proof.
  unfold improve. destruct best as [[b m]|]; [|auto].
  destruct (a <? b); auto.
Qed.

Lemma consider_kept (dep maxs cur n : Z) (e : EdgeData)
    (best best' : option (Z * Z)) :
  kept dep maxs cur n e best ->
  consider_edge dep maxs cur n best (EdgeDict e) = Ok best' ->
  kept dep maxs cur n e best'.
Proof.
  intros Hbest. unfold consider_edge, nonneg_edge.
  destruct (is_transfer_edge e) eqn:Htr.
  - destruct (duration e) as [d|] eqn:Hd; [|discriminate]. cbn [getitem bind].
    destruct (Z.leb_spec (cur + d - dep) maxs); intros [= <-]; [|assumption].
    apply improve_kept; [assumption|]. cbn. unfold nonneg_edge.
    rewrite Htr, Hd. split; [assumption|]. split; [lia|].
    intros Hnn%Z.leb_le. lia.
  - destruct (departure_time e) as [d|] eqn:Hd; [|discriminate].
    destruct (arrival_time e) as [ar|] eqn:Ha; [|discriminate].
    cbn [getitem bind].
    destruct (d <? cur - 24 * 3600).
    + destruct (Z.leb_spec cur (d + 24 * 3600)); [|now intros [= <-]].
      destruct (Z.leb_spec (ar + 24 * 3600 - dep) maxs); intros [= <-];
        [|assumption].
      apply improve_kept; [assumption|]. cbn. unfold nonneg_edge.
      rewrite Htr, Hd, Ha. split; [assumption|].
      split; [destruct (120 <? _); lia|]. intros Hnn%Z.leb_le. lia.
    + destruct (Z.leb_spec cur d); [|now intros [= <-]].
      destruct (Z.leb_spec (ar - dep) maxs); intros [= <-]; [|assumption].
      apply improve_kept; [assumption|]. cbn. unfold nonneg_edge.
      rewrite Htr, Hd, Ha. split; [assumption|].
      split; [destruct (120 <? _); lia|]. intros Hnn%Z.leb_le. lia.
Qed.

Lemma best_kept (dep maxs cur n : Z) (e : EdgeData) (best : option (Z * Z)) :
  for_each (consider_edge dep maxs cur n) (edges_of e) None = Ok best ->
  kept dep maxs cur n e best.
Proof.
  apply (LoopFacts.for_each_inv (kept dep maxs cur n e)); [|exact I].
  intros x s s' [->| ->]%Monotone.in_edges_of Hs; [|discriminate].
  now apply consider_kept.
Qed.

Section Invariant.
Variables (G : DiGraph) (dep maxs : Z).
Variables (E : Entry -> Prop) (R : string -> Z * Z -> Prop).

(** An entry popped with [E], expanded along an edge of the graph, gives a
    record with [R] and an entry with [E]. *)
Hypothesis expand :
  forall cur stop n node nb e a t,
    E (cur, stop, n) -> OD.get stop G = Some node -> In (nb, e) (node_succ node) ->
    kept dep maxs cur n e (Some (a, t)) ->
    E (a, nb, t) /\ R nb (a, t).

Lemma relax_keeps (cur n : Z) (stop : string) (node : NodeEntry) (nb : string)
    (e : EdgeData) (acc acc' : list (string * (Z * Z)) * list Entry) :
  E (cur, stop, n) -> OD.get stop G = Some node -> In (nb, e) (node_succ node) ->
  acc_keeps E R acc ->
  relax_neighbor dep maxs cur n acc (nb, e) = Ok acc' -> acc_keeps E R acc'.
Proof.
  intros Hcur Hnode Hnb [Hq Hea]. destruct acc as [ea q]. unfold relax_neighbor.
  destruct (for_each _ (edges_of e) None) as [best|] eqn:Hbest; [|discriminate].
  cbn [bind]. apply best_kept in Hbest.
  destruct best as [[a t]|]; [|now intros [= <-]].
  destruct (expand cur stop n node nb e a t Hcur Hnode Hnb Hbest) as [HE HR].
  destruct (match OD.get nb ea with Some (known, _) => a <? known | None => true end);
    intros [= <-]; [|now split].
  split; cbn.
  - intros x [<-|Hx]; [exact HE|now apply Hq].
  - intros k v [[-> ->]|Hin]%DictFacts.in_set; [exact HR|now apply Hea].
Qed.

Lemma step_keeps (st st' : State) :
  state_keeps E R st -> search_step G dep maxs st = Ok st' -> state_keeps E R st'.
Proof.
  intros [Hq Hea]. unfold search_step.
  destruct (heappop (pq st)) as [[[[cur stop] n] rest]|] eqn:Hpop;
    [|intros [= <-]; now split].
  destruct (HeapFacts.heappop_spec _ _ _ Hpop) as (Hin & _ & Hperm).
  assert (Hrest : forall x, In x rest -> E x).
  { intros x Hx. apply Hq. eapply Permutation_in; [symmetry; exact Hperm|].
    now right. }
  destruct (decide (stop ∈ explored st)); [intros [= <-]; now split|].
  destruct (maxs <? cur - dep); [intros [= <-]; now split|].
  unfold neighbors. destruct (OD.get stop G) as [node|] eqn:Hnode; [|discriminate].
  cbn [bind].
  destruct (for_each _ (node_succ node) _) as [acc|] eqn:Hrun; [|discriminate].
  cbn [bind]. intros [= <-]. revert Hrun.
  apply (LoopFacts.for_each_inv (acc_keeps E R)); [|now split].
  intros [nb e] s s' Hnb Hs.
  now apply (relax_keeps cur n stop node nb e s s' (Hq _ Hin) Hnode Hnb Hs).
Qed.

Lemma loop_keeps (fuel : nat) (st st' : State) :
  state_keeps E R st -> search_loop fuel G dep maxs st = Ok st' ->
  state_keeps E R st'.
Proof.
  revert st. induction fuel as [|fuel IH]; intros st Hk; cbn [search_loop];
    [now intros [= <-]|].
  destruct (pq st); [now intros [= <-]|].
  destruct (search_step G dep maxs st) as [s|] eqn:Hstep; [|discriminate].
  cbn [bind]. apply IH. exact (step_keeps st s Hk Hstep).
Qed.

End Invariant.

End Keeps.

(** ** The shape of an answer *)

Module Answers.
Import Reachability.

Lemma round_minutes_le (half_up : Z -> bool) (sec b : Z) :
  sec <= 60 * b -> round_minutes half_up sec <= 10 * b.
Proof.
  intros Hle. unfold round_minutes.
  pose proof (Z.div_mod (Z.abs sec) 6 ltac:(lia)) as Hdiv.
  pose proof (Z.mod_pos_bound (Z.abs sec) 6 ltac:(lia)) as Hmod.
  set (k := Z.abs sec / 6) in *. set (r := Z.abs sec mod 6) in *.
  destruct (Z.ltb_spec r 3), (Z.ltb_spec 3 r), (half_up (Z.abs sec));
    destruct (Z.sgn_spec sec) as [[? ->]|[[? ->]|[? ->]]]; lia.
Qed.

Lemma round_minutes_nonneg (half_up : Z -> bool) (sec : Z) :
  0 <= sec -> 0 <= round_minutes half_up sec.
Proof.
  intros Hle. unfold round_minutes.
  pose proof (Z.div_pos (Z.abs sec) 6 ltac:(lia) ltac:(lia)) as Hk.
  set (k := Z.abs sec / 6) in *. set (r := Z.abs sec mod 6) in *.
  destruct (r <? 3), (3 <? r), (half_up (Z.abs sec));
    destruct (Z.sgn_spec sec) as [[? ->]|[[? ->]|[? ->]]]; lia.
Qed.

(** The parts of a call that returns. *)
Lemma calculate_ok (half_up : Z -> bool) (graphs : gmap string DiGraph)
    (origin departure day_type : string) (budget : Z) (r : list ReachableStop) :
  calculate_reachability half_up graphs origin departure budget day_type = Ok r ->
  exists G t final rows,
    graphs !! day_type = Some G /\ has_node G origin = true /\
    time_to_seconds departure = Ok t /\
    search_loop (search_fuel G) G t (budget * 60)
      {| earliest_arrival := [(origin, (t, 0))]; pq := [(t, origin, 0)];
         explored := ∅ |} = Ok final /\
    for_each (result_row half_up G origin t) (earliest_arrival final) [] = Ok rows /\
    r = stable_sort (by_travel_time) rows.
Proof.
  unfold calculate_reachability.
  destruct (graphs !! day_type) as [G|]; [|discriminate].
  destruct (has_node G origin) eqn:Hnode; [|discriminate]. cbn [negb].
  destruct (time_to_seconds departure) as [t|]; [|discriminate]. cbn [bind].
  destruct (search_loop _ G t _ _) as [final|] eqn:Hloop; [|discriminate].
  cbn [bind].
  destruct (for_each _ (earliest_arrival final) []) as [rows|] eqn:Hrows;
    [|discriminate].
  cbn [bind]. intros [= <-]. now exists G, t, final, rows.
Qed.

Lemma insert_sorted_perm {A : Type} (leb : A -> A -> bool) (x : A) (l : list A) :
  Permutation (insert_sorted leb x l) (x :: l).
Proof.
  induction l as [|y l IH]; cbn; [reflexivity|].
  destruct (leb x y); [reflexivity|]. rewrite IH. apply perm_swap.
Qed.

Lemma stable_sort_perm {A : Type} (leb : A -> A -> bool) (l : list A) :
  Permutation (stable_sort leb l) l.
Proof.
  induction l as [|x l IH]; cbn; [reflexivity|].
  now rewrite insert_sorted_perm, IH.
Qed.

Section ByKey.
Context {A : Type} (key : A -> Z).

Lemma insert_sorted_sorted (x : A) (l : list A) :
  StronglySorted (fun a b => key a <= key b) l ->
  StronglySorted (fun a b => key a <= key b) (insert_sorted (by_key key) x l).
Proof.
  induction 1 as [|y l Hl IH Hy]; cbn.
  - repeat constructor.
  - unfold by_key at 1. destruct (Z.leb_spec (key x) (key y)).
    + constructor; [now constructor|].
      constructor; [assumption|].
      rewrite List.Forall_forall in Hy |- *. intros z Hz. specialize (Hy z Hz). lia.
    + constructor; [assumption|].
      rewrite List.Forall_forall in Hy |- *. intros z Hz.
      apply (Permutation_in _ (insert_sorted_perm (by_key key) x l)) in Hz.
      destruct Hz as [<-|Hz]; [lia|now apply Hy].
Qed.

Lemma stable_sort_sorted (l : list A) :
  StronglySorted (fun a b => key a <= key b) (stable_sort (by_key key) l).
Proof.
  induction l as [|x l IH]; cbn; [constructor|].
  now apply insert_sorted_sorted.
Qed.

(** Elements with the same key keep the order they came in. *)
Lemma insert_sorted_stable (c : Z) (x : A) (l : list A) :
  List.filter (fun a => key a =? c) (insert_sorted (by_key key) x l)
  = List.filter (fun a => key a =? c) (x :: l).
Proof.
  induction l as [|y l IH]; [reflexivity|]. cbn [insert_sorted].
  unfold by_key at 1. destruct (Z.leb_spec (key x) (key y)); [reflexivity|].
  cbn [List.filter] in *. rewrite IH.
  destruct (Z.eqb_spec (key x) c), (Z.eqb_spec (key y) c); try reflexivity; lia.
Qed.

Lemma stable_sort_stable (c : Z) (l : list A) :
  List.filter (fun a => key a =? c) (stable_sort (by_key key) l)
  = List.filter (fun a => key a =? c) l.
Proof.
  induction l as [|x l IH]; [reflexivity|]. cbn [stable_sort].
  rewrite insert_sorted_stable. cbn [List.filter]. now rewrite IH.
Qed.

End ByKey.

Lemma filter_nodup (f : string -> bool) (l : list string) :
  NoDup l -> NoDup (List.filter f l).
Proof.
  induction 1 as [|x l Hx Hl IH]; cbn; [constructor|].
  destruct (f x); [|assumption]. constructor; [|assumption].
  rewrite list_elem_of_In in *. intros Hin. apply Hx.
  now apply filter_In in Hin.
Qed.

(** The stops of the rows are the keys of the records, the origin left
    out, in the order of the records. *)
Lemma rows_ids (half_up : Z -> bool) (G : DiGraph) (origin : string) (dep : Z)
    (items : list (string * (Z * Z))) :
  forall acc rows,
  for_each (result_row half_up G origin dep) items acc = Ok rows ->
  map stop_id rows
  = map stop_id acc
    ++ List.filter (fun k => negb (String.eqb k origin)) (OD.keys items).
Proof.
  induction items as [|[k [a t]] items IH]; intros acc rows; cbn [for_each].
  - intros [= <-]. cbn. now rewrite app_nil_r.
  - unfold result_row at 1. cbn [OD.keys map fst List.filter].
    destruct (String.eqb k origin); cbn [negb bind].
    + apply IH.
    + destruct (OD.get k G) as [node|]; [|discriminate]. cbn [bind].
      destruct (node_attrs node) as [data|]; [|discriminate]. cbn [bind getitem].
      intros Hrun. rewrite (IH _ rows Hrun), map_app. cbn.
      now rewrite <- app_assoc.
Qed.

Lemma answer_rows (half_up : Z -> bool) (graphs : gmap string DiGraph)
    (origin departure day_type : string) (budget : Z) (r : list ReachableStop) :
  calculate_reachability half_up graphs origin departure budget day_type = Ok r ->
  exists G t final,
    graphs !! day_type = Some G /\ has_node G origin = true /\
    time_to_seconds departure = Ok t /\
    search_loop (search_fuel G) G t (budget * 60)
      {| earliest_arrival := [(origin, (t, 0))]; pq := [(t, origin, 0)];
         explored := ∅ |} = Ok final /\
    forall x, In x r ->
      exists k a n node data,
        In (k, (a, n)) (earliest_arrival final) /\ String.eqb k origin = false /\
        OD.get k G = Some node /\ node_attrs node = Some data /\
        x = make_row half_up t k data a n.
Proof.
  intros (G & t & final & rows & HG & Hnode & Ht & Hloop & Hrows & ->)%calculate_ok.
  exists G, t, final. repeat (split; [assumption|]).
  intros x Hx%LoopFacts.stable_sort_in.
  apply (Monotone.rows_in half_up G origin t _ [] rows Hrows) in Hx
    as [[]|(k & a & n & node & data & H)].
  now exists k, a, n, node, data.
Qed.

(** The records and the queue of a search that starts at the origin. *)
Lemma search_keeps (G : DiGraph) (origin : string) (t maxs : Z)
    (E : Entry -> Prop) (R : string -> Z * Z -> Prop) (fuel : nat)
    (final : State) :
  (forall cur stop n node nb e a u,
     E (cur, stop, n) -> OD.get stop G = Some node -> In (nb, e) (node_succ node) ->
     kept t maxs cur n e (Some (a, u)) -> E (a, nb, u) /\ R nb (a, u)) ->
  E (t, origin, 0) -> R origin (t, 0) ->
  search_loop fuel G t maxs
    {| earliest_arrival := [(origin, (t, 0))]; pq := [(t, origin, 0)];
       explored := ∅ |} = Ok final ->
  forall k v, In (k, v) (earliest_arrival final) -> R k v.
Proof.
  intros Hexp HE HR Hloop.
  refine (proj2 (Keeps.loop_keeps G t maxs E R Hexp fuel _ final _ Hloop)).
  split; cbn.
  - intros x [<-|[]]. exact HE.
  - intros k v [[= <- <-]|[]]. exact HR.
Qed.

Lemma answer_ids (half_up : Z -> bool) (graphs : gmap string DiGraph)
    (origin departure day_type : string) (budget : Z) (r : list ReachableStop) :
  calculate_reachability half_up graphs origin departure budget day_type = Ok r ->
  NoDup (map stop_id r) /\ ~ In origin (map stop_id r).
Proof.
  intros (G & t & final & rows & HG & Hnode & Ht & Hloop & Hrows & ->)%calculate_ok.
  assert (Hids : Permutation
            (map stop_id (stable_sort by_travel_time rows))
            (List.filter (fun k => negb (String.eqb k origin))
               (OD.keys (earliest_arrival final)))).
  { rewrite (Permutation_map _ (stable_sort_perm _ rows)).
    now rewrite (rows_ids half_up G origin t _ [] rows Hrows). }
  split.
  - rewrite Hids. apply filter_nodup.
    refine (Monotone.loop_keys G t _ _ _ final _ Hloop).
    cbn. apply NoDup_singleton.
  - intros Hin. apply (Permutation_in _ Hids) in Hin.
    apply filter_In in Hin as [_ Hne]. now rewrite String.eqb_refl in Hne.
Qed.

(** What the budget test and the count of transfers leave in the records
    the rows are made of. *)
Lemma records_within (half_up : Z -> bool) (graphs : gmap string DiGraph)
    (origin departure day_type : string) (budget : Z) (r : list ReachableStop) :
  calculate_reachability half_up graphs origin departure budget day_type = Ok r ->
  forall x, In x r ->
    exists t k data a n,
      x = make_row half_up t k data a n /\ a - t <= budget * 60 /\ 0 <= n.
Proof.
  intros (G & t & final & _ & _ & _ & Hloop & Hall)%answer_rows x Hx.
  destruct (Hall x Hx) as (k & a & n & node & data & Hin & Hne & _ & _ & ->).
  apply String.eqb_neq in Hne.
  pose proof (search_keeps G origin t (budget * 60)
                (fun '(_, _, n) => 0 <= n)
                (fun k '(a, n) => (k = origin \/ a - t <= budget * 60) /\ 0 <= n)
                (search_fuel G) final) as Hkeep.
  cbn beta iota in Hkeep.
  specialize (Hkeep ltac:(intros; unfold kept in *; intuition lia)
                    ltac:(lia) ltac:(split; [now left|lia]) Hloop k (a, n) Hin).
  cbn beta iota in Hkeep. destruct Hkeep as [[Heq|Hle] Hn]; [contradiction|].
  now exists t, k, data, a, n.
Qed.

(** The list comprehension of the timeline, as a filter of the list
    library. *)
Lemma filter_bool {A : Type} (f : A -> bool) (l : list A) :
  filter f l = List.filter f l.
Proof.
  induction l as [|x l IH]; [reflexivity|].
  rewrite filter_cons. cbn [List.filter]. rewrite IH.
  destruct (f x), (decide _) as [H|H]; try reflexivity;
    [destruct H; exact I|destruct H].
Qed.

(** In a list in ascending order of the key, the elements up to a bound are
    an initial segment. *)
Lemma filter_sorted_prefix {A : Type} (key : A -> Z) (c : Z) (l : list A) :
  StronglySorted (fun a b => key a <= key b) l ->
  exists rest,
    l = List.filter (fun a => key a <=? c) l ++ rest /\
    forall x, In x rest -> c < key x.
Proof.
  induction 1 as [|x l Hl IH Hx]; [now exists []|]. cbn [List.filter].
  destruct (Z.leb_spec (key x) c) as [Hle|Hgt].
  - destruct IH as (rest & Heq & Hrest). exists rest.
    split; [|exact Hrest]. cbn. now rewrite <- Heq.
  - exists (x :: l). rewrite List.Forall_forall in Hx.
    assert (Hnone : List.filter (fun a => key a <=? c) l = []).
    { clear IH Hl. induction l as [|y l IHl]; [reflexivity|]. cbn [List.filter].
      destruct (Z.leb_spec (key y) c);
        [specialize (Hx y (or_introl eq_refl)); lia|].
      apply IHl. intros z Hz. apply Hx. now right. }
    rewrite Hnone. split; [reflexivity|].
    intros y [<-|Hy]; [lia|]. specialize (Hx y Hy). lia.
Qed.

(** The frames of a timeline for a step that is not zero. *)
Lemma timeline_ok (half_up : Z -> bool) (graphs : gmap string DiGraph)
    (origin departure day_type : string) (budget step : Z)
    (r : list ReachableStop) :
  calculate_reachability half_up graphs origin departure budget day_type = Ok r ->
  step <> 0 ->
  exists steps,
    Py.range step (budget + 1) step = Ok steps /\
    calculate_reachability_timeline half_up graphs origin departure budget step
      day_type
    = Ok (map (fun s =>
                 {| elapsed_minutes := s;
                    reachable_stops :=
                      List.filter (fun x => travel_time_minutes x <=? s * 10) r |})
              steps).
Proof.
  intros Hr Hstep. unfold calculate_reachability_timeline. rewrite Hr. cbn [bind].
  unfold Py.range. destruct (Z.eqb_spec step 0) as [|_]; [contradiction|].
  eexists. split; [reflexivity|]. cbn [bind]. f_equal.
  apply map_ext. intros s. now rewrite filter_bool.
Qed.

End Answers.

(** ** The shape of an answer *)

Lemma scenario_half_hour (half_up : Z -> bool) :
  Reachability.calculate_reachability half_up Scenario.graphs
    "A" "09:00" 30 "weekday"
  = Ok [Scenario.reached "B" "Beta" 100 0; Scenario.reached "C" "Gamma" 300 1].
Proof. vm_compute. reflexivity. Qed.

(** X1. An answer lists a stop at most once and never lists the origin; each
    of its rows is a node of the graph of the day type and carries the name
    and the coordinates of that node. *)
Theorem answer_lists_nodes_once (half_up : Z -> bool)
    (graphs : gmap string DiGraph) (origin departure day_type : string)
    (budget : Z) (r : list Reachability.ReachableStop) :
  Reachability.calculate_reachability half_up graphs origin departure budget
    day_type = Ok r ->
  NoDup (map Reachability.stop_id r) /\
  ~ In origin (map Reachability.stop_id r) /\
  forall x, In x r ->
    exists G node data,
      graphs !! day_type = Some G /\
      OD.get (Reachability.stop_id x) G = Some node /\
      node_attrs node = Some data /\
      Reachability.stop_name x = Nx.stop_name data /\
      Reachability.lat x = Nx.lat data /\ Reachability.lon x = Nx.lon data.
Proof.
  intros Hcall.
  destruct (Answers.answer_ids _ _ _ _ _ _ _ Hcall) as [Hnd Hout].
  split; [exact Hnd|]. split; [exact Hout|].
  - intros x Hx.
    destruct (Answers.answer_rows _ _ _ _ _ _ _ Hcall)
      as (G' & t' & final' & HG' & _ & _ & _ & Hall).
    destruct (Hall x Hx) as (k & a & n & node & data & _ & _ & Hk & Hd & ->).
    exists G', node, data. now repeat split.
Qed.

Lemma answer_lists_nodes_once_witness :
  NoDup (map Reachability.stop_id
           [Scenario.reached "B" "Beta" 100 0; Scenario.reached "C" "Gamma" 300 1]) /\
  ~ In "A" (map Reachability.stop_id
              [Scenario.reached "B" "Beta" 100 0; Scenario.reached "C" "Gamma" 300 1]).
Proof.
  pose proof (answer_lists_nodes_once Py.float_half_up Scenario.graphs
                "A" "09:00" "weekday" 30 _
                (scenario_half_hour Py.float_half_up)) as H.
  exact (conj (proj1 H) (proj1 (proj2 H))).
Defined.

(** X2. An answer is in ascending order of travel time. *)
Theorem answer_sorted_by_travel_time (half_up : Z -> bool)
    (graphs : gmap string DiGraph) (origin departure day_type : string)
    (budget : Z) (r : list Reachability.ReachableStop) :
  Reachability.calculate_reachability half_up graphs origin departure budget
    day_type = Ok r ->
  StronglySorted
    (fun a b => Reachability.travel_time_minutes a
                <= Reachability.travel_time_minutes b) r.
Proof.
  intros (G & t & final & rows & _ & _ & _ & _ & _ & ->)%Answers.calculate_ok.
  exact (Answers.stable_sort_sorted Reachability.travel_time_minutes rows).
Qed.

Lemma answer_sorted_by_travel_time_witness :
  StronglySorted
    (fun a b => Reachability.travel_time_minutes a
                <= Reachability.travel_time_minutes b)
    [Scenario.reached "B" "Beta" 100 0; Scenario.reached "C" "Gamma" 300 1].
Proof.
  exact (answer_sorted_by_travel_time Py.float_half_up Scenario.graphs
           "A" "09:00" "weekday" 30 _ (scenario_half_hour Py.float_half_up)).
Defined.

(** X3. No row of an answer has a travel time above the budget (the travel
    time is held in tenths of a minute), and none has a negative number of
    transfers, whatever the graph holds. *)
Theorem answer_within_budget (half_up : Z -> bool)
    (graphs : gmap string DiGraph) (origin departure day_type : string)
    (budget : Z) (r : list Reachability.ReachableStop) :
  Reachability.calculate_reachability half_up graphs origin departure budget
    day_type = Ok r ->
  forall x, In x r ->
    Reachability.travel_time_minutes x <= 10 * budget /\
    0 <= Reachability.num_transfers x.
Proof.
  intros Hr x Hx.
  destruct (Answers.records_within half_up graphs origin departure day_type
              budget r Hr x Hx) as (t & k & data & a & n & -> & Hle & Hn).
  cbn [make_row Reachability.travel_time_minutes Reachability.num_transfers].
  split; [|exact Hn]. apply Answers.round_minutes_le. lia.
Qed.

Lemma answer_within_budget_witness :
  Reachability.travel_time_minutes (Scenario.reached "C" "Gamma" 300 1) <= 10 * 30 /\
  0 <= Reachability.num_transfers (Scenario.reached "C" "Gamma" 300 1).
Proof.
  apply (answer_within_budget Py.float_half_up Scenario.graphs
           "A" "09:00" "weekday" 30 _ (scenario_half_hour Py.float_half_up)).
  right. left. reflexivity.
Defined.

(** X4. On a graph none of whose edges goes back in time (no transfer of
    negative duration, no segment that arrives before it leaves), no row of
    an answer has a negative travel time. *)
Theorem answer_travel_time_nonneg (half_up : Z -> bool)
    (graphs : gmap string DiGraph) (origin departure day_type : string)
    (budget : Z) (G : DiGraph) (r : list Reachability.ReachableStop) :
  graphs !! day_type = Some G ->
  every_edge nonneg_edge G = true ->
  Reachability.calculate_reachability half_up graphs origin departure budget
    day_type = Ok r ->
  forall x, In x r -> 0 <= Reachability.travel_time_minutes x.
Proof.
  intros HG Hfwd (G' & t & final & HG' & _ & _ & Hloop & Hall)%Answers.answer_rows
    x Hx.
  assert (G' = G) as -> by congruence.
  destruct (Hall x Hx) as (k & a & n & node & data & Hin & _ & _ & _ & ->).
  pose proof (Answers.search_keeps G origin t (budget * 60)
                (fun '(c, _, _) => t <= c) (fun _ '(a, _) => t <= a)
                (Reachability.search_fuel G) final) as Hkeep.
  cbn beta iota in Hkeep.
  assert (Hexp : forall cur stop n node nb e a u,
            t <= cur -> OD.get stop G = Some node -> In (nb, e) (node_succ node) ->
            kept t (budget * 60) cur n e (Some (a, u)) -> t <= a /\ t <= a).
  { intros cur stop m nd nb e b u Hcur Hnd Hnb (_ & _ & Hle).
    specialize (Hle (Runs.edge_of_node _ G stop nd Hfwd Hnd nb e Hnb)). lia. }
  specialize (Hkeep Hexp ltac:(lia) ltac:(lia) Hloop k (a, n) Hin).
  cbn beta iota in Hkeep.
  cbn [make_row Reachability.travel_time_minutes].
  apply Answers.round_minutes_nonneg. lia.
Qed.

Lemma answer_travel_time_nonneg_witness :
  0 <= Reachability.travel_time_minutes (Scenario.reached "C" "Gamma" 300 1).
Proof.
  apply (answer_travel_time_nonneg Py.float_half_up Scenario.graphs
           "A" "09:00" "weekday" 30 Scenario.graph
           [Scenario.reached "B" "Beta" 100 0; Scenario.reached "C" "Gamma" 300 1]);
    [vm_compute; reflexivity|vm_compute; reflexivity|
     exact (scenario_half_hour Py.float_half_up)|right; left; reflexivity].
Defined.

(** Without the condition a travel time can be negative: on the graph of
    [Scenario.night_feed], whose segment from B to C leaves at 24:20:00 and
    arrives at 24:00:00, the search from B at 24:20 returns C at -20.0
    minutes. *)
Lemma travel_time_can_be_negative :
  exists graphs,
    build_all_graphs Scenario.night_feed = Ok graphs /\
    Reachability.calculate_reachability Py.float_half_up graphs
      "B" "24:20" 30 "weekday"
    = Ok [Scenario.reached "C" "Gamma" (-200) 0].
Proof.
  eexists. split; [vm_compute; reflexivity|]. vm_compute. reflexivity.
Qed.

Lemma connected_from_sink (G : DiGraph) (u w : string) (node : NodeEntry) :
  OD.get u G = Some node -> node_succ node = [] -> connected G u w -> w = u.
Proof.
  intros Hu Hnone. induction 1 as [|v w nd e _ IH Hv Hw]; [reflexivity|].
  rewrite IH in Hv. assert (nd = node) as -> by congruence.
  rewrite Hnone in Hw. destruct Hw.
Qed.

(** X5. Every stop of an answer can be reached from the origin along edges
    of the graph; so the answer for an origin without outgoing edges is
    empty. *)
Theorem answer_connected (half_up : Z -> bool)
    (graphs : gmap string DiGraph) (origin departure day_type : string)
    (budget : Z) (G : DiGraph) (r : list Reachability.ReachableStop) :
  graphs !! day_type = Some G ->
  Reachability.calculate_reachability half_up graphs origin departure budget
    day_type = Ok r ->
  (forall x, In x r -> connected G origin (Reachability.stop_id x)) /\
  (forall node, OD.get origin G = Some node -> node_succ node = [] -> r = []).
Proof.
  intros HG Hcall.
  assert (Hconn : forall x, In x r -> connected G origin (Reachability.stop_id x)).
  { destruct (Answers.answer_rows _ _ _ _ _ _ _ Hcall)
      as (G' & t & final & HG' & _ & _ & Hloop & Hall).
    assert (G' = G) as -> by congruence.
    intros x Hx.
    destruct (Hall x Hx) as (k & a & n & node & data & Hin & _ & _ & _ & ->).
    pose proof (Answers.search_keeps G origin t (budget * 60)
                  (fun '(_, s, _) => connected G origin s)
                  (fun k _ => connected G origin k)
                  (Reachability.search_fuel G) final) as Hkeep.
    cbn beta iota in Hkeep.
    refine (Hkeep _ (connected_here G origin) (connected_here G origin) Hloop
              k (a, n) Hin).
    intros cur stop m nd nb e b u Hstop Hnd Hnb _.
    now split; apply (connected_step G origin stop nb nd e). }
  split; [exact Hconn|].
  intros node Hnode Hnone. destruct r as [|x r]; [reflexivity|].
  destruct (Answers.answer_ids _ _ _ _ _ _ _ Hcall) as [_ Hout].
  exfalso. apply Hout. left.
  exact (connected_from_sink G origin _ node Hnode Hnone (Hconn x (or_introl eq_refl))).
Qed.

Lemma answer_connected_witness :
  (forall x,
     In x [Scenario.reached "B" "Beta" 100 0; Scenario.reached "C" "Gamma" 300 1] ->
     connected Scenario.graph "A" (Reachability.stop_id x)) /\
  (forall node,
     OD.get "A" Scenario.graph = Some node -> node_succ node = [] ->
     [Scenario.reached "B" "Beta" 100 0; Scenario.reached "C" "Gamma" 300 1] = []).
Proof.
  apply (answer_connected Py.float_half_up Scenario.graphs
           "A" "09:00" "weekday" 30 Scenario.graph);
    vm_compute; reflexivity.
Defined.

(** X6. With a negative budget the search returns the empty answer on every
    graph that has the origin, also on one whose edges it could not read:
    the origin is popped, found beyond the budget, and no edge is looked
    at. *)
Theorem negative_budget_empty (half_up : Z -> bool)
    (graphs : gmap string DiGraph) (origin departure day_type : string)
    (budget t : Z) (G : DiGraph) :
  graphs !! day_type = Some G -> has_node G origin = true ->
  Reachability.time_to_seconds departure = Ok t ->
  budget < 0 ->
  Reachability.calculate_reachability half_up graphs origin departure budget
    day_type = Ok [].
Proof.
  intros HG Hnode Ht Hneg. unfold Reachability.calculate_reachability.
  rewrite HG, Hnode, Ht. cbn [negb bind]. unfold Reachability.search_fuel.
  rewrite Monotone.negative_budget by lia.
  cbn [bind Reachability.earliest_arrival for_each].
  unfold Reachability.result_row. now rewrite String.eqb_refl.
Qed.

Lemma negative_budget_empty_witness :
  exists graphs,
    build_all_graphs Scenario.transfer_feed = Ok graphs /\
    Reachability.calculate_reachability Py.float_half_up graphs
      "A" "09:00" (-1) "weekday" = Ok [].
Proof.
  eexists. split; [vm_compute; reflexivity|].
  eapply (negative_budget_empty Py.float_half_up _ "A" "09:00" "weekday" (-1));
    [vm_compute; reflexivity|vm_compute; reflexivity|vm_compute; reflexivity|lia].
Defined.

(** ** The frames of a timeline *)

(** X7. When the step is positive and divides a positive budget, the last
    frame of the timeline is the one of the whole budget, and it holds the
    whole answer of the search. *)
Theorem timeline_last_frame (half_up : Z -> bool)
    (graphs : gmap string DiGraph) (origin departure day_type : string)
    (budget step : Z) (r : list Reachability.ReachableStop) :
  0 < step -> 0 < budget -> budget mod step = 0 ->
  Reachability.calculate_reachability half_up graphs origin departure budget
    day_type = Ok r ->
  exists earlier,
    Reachability.calculate_reachability_timeline half_up graphs origin
      departure budget step day_type
    = Ok (earlier ++ [{| Reachability.elapsed_minutes := budget;
                         Reachability.reachable_stops := r |}]).
Proof.
  intros Hstep Hbudget Hdiv Hr.
  destruct (Answers.timeline_ok half_up graphs origin departure day_type budget
              step r Hr ltac:(lia)) as (steps & Hsteps & ->).
  rewrite (range_multiples step budget Hstep) in Hsteps.
  injection Hsteps as <-.
  pose proof (Z.div_mod budget step ltac:(lia)) as Hq. rewrite Hdiv in Hq.
  assert (Hpos : 0 < budget / step) by nia.
  destruct (Z.to_nat (budget / step)) as [|m] eqn:Hm; [lia|].
  assert (Hall : List.filter
                   (fun x => Reachability.travel_time_minutes x <=? budget * 10) r
                 = r).
  { assert (Hin : forall x, In x r ->
                Reachability.travel_time_minutes x <= 10 * budget).
    { intros x Hx.
      destruct (Answers.records_within half_up graphs origin departure day_type
                  budget r Hr x Hx) as (t & k & data & a & n & -> & Hle & _).
      apply Answers.round_minutes_le. lia. }
    clear - Hin. induction r as [|x r IH]; [reflexivity|]. cbn [List.filter].
    destruct (Z.leb_spec (Reachability.travel_time_minutes x) (budget * 10))
      as [_|Hgt].
    - f_equal. apply IH. intros y Hy. apply Hin. now right.
    - specialize (Hin x (or_introl eq_refl)). lia. }
  rewrite seq_S, !map_app. cbn [map]. eexists.
  replace (Z.of_nat (1 + m) * step) with budget by nia.
  rewrite Hall. reflexivity.
Qed.

Lemma timeline_last_frame_witness :
  exists earlier,
    Reachability.calculate_reachability_timeline Py.float_half_up Scenario.graphs
      "A" "09:00" 30 10 "weekday"
    = Ok (earlier ++
          [{| Reachability.elapsed_minutes := 30;
              Reachability.reachable_stops :=
                [Scenario.reached "B" "Beta" 100 0;
                 Scenario.reached "C" "Gamma" 300 1] |}]).
Proof.
  apply (timeline_last_frame Py.float_half_up Scenario.graphs
           "A" "09:00" "weekday" 30 10);
    [lia|lia|reflexivity|exact (scenario_half_hour Py.float_half_up)].
Defined.

(** X8. Every frame of a timeline is an initial segment of the answer of
    the search: the stops it leaves out are those with a travel time above
    its elapsed minutes.  So each frame is an initial segment of the frames
    after it. *)
Theorem timeline_frames_are_prefixes (half_up : Z -> bool)
    (graphs : gmap string DiGraph) (origin departure day_type : string)
    (budget step : Z) (r : list Reachability.ReachableStop)
    (frames : list Reachability.Frame) :
  Reachability.calculate_reachability half_up graphs origin departure budget
    day_type = Ok r ->
  Reachability.calculate_reachability_timeline half_up graphs origin departure
    budget step day_type = Ok frames ->
  forall f, In f frames ->
    exists rest,
      r = Reachability.reachable_stops f ++ rest /\
      forall x, In x rest ->
        10 * Reachability.elapsed_minutes f < Reachability.travel_time_minutes x.
Proof.
  intros Hr Hframes f Hf.
  destruct (Z.eq_dec step 0) as [->|Hstep].
  { unfold Reachability.calculate_reachability_timeline in Hframes.
    rewrite Hr in Hframes. discriminate. }
  destruct (Answers.timeline_ok half_up graphs origin departure day_type budget
              step r Hr Hstep) as (steps & _ & Heq).
  rewrite Heq in Hframes. injection Hframes as <-.
  apply in_map_iff in Hf as (s & <- & _).
  cbn [Reachability.reachable_stops Reachability.elapsed_minutes].
  pose proof (Answers.calculate_ok _ _ _ _ _ _ _ Hr)
    as (G & t & final & rows & _ & _ & _ & _ & _ & ->).
  destruct (Answers.filter_sorted_prefix Reachability.travel_time_minutes (s * 10)
              _ (Answers.stable_sort_sorted Reachability.travel_time_minutes rows))
    as (rest & Hrest & Hlate).
  exists rest. split; [exact Hrest|].
  intros x Hx. specialize (Hlate x Hx). lia.
Qed.

Lemma timeline_frames_are_prefixes_witness :
  exists rest,
    [Scenario.reached "B" "Beta" 100 0; Scenario.reached "C" "Gamma" 300 1]
    = [Scenario.reached "B" "Beta" 100 0] ++ rest /\
    forall x, In x rest -> 10 * 20 < Reachability.travel_time_minutes x.
Proof.
  apply (timeline_frames_are_prefixes Py.float_half_up Scenario.graphs
           "A" "09:00" "weekday" 30 10 _ _
           (scenario_half_hour Py.float_half_up) eq_refl
           {| Reachability.elapsed_minutes := 20;
              Reachability.reachable_stops := [Scenario.reached "B" "Beta" 100 0] |}).
  right. left. reflexivity.
Defined.

(** X9. The step of a timeline is not checked before the search: an error
    of the search is the error of the timeline, whatever the step; after a
    search that returned, a step of zero raises the ValueError of [range],
    and a positive step above the budget gives no frame at all, as does a
    negative step that is at most the budget plus one. *)
Theorem timeline_step_out_of_range (half_up : Z -> bool)
    (graphs : gmap string DiGraph) (origin departure day_type : string)
    (budget : Z) :
  (forall e step,
     Reachability.calculate_reachability half_up graphs origin departure budget
       day_type = Raise e ->
     Reachability.calculate_reachability_timeline half_up graphs origin departure
       budget step day_type = Raise e) /\
  (forall r,
     Reachability.calculate_reachability half_up graphs origin departure budget
       day_type = Ok r ->
     Reachability.calculate_reachability_timeline half_up graphs origin departure
       budget 0 day_type = Raise (ValueError "range() arg 3 must not be zero") /\
     forall step,
       0 < step /\ budget < step \/ step < 0 /\ step <= budget + 1 ->
       Reachability.calculate_reachability_timeline half_up graphs origin
         departure budget step day_type = Ok []).
Proof.
  split.
  - intros e step He. unfold Reachability.calculate_reachability_timeline.
    now rewrite He.
  - intros r Hr. split.
    + unfold Reachability.calculate_reachability_timeline. now rewrite Hr.
    + intros step Hstep.
      destruct (Answers.timeline_ok half_up graphs origin departure day_type
                  budget step r Hr ltac:(lia)) as (steps & Hsteps & ->).
      unfold Py.range in Hsteps.
      destruct (Z.eqb_spec step 0) as [|_]; [lia|].
      destruct (Z.ltb_spec 0 step), (Z.ltb_spec step (budget + 1)),
        (Z.ltb_spec (budget + 1) step); try lia;
        cbn in Hsteps; now injection Hsteps as <-.
Qed.

Lemma timeline_step_out_of_range_witness :
  Reachability.calculate_reachability_timeline Py.float_half_up Scenario.graphs
    "A" "09:00" 15 0 "weekday"
  = Raise (ValueError "range() arg 3 must not be zero") /\
  Reachability.calculate_reachability_timeline Py.float_half_up Scenario.graphs
    "A" "09:00" 15 20 "weekday" = Ok [].
Proof.
  destruct (proj2 (timeline_step_out_of_range Py.float_half_up Scenario.graphs
                     "A" "09:00" "weekday" 15) _
              (scenario_quarter_hour Py.float_half_up)) as [Hzero Hbig].
  split; [exact Hzero|]. apply Hbig; lia.
Defined.

(** * The exceptions of the calculator *)

Module Raises.
Import Reachability.

Lemma for_each_raise {A S : Type} (f : S -> A -> result S) (xs : list A) (e : exn) :
  forall s, for_each f xs s = Raise e -> exists x s0, In x xs /\ f s0 x = Raise e.
Proof.
  induction xs as [|x xs IH]; intros s; cbn [for_each]; [discriminate|].
  destruct (f s x) as [s1|e1] eqn:Hx; cbn [bind].
  - intros (y & s0 & Hy & Hr)%IH. exists y, s0. split; [now right|exact Hr].
  - intros [= <-]. exists x, s. split; [now left|exact Hx].
Qed.

Lemma consider_raise (dep maxs cur n : Z) (best : option (Z * Z)) (x : EdgeItem)
    (e : exn) :
  consider_edge dep maxs cur n best x = Raise e -> graph_error e = true.
Proof.
  destruct x as [d|]; cbn [consider_edge]; [|now intros [= <-]].
  destruct (is_transfer_edge d).
  - destruct (duration d); cbn [getitem bind]; [|now intros [= <-]].
    now destruct (_ <=? _).
  - destruct (departure_time d); cbn [getitem bind]; [|now intros [= <-]].
    destruct (arrival_time d); cbn [getitem bind]; [|now intros [= <-]].
    destruct (_ <? _); destruct (_ <=? _); try discriminate;
      now destruct (_ <=? _).
Qed.

Lemma relax_raise (dep maxs cur n : Z) (acc : list (string * (Z * Z)) * list Entry)
    (nb : string * EdgeData) (e : exn) :
  relax_neighbor dep maxs cur n acc nb = Raise e -> graph_error e = true.
Proof.
  destruct acc as [ea q], nb as [k d]. unfold relax_neighbor.
  destruct (for_each _ (edges_of d) None) as [best|e1] eqn:Hbest; cbn [bind].
  - destruct best as [[a t]|]; [|discriminate].
    now destruct (match OD.get k ea with Some _ => _ | None => _ end).
  - intros [= <-]. apply for_each_raise in Hbest as (x & s0 & _ & Hx).
    exact (consider_raise _ _ _ _ _ _ _ Hx).
Qed.

Lemma step_raise (G : DiGraph) (dep maxs : Z) (st : State) (e : exn) :
  search_step G dep maxs st = Raise e -> graph_error e = true.
Proof.
  unfold search_step.
  destruct (heappop (pq st)) as [[[[cur stop] n] rest]|]; [|discriminate].
  destruct (decide _); [discriminate|]. destruct (_ <? _); [discriminate|].
  unfold neighbors. destruct (OD.get stop G) as [node|]; cbn [bind];
    [|now intros [= <-]].
  destruct (for_each _ (node_succ node) _) as [acc|e1] eqn:Hrun; cbn [bind];
    [discriminate|].
  intros [= <-]. apply for_each_raise in Hrun as (x & s0 & _ & Hx).
  exact (relax_raise _ _ _ _ _ _ _ Hx).
Qed.

Lemma loop_raise (G : DiGraph) (dep maxs : Z) (fuel : nat) (e : exn) :
  forall st, search_loop fuel G dep maxs st = Raise e -> graph_error e = true.
Proof.
  induction fuel as [|fuel IH]; intros st; cbn [search_loop]; [discriminate|].
  destruct (pq st); [discriminate|].
  destruct (search_step G dep maxs st) as [s|e1] eqn:Hstep; cbn [bind].
  - apply IH.
  - intros [= <-]. exact (step_raise _ _ _ _ _ Hstep).
Qed.

Lemma rows_raise (half_up : Z -> bool) (G : DiGraph) (origin : string) (dep : Z)
    (items : list (string * (Z * Z))) (acc : list ReachableStop) (e : exn) :
  for_each (result_row half_up G origin dep) items acc = Raise e -> e = KeyError.
Proof.
  intros (x & s0 & _ & Hx)%for_each_raise. destruct x as [k [a t]].
  unfold result_row in Hx. destruct (String.eqb k origin); [discriminate|].
  destruct (OD.get k G) as [node|]; cbn [bind] in Hx; [|now injection Hx].
  destruct (node_attrs node); cbn [getitem bind] in Hx; [discriminate|].
  now injection Hx.
Qed.

Lemma int_raise (s : string) (e : exn) :
  Py.int s = Raise e -> e = ValueError "invalid literal for int() with base 10".
Proof.
  unfold Py.int.
  destruct (match Py.strip (list_ascii_of_string s) with [] => _ | _ => _ end);
    [discriminate|now intros [= <-]].
Qed.

Lemma index_raise {A : Type} (l : list A) (i : nat) (e : exn) :
  Py.index l i = Raise e -> e = IndexError.
Proof. unfold Py.index. destruct (nth_error l i); [discriminate|now intros [= <-]]. Qed.

(** The clock string of a request: [IndexError] without a colon,
    [ValueError] for a field that is no integer. *)
Lemma time_raise (s : string) (e : exn) :
  time_to_seconds s = Raise e ->
  e = IndexError \/ e = ValueError "invalid literal for int() with base 10".
Proof.
  unfold time_to_seconds.
  destruct (Py.index _ 0) as [p0|e0] eqn:H0; cbn [bind];
    [|intros [= <-]; left; exact (index_raise _ _ _ H0)].
  destruct (Py.int p0) as [h|e1] eqn:H1; cbn [bind];
    [|intros [= <-]; right; exact (int_raise _ _ H1)].
  destruct (Py.index _ 1) as [p1|e2] eqn:H2; cbn [bind];
    [|intros [= <-]; left; exact (index_raise _ _ _ H2)].
  destruct (Py.int p1) as [m|e3] eqn:H3; cbn [bind];
    [discriminate|intros [= <-]; right; exact (int_raise _ _ H3)].
Qed.

(** On a well-formed graph the search returns. *)
Lemma calculate_returns (half_up : Z -> bool) (graphs : gmap string DiGraph)
    (origin departure day_type : string) (budget t : Z) (G : DiGraph) :
  graphs !! day_type = Some G -> has_node G origin = true ->
  well_formed G = true -> time_to_seconds departure = Ok t ->
  exists rows,
    calculate_reachability half_up graphs origin departure budget day_type
    = Ok rows.
Proof.
  intros HG Hnode Hwf Htime. unfold calculate_reachability.
  rewrite HG, Hnode, Htime. cbn [negb bind].
  set (init := {| earliest_arrival := [(origin, (t, 0))];
                  pq := [(t, origin, 0)]; explored := ∅ |}).
  assert (Hinit : stops_known G (earliest_arrival init) (pq init)).
  { split.
    - intros x [<-|[]]. exact Hnode.
    - intros k v [[= <- _]|[]]. exact Hnode. }
  destruct (Runs.loop_known G t (budget * 60) (search_fuel G) init Hwf Hinit)
    as (final & Hrun & [_ Hea]).
  pose proof Hwf as [[_ Hdesc]%andb_true_iff _]%andb_true_iff.
  destruct (Runs.rows_described half_up G origin t (earliest_arrival final) []
              Hdesc Hea) as [rows Hrows].
  exists (stable_sort by_travel_time rows).
  rewrite Hrun. cbn [bind]. now rewrite Hrows.
Qed.

(** Where [calculate_reachability] raises. *)
Lemma calculate_raise (half_up : Z -> bool) (graphs : gmap string DiGraph)
    (origin departure day_type : string) (budget : Z) (e : exn) :
  calculate_reachability half_up graphs origin departure budget day_type
  = Raise e ->
  (graphs !! day_type = None /\
   e = ValueError ("Invalid day_type: " ++ day_type)%string) \/
  (exists G, graphs !! day_type = Some G /\ has_node G origin = false /\
             e = ValueError ("Stop not found: " ++ origin)%string) \/
  (exists G, graphs !! day_type = Some G /\ has_node G origin = true /\
             time_to_seconds departure = Raise e) \/
  (exists G t, graphs !! day_type = Some G /\ has_node G origin = true /\
               time_to_seconds departure = Ok t /\ graph_error e = true).
Proof.
  intros Hcall. unfold calculate_reachability in Hcall.
  destruct (graphs !! day_type) as [G|] eqn:HG;
    [|injection Hcall as <-; left; now split].
  right.
  destruct (has_node G origin) eqn:Hnode; cbn [negb] in Hcall;
    [|injection Hcall as <-; left; now exists G].
  right.
  destruct (time_to_seconds departure) as [t|e0] eqn:Htime; cbn [bind] in Hcall;
    [|injection Hcall as <-; left; now exists G].
  right. exists G, t. repeat (split; [first [assumption|reflexivity]|]).
  destruct (search_loop _ G t _ _) as [final|e1] eqn:Hloop; cbn [bind] in Hcall;
    [|injection Hcall as <-; exact (loop_raise _ _ _ _ _ _ Hloop)].
  destruct (for_each _ (earliest_arrival final) []) as [rows|e2] eqn:Hrows;
    cbn [bind] in Hcall; [discriminate|].
  injection Hcall as <-. now rewrite (rows_raise _ _ _ _ _ _ _ Hrows).
Qed.

End Raises.

(** X10. [calculate_reachability] raises in four ways only: ValueError
    "Invalid day_type" when the day type has no graph; ValueError "Stop not
    found" when the origin is no node of the graph; the IndexError or the
    ValueError of the clock string when the departure time has no colon or
    a field that is no integer; and KeyError, AttributeError or
    NetworkXError during the search, which happens only on a graph that is
    not well formed. *)
Theorem reachability_raises_only (half_up : Z -> bool)
    (graphs : gmap string DiGraph) (origin departure day_type : string)
    (budget : Z) (e : exn) :
  Reachability.calculate_reachability half_up graphs origin departure budget
    day_type = Raise e ->
  (graphs !! day_type = None /\
   e = ValueError ("Invalid day_type: " ++ day_type)%string) \/
  (exists G, graphs !! day_type = Some G /\ has_node G origin = false /\
             e = ValueError ("Stop not found: " ++ origin)%string) \/
  (exists G, graphs !! day_type = Some G /\ has_node G origin = true /\
             Reachability.time_to_seconds departure = Raise e /\
             (e = IndexError \/
              e = ValueError "invalid literal for int() with base 10")) \/
  (exists G t, graphs !! day_type = Some G /\ has_node G origin = true /\
               Reachability.time_to_seconds departure = Ok t /\
               well_formed G = false /\ graph_error e = true).
Proof.
  intros Hraise.
  destruct (Raises.calculate_raise half_up graphs origin departure day_type
              budget e Hraise)
    as [Hday|[Hstop|[(G & HG & Hnode & Htime)|(G & t & HG & Hnode & Htime & He)]]].
  - now left.
  - right. now left.
  - right. right. left. exists G. repeat (split; [assumption|]).
    exact (Raises.time_raise _ _ Htime).
  - right. right. right. exists G, t. repeat (split; [assumption|]).
    split; [|exact He].
    destruct (well_formed G) eqn:Hwf; [|reflexivity].
    destruct (Raises.calculate_returns half_up graphs origin departure day_type
                budget t G HG Hnode Hwf Htime) as [rows Hrows].
    rewrite Hrows in Hraise. discriminate.
Qed.

Lemma reachability_raises_only_witness :
  exists graphs,
    build_all_graphs Scenario.transfer_feed = Ok graphs /\
    ((graphs !! "weekday" = None /\
      AttributeError = ValueError ("Invalid day_type: " ++ "weekday")%string) \/
     (exists G, graphs !! "weekday" = Some G /\ has_node G "A" = false /\
                AttributeError = ValueError ("Stop not found: " ++ "A")%string) \/
     (exists G, graphs !! "weekday" = Some G /\ has_node G "A" = true /\
                Reachability.time_to_seconds "09:00" = Raise AttributeError /\
                (AttributeError = IndexError \/
                 AttributeError
                 = ValueError "invalid literal for int() with base 10")) \/
     (exists G t, graphs !! "weekday" = Some G /\ has_node G "A" = true /\
                  Reachability.time_to_seconds "09:00" = Ok t /\
                  well_formed G = false /\ graph_error AttributeError = true)).
Proof.
  eexists. split; [vm_compute; reflexivity|].
  apply (reachability_raises_only Py.float_half_up _ "A" "09:00" "weekday" 30).
  vm_compute. reflexivity.
Defined.

(** * The stops of a calculator *)

Module StopFacts.
Import Calculator.








(** The three outcomes of [get_stop_info]. *)
Lemma stop_info_cases (graphs : gmap string DiGraph) (day stop : string) :
  (get_stop_info graphs stop day = Ok None /\
   (graphs !! day = None \/
    exists G, graphs !! day = Some G /\ has_node G stop = false)) \/
  (exists G node,
     graphs !! day = Some G /\ has_node G stop = true /\
     OD.get stop G = Some node /\
     match node_attrs node with
     | Some data =>
         get_stop_info graphs stop day
         = Ok (Some {| stop_id := stop; stop_name := Nx.stop_name data;
                       lat := Nx.lat data; lon := Nx.lon data |})
     | None => get_stop_info graphs stop day = Raise KeyError
     end).
Proof.
  destruct (graphs !! day) as [G|] eqn:HG.
  - destruct (OD.get stop G) as [node|] eqn:Hnode.
    + right. exists G, node.
      assert (Hmem : has_node G stop = true)
        by (unfold has_node, OD.mem; now rewrite Hnode).
      repeat (split; [first [assumption|reflexivity]|]).
      unfold get_stop_info, describe. rewrite HG, Hmem, Hnode.
      cbn [negb bind]. now destruct (node_attrs node).
    + left.
      assert (Hmem : has_node G stop = false)
        by (unfold has_node, OD.mem; now rewrite Hnode).
      split; [|right; now exists G].
      unfold get_stop_info. now rewrite HG, Hmem.
  - left. split; [|now left]. unfold get_stop_info. now rewrite HG.
Qed.

End StopFacts.

(** X11. [get_stop_info] returns [None] exactly when
    [calculate_reachability] raises one of its own two ValueErrors for that
    stop and day type, whatever the departure time and the budget.  What it
    returns otherwise are the attributes of the node; it raises only
    KeyError, on a node without attributes. *)
Theorem stop_info_agrees_with_search (half_up : Z -> bool)
    (graphs : gmap string DiGraph) (stop departure day_type : string)
    (budget : Z) :
  (Calculator.get_stop_info graphs stop day_type = Ok None <->
   Reachability.calculate_reachability half_up graphs stop departure budget
     day_type = Raise (ValueError ("Invalid day_type: " ++ day_type)%string) \/
   Reachability.calculate_reachability half_up graphs stop departure budget
     day_type = Raise (ValueError ("Stop not found: " ++ stop)%string)) /\
  (forall info,
     Calculator.get_stop_info graphs stop day_type = Ok (Some info) ->
     exists G node data,
       graphs !! day_type = Some G /\ OD.get stop G = Some node /\
       node_attrs node = Some data /\
       info = {| Calculator.stop_id := stop;
                 Calculator.stop_name := Nx.stop_name data;
                 Calculator.lat := Nx.lat data;
                 Calculator.lon := Nx.lon data |}) /\
  (forall e,
     Calculator.get_stop_info graphs stop day_type = Raise e ->
     e = KeyError /\
     exists G node,
       graphs !! day_type = Some G /\ OD.get stop G = Some node /\
       node_attrs node = None).
Proof.
  destruct (StopFacts.stop_info_cases graphs day_type stop)
    as [[Hnone Hwhy]|(G & node & HG & Hmem & Hnode & Hinfo)].
  - rewrite Hnone. split; [|split; [discriminate|discriminate]].
    split; [intros _|reflexivity].
    unfold Reachability.calculate_reachability.
    destruct Hwhy as [->|(G & -> & ->)]; [now left|now right].
  - split; [|split].
    + split.
      * intros Hnone. destruct (node_attrs node); rewrite Hinfo in Hnone;
          discriminate.
      * intros [Hr|Hr];
          (destruct (Raises.calculate_raise half_up graphs stop departure
                       day_type budget _ Hr)
             as [[Hno _]|[(G' & HG' & Hno & _)|[(_ & _ & _ & Ht)
                                               |(_ & _ & _ & _ & _ & He)]]];
           [congruence|congruence| |discriminate];
           destruct (Raises.time_raise _ _ Ht) as [He|He];
           [discriminate|cbn in He; discriminate]).
    + intros info Hsome. exists G, node.
      destruct (node_attrs node) as [data|]; rewrite Hinfo in Hsome;
        [|discriminate].
      exists data. injection Hsome as <-. now repeat split.
    + intros e He. destruct (node_attrs node) as [data|] eqn:Hdata;
        rewrite Hinfo in He; [discriminate|].
      injection He as <-. split; [reflexivity|]. now exists G, node.
Qed.



(** * The endpoints *)

Module ApiFacts.
Import Api.

Lemma digit_plain (c : ascii) :
  Py.is_digit c = true ->
  Py.is_space c = false /\ Ascii.eqb c ":"%char = false /\
  Ascii.eqb c "-"%char = false /\ Ascii.eqb c "+"%char = false /\
  0 <= Py.digit_val c <= 9.
Proof.
  destruct c as [[] [] [] [] [] [] [] []]; try discriminate; intros _;
    vm_compute; repeat split; discriminate.
Qed.

Lemma int_two_digits (a b : ascii) :
  Py.is_digit a = true -> Py.is_digit b = true ->
  Py.int (String a (String b "")) = Ok (10 * Py.digit_val a + Py.digit_val b).
Proof.
  intros Ha Hb.
  destruct (digit_plain a Ha) as (Sa & _ & Ma & Pa & _).
  destruct (digit_plain b Hb) as (Sb & _ & _ & _ & _).
  unfold Py.int, Py.strip. cbn [list_ascii_of_string Py.lstrip].
  rewrite Sa. cbn [rev app Py.lstrip]. rewrite Sb. cbn [rev app].
  rewrite Ma, Pa. unfold Py.int_unsigned. rewrite Ha. cbn [Py.int_digits].
  rewrite Hb. cbn [Py.int_digits]. f_equal. lia.
Qed.



End ApiFacts.






(** * Further properties of the builder *)

(** ** Calendar rules *)

Module Calendar.

(** The three special cases of the loop change nothing: a rule goes where
    its day flags say. *)
Lemma classified_by_flag (v : Variant) (row : CalendarRow) :
  classified_into v row = day_flag v row.
Proof.
  unfold classified_into, weekdays_only, saturday_only, sunday_only, day_flag.
  destruct v;
    repeat match goal with
           | |- context [?a =? ?b] => destruct (Z.eqb_spec a b)
           end; cbn; try reflexivity; lia.
Qed.

Lemma ids_by_flag (v : Variant) (cal : list CalendarRow) :
  ids_of v (get_service_ids_by_day_type cal)
  = map service_id (List.filter (day_flag v) cal).
Proof.
  unfold get_service_ids_by_day_type. rewrite classify_fold_ids.
  rewrite Answers.filter_bool.
  replace (ids_of v {| sids_weekday := []; sids_saturday := [];
                       sids_sunday := [] |}) with (@nil string)
    by now destruct v.
  cbn [app]. f_equal. apply List.filter_ext. intros row.
  apply classified_by_flag.
Qed.

End Calendar.

(** X16. The services listed for a day type are those of the calendar
    rows that have a flag of the day type equal to 1 (for weekday: one of
    Monday to Friday), one entry per such row, in calendar order.  The three
    special cases the loop tests first change nothing, and a flag that is
    neither 0 nor 1 counts as unset. *)
Theorem services_listed_by_flag (cal : list CalendarRow) :
  sids_weekday (get_service_ids_by_day_type cal)
  = map service_id
      (List.filter
         (fun row => (monday row =? 1) || (tuesday row =? 1)
                     || (wednesday row =? 1) || (thursday row =? 1)
                     || (friday row =? 1)) cal) /\
  sids_saturday (get_service_ids_by_day_type cal)
  = map service_id (List.filter (fun row => saturday row =? 1) cal) /\
  sids_sunday (get_service_ids_by_day_type cal)
  = map service_id (List.filter (fun row => sunday row =? 1) cal).
Proof.
  split; [|split].
  - exact (Calendar.ids_by_flag Weekday cal).
  - exact (Calendar.ids_by_flag Saturday cal).
  - exact (Calendar.ids_by_flag Sunday cal).
Qed.

(** ** Clock strings *)

(** X17. The two parsers of clock strings agree on hours and minutes: a
    string the builder converts (HH:MM:SS) is converted by the calculator
    too, to the same instant less the seconds of its third field, and an
    error of the calculator's parser is the error of the builder's.  A
    string of two digits, a colon and two digits, as a request carries it,
    is no clock string for the builder: IndexError. *)
Theorem clock_parsers_agree (s : string) :
  (forall t,
     time_to_seconds (Some s) = Ok t ->
     exists p2 seconds,
       Py.index (Py.split ":"%char s) 2 = Ok p2 /\ Py.int p2 = Ok seconds /\
       Reachability.time_to_seconds s = Ok (t - seconds)) /\
  (forall e,
     Reachability.time_to_seconds s = Raise e ->
     time_to_seconds (Some s) = Raise e) /\
  (Api.clock_string s = true -> time_to_seconds (Some s) = Raise IndexError).
Proof.
  unfold time_to_seconds, Reachability.time_to_seconds.
  split; [|split].
  - intros t.
    destruct (Py.index _ 0) as [p0|]; cbn [bind]; [|discriminate].
    destruct (Py.int p0) as [h|]; cbn [bind]; [|discriminate].
    destruct (Py.index _ 1) as [p1|]; cbn [bind]; [|discriminate].
    destruct (Py.int p1) as [m|]; cbn [bind]; [|discriminate].
    destruct (Py.index _ 2) as [p2|] eqn:H2; cbn [bind]; [|discriminate].
    destruct (Py.int p2) as [sec|] eqn:Hsec; cbn [bind]; [|discriminate].
    intros [= <-]. exists p2, sec. split; [reflexivity|]. split; [exact Hsec|].
    f_equal. lia.
  - intros e.
    destruct (Py.index _ 0) as [p0|]; cbn [bind]; [|now intros [= <-]].
    destruct (Py.int p0) as [h|]; cbn [bind]; [|now intros [= <-]].
    destruct (Py.index _ 1) as [p1|]; cbn [bind]; [|now intros [= <-]].
    destruct (Py.int p1) as [m|]; cbn [bind]; [discriminate|now intros [= <-]].
  - unfold Api.clock_string.
    destruct s as [|h1 [|h2 [|c [|m1 [|m2 [|x s]]]]]]; try discriminate.
    cbn [list_ascii_of_string].
    intros [[[[H1 H2]%andb_true_iff Hc]%andb_true_iff M1]%andb_true_iff M2]%andb_true_iff.
    apply Ascii.eqb_eq in Hc. subst c.
    destruct (ApiFacts.digit_plain h1 H1) as (_ & C1 & _).
    destruct (ApiFacts.digit_plain h2 H2) as (_ & C2 & _).
    destruct (ApiFacts.digit_plain m1 M1) as (_ & C3 & _).
    destruct (ApiFacts.digit_plain m2 M2) as (_ & C4 & _).
    unfold Py.split. cbn [list_ascii_of_string Py.split_chars].
    rewrite C1, C2. cbn [Py.split_chars Ascii.eqb Bool.eqb].
    rewrite C3, C4. cbn [Py.split_chars rev app string_of_list_ascii].
    cbn [Py.index nth_error bind].
    rewrite (ApiFacts.int_two_digits h1 h2 H1 H2). cbn [bind].
    now rewrite (ApiFacts.int_two_digits m1 m2 M1 M2).
Qed.

Lemma clock_parsers_agree_witness :
  exists p2 seconds,
    Py.index (Py.split ":"%char "09:10:30") 2 = Ok p2 /\
    Py.int p2 = Ok seconds /\
    Reachability.time_to_seconds "09:10:30" = Ok (33030 - seconds).
Proof.
  apply (proj1 (clock_parsers_agree "09:10:30") 33030). vm_compute. reflexivity.
Defined.

(** ** The nodes and the edges of a built graph *)

Module Built.

Lemma in_list_In (x : string) (l : list string) : in_list x l = true <-> In x l.
Proof.
  unfold in_list. rewrite existsb_exists. split.
  - intros (y & Hy & ->%String.eqb_eq). exact Hy.
  - intros Hx. exists x. split; [exact Hx|apply String.eqb_refl].
Qed.

Lemma set_Forall {V : Type} (R : string * V -> Prop) (k : string) (v : V)
    (d : list (string * V)) :
  R (k, v) -> Forall R d -> Forall R (OD.set k v d).
Proof.
  intros Hv. induction 1 as [|[k' v'] d Hv' Hd IH]; cbn.
  - now repeat constructor.
  - destruct (String.eqb_spec k k') as [<-|_]; constructor; auto.
Qed.

Lemma get_Forall {V : Type} (R : string * V -> Prop) (k : string) (v : V)
    (d : list (string * V)) :
  Forall R d -> OD.get k d = Some v -> R (k, v).
Proof.
  induction 1 as [|[k' v'] d Hv' Hd IH]; cbn; [discriminate|].
  destruct (String.eqb_spec k k') as [->|_]; [now intros [= <-]|exact IH].
Qed.

(** *** The nodes *)

Lemma has_node_data (G : DiGraph) (x : string) :
  has_node G x = match node_data G x with Some _ => true | None => false end.
Proof. unfold has_node, OD.mem, node_data. now destruct (OD.get x G). Qed.

Lemma data_set (G : DiGraph) (k x : string) (node : NodeEntry) :
  node_data (OD.set k node G) x
  = if String.eqb x k then Some (node_attrs node) else node_data G x.
Proof.
  unfold node_data. rewrite DictFacts.get_set. now destruct (String.eqb x k).
Qed.

Lemma data_add_node (G : DiGraph) (n x : string) (attrs : StopData) :
  node_data (add_node G n attrs) x
  = if String.eqb x n then Some (Some attrs) else node_data G x.
Proof. unfold add_node. destruct (OD.get n G); apply data_set. Qed.

Lemma data_touch (G : DiGraph) (n x : string) :
  node_data (touch_node G n) x
  = match node_data G x with
    | Some o => Some o
    | None => if String.eqb x n then Some None else None
    end.
Proof.
  unfold touch_node. rewrite (has_node_data G n).
  destruct (node_data G n) as [o|] eqn:Hn.
  - destruct (node_data G x) eqn:Hx; [reflexivity|].
    destruct (String.eqb_spec x n) as [->|_]; [congruence|reflexivity].
  - rewrite data_set. destruct (String.eqb_spec x n) as [->|_].
    + now rewrite Hn.
    + now destruct (node_data G x).
Qed.

Lemma data_add_edge (G : DiGraph) (u v x : string) (attr : EdgeData) :
  node_data (add_edge G u v attr) x
  = match node_data G x with
    | Some o => Some o
    | None => if String.eqb x u || String.eqb x v then Some None else None
    end.
Proof.
  assert (H1 : node_data (touch_node (touch_node G u) v) x
               = match node_data G x with
                 | Some o => Some o
                 | None =>
                     if String.eqb x u || String.eqb x v then Some None else None
                 end).
  { rewrite !data_touch. destruct (node_data G x); [reflexivity|].
    now destruct (String.eqb x u), (String.eqb x v). }
  unfold add_edge.
  destruct (OD.get u (touch_node (touch_node G u) v)) as [e|] eqn:Hu;
    [|exact H1].
  rewrite data_set. destruct (String.eqb_spec x u) as [->|_]; [|exact H1].
  rewrite <- H1. unfold node_data. now rewrite Hu.
Qed.

Lemma has_node_add_edge (G : DiGraph) (u v x : string) (attr : EdgeData) :
  has_node (add_edge G u v attr) x
  = has_node G x || String.eqb x u || String.eqb x v.
Proof.
  rewrite !has_node_data, data_add_edge.
  destruct (node_data G x); [reflexivity|].
  now destruct (String.eqb x u), (String.eqb x v).
Qed.

Lemma has_node_add_node (G : DiGraph) (n x : string) (attrs : StopData) :
  has_node (add_node G n attrs) x = String.eqb x n || has_node G x.
Proof.
  rewrite !has_node_data, data_add_node. now destruct (String.eqb x n).
Qed.

Lemma add_transfer_data (G : DiGraph) (row : TransferRow) (x : string) :
  node_data (add_transfer G row) x = node_data G x.
Proof.
  unfold add_transfer.
  destruct (has_node G (from_stop_id row)) eqn:Hu; [|reflexivity].
  destruct (has_node G (to_stop_id row)) eqn:Hv; [|reflexivity].
  cbn [andb]. rewrite data_add_edge. rewrite has_node_data in Hu, Hv.
  destruct (node_data G x) eqn:Hx; [reflexivity|].
  destruct (String.eqb_spec x (from_stop_id row)) as [->|_];
    [now rewrite Hx in Hu|].
  destruct (String.eqb_spec x (to_stop_id row)) as [->|_];
    [now rewrite Hx in Hv|reflexivity].
Qed.

(** *** The keys *)

Lemma add_node_keys (G : DiGraph) (n : string) (attrs : StopData) :
  NoDup (OD.keys G) -> NoDup (OD.keys (add_node G n attrs)).
Proof. unfold add_node. destruct (OD.get n G); apply DictFacts.keys_set. Qed.

Lemma touch_keys (G : DiGraph) (n : string) :
  NoDup (OD.keys G) -> NoDup (OD.keys (touch_node G n)).
Proof.
  unfold touch_node. destruct (has_node G n); [auto|apply DictFacts.keys_set].
Qed.

Lemma add_edge_keys (G : DiGraph) (u v : string) (attr : EdgeData) :
  NoDup (OD.keys G) -> NoDup (OD.keys (add_edge G u v attr)).
Proof.
  intros HG. pose proof (touch_keys _ v (touch_keys G u HG)) as H1.
  unfold add_edge. destruct (OD.get u _); [|exact H1].
  now apply DictFacts.keys_set.
Qed.

(** *** The entries of the adjacency *)

Lemma touch_entries (P : string * NodeEntry -> Prop) (G : DiGraph) (n : string) :
  P (n, {| node_attrs := None; node_succ := [] |}) ->
  Forall P G -> Forall P (touch_node G n).
Proof.
  intros Hn HG. unfold touch_node. destruct (has_node G n); [exact HG|].
  now apply set_Forall.
Qed.

Lemma add_node_entries (P : string * NodeEntry -> Prop) (G : DiGraph)
    (n : string) (attrs : StopData) :
  (forall node, P (n, node) ->
                P (n, {| node_attrs := Some attrs; node_succ := node_succ node |})) ->
  P (n, {| node_attrs := Some attrs; node_succ := [] |}) ->
  Forall P G -> Forall P (add_node G n attrs).
Proof.
  intros Hold Hnew HG. unfold add_node.
  destruct (OD.get n G) as [e|] eqn:Hn; apply set_Forall; auto.
  apply Hold. exact (get_Forall P n e G HG Hn).
Qed.

(** The entries after [add_edge]: the end points that were no nodes come in
    without successors, and the entry of [u] gets the edge to [v], whose
    attributes are those of the call written over those it had. *)
Lemma add_edge_entries (P : string * NodeEntry -> Prop) (G : DiGraph)
    (u v : string) (attr : EdgeData) :
  (forall n, P (n, {| node_attrs := None; node_succ := [] |})) ->
  (forall node,
     P (u, node) ->
     P (u, {| node_attrs := node_attrs node;
              node_succ :=
                OD.set v (update_attrs
                            match OD.get v (node_succ node) with
                            | Some d => d
                            | None => empty_attrs
                            end attr) (node_succ node) |})) ->
  Forall P G -> Forall P (add_edge G u v attr).
Proof.
  intros Hnew Hup HG.
  pose proof (touch_entries P _ v (Hnew v) (touch_entries P G u (Hnew u) HG)) as H1.
  unfold add_edge.
  destruct (OD.get u (touch_node (touch_node G u) v)) as [e|] eqn:Hu;
    [|exact H1].
  apply set_Forall; [|exact H1]. apply Hup.
  exact (get_Forall P u e _ H1 Hu).
Qed.

(** *** The successors are nodes *)

Lemma closed_grows (G G' : DiGraph) :
  (forall x, has_node G x = true -> has_node G' x = true) ->
  closed G ->
  Forall (fun kv => Forall (fun ve => has_node G' ve.1 = true) (node_succ kv.2)) G.
Proof.
  intros Hsub HG. eapply Forall_impl; [exact HG|].
  intros [k node] Hnode. cbn in *. eapply Forall_impl; [exact Hnode|].
  intros [w e] Hw. now apply Hsub.
Qed.

Lemma add_node_closed (G : DiGraph) (n : string) (attrs : StopData) :
  closed G -> closed (add_node G n attrs).
Proof.
  intros HG. unfold closed.
  apply add_node_entries; [intros node H; exact H|constructor|].
  apply closed_grows; [|exact HG].
  intros x Hx. rewrite has_node_add_node, Hx. apply orb_true_r.
Qed.

Lemma add_edge_closed (G : DiGraph) (u v : string) (attr : EdgeData) :
  closed G -> closed (add_edge G u v attr).
Proof.
  intros HG. unfold closed.
  apply add_edge_entries; [intros n; constructor| |].
  - intros node Hnode. cbn in *. apply set_Forall; [|exact Hnode]. cbn.
    rewrite has_node_add_edge, String.eqb_refl. apply orb_true_r.
  - apply closed_grows; [|exact HG].
    intros x Hx. now rewrite has_node_add_edge, Hx.
Qed.

Lemma closed_successors (G : DiGraph) : closed G -> successors_are_nodes G = true.
Proof.
  intros HG. unfold successors_are_nodes. apply forallb_forall.
  intros [k node] Hin. apply forallb_forall. intros [w e] Hw.
  unfold closed in HG. rewrite List.Forall_forall in HG.
  specialize (HG _ Hin). cbn in HG. rewrite List.Forall_forall in HG.
  exact (HG _ Hw).
Qed.

(** *** The edges *)





(** *** The loops of the builder *)

Lemma fold_inv {A : Type} (P : DiGraph -> Prop) (f : DiGraph -> A -> DiGraph)
    (xs : list A) :
  (forall G x, In x xs -> P G -> P (f G x)) ->
  forall G, P G -> P (fold_left f xs G).
Proof.
  induction xs as [|x xs IH]; intros Hf G HG; [exact HG|]. cbn.
  apply IH; [|apply Hf; [now left|exact HG]].
  intros G' y Hy. apply Hf. now right.
Qed.

Lemma add_trip_edges_inv (P : DiGraph -> Prop) (trip : string)
    (route : option string) (trip_stops : list StopVisit) :
  (forall G a b,
     In a trip_stops -> In b trip_stops -> P G ->
     P (add_edge G (v_stop_id a) (v_stop_id b) (segment_attrs trip route a b))) ->
  forall G, P G -> P (add_trip_edges G trip route trip_stops).
Proof.
  induction trip_stops as [|a l IH]; intros Hstep G HG; [exact HG|].
  destruct l as [|b l]; [exact HG|]. cbn [add_trip_edges].
  apply IH.
  - intros G' x y Hx Hy. apply Hstep; now right.
  - apply Hstep; [now left|right; now left|exact HG].
Qed.

Lemma convert_times_in (rows : list StopTimeRow) (visits : list StopVisit) :
  convert_times rows = Ok visits ->
  forall v, In v visits ->
    exists r, In r rows /\ st_trip_id r = v_trip_id v /\
              st_stop_id r = v_stop_id v.
Proof.
  unfold convert_times.
  destruct (for_each _ rows []) as [deps|]; cbn [bind]; [|discriminate].
  destruct (for_each _ rows []) as [arrs|]; cbn [bind]; [|discriminate].
  intros [= <-] v ([r [d a]] & <- & Hin)%in_map_iff.
  exists r. split; [|now split]. exact (in_combine_l _ _ _ _ Hin).
Qed.

Lemma groupby_in (rows : list StopVisit) (k : string) (g : list StopVisit) :
  In (k, g) (groupby_trip rows) ->
  forall v, In v g -> In v rows /\ v_trip_id v = k.
Proof.
  revert k g. induction rows as [|r rows IH]; intros k g; [intros []|].
  cbn [groupby_trip].
  destruct (groupby_trip rows) as [|[k' g'] gs] eqn:Hgs.
  - intros [[= <- <-]|[]] v [<-|[]]. split; [now left|reflexivity].
  - destruct (String.eqb_spec (v_trip_id r) k') as [Heq|_].
    + intros [[= <- <-]|Hin] v Hv.
      * destruct Hv as [<-|Hv]; [split; [now left|exact Heq]|].
        destruct (IH k' g' (or_introl eq_refl) v Hv) as [Hr Hk].
        split; [now right|exact Hk].
      * destruct (IH k g (or_intror Hin) v Hv) as [Hr Hk].
        split; [now right|exact Hk].
    + intros [[= <- <-]|Hin] v Hv.
      * destruct Hv as [<-|[]]. split; [now left|reflexivity].
      * destruct (IH k g Hin v Hv) as [Hr Hk]. split; [now right|exact Hk].
Qed.

(** What holds of the graph after the stops, and is kept by the edge of a
    pair of visits of one trip of the day and by the edge of a transfer
    between two nodes, holds of the graph the builder returns. *)
Lemma build_inv (feed : Feed) (service_ids : list string) (P : DiGraph -> Prop) :
  P (stop_nodes feed) ->
  (forall G a b route,
     visit_of feed service_ids a -> visit_of feed service_ids b ->
     v_trip_id b = v_trip_id a -> P G ->
     P (add_edge G (v_stop_id a) (v_stop_id b)
          (segment_attrs (v_trip_id a) route a b))) ->
  (forall G rows row,
     transfers_df feed = Some rows -> In row rows ->
     has_node G (from_stop_id row) = true -> has_node G (to_stop_id row) = true ->
     P G ->
     P (add_edge G (from_stop_id row) (to_stop_id row)
          (transfer_attrs match min_transfer_time row with
                          | Some t => t
                          | None => DEFAULT_TRANSFER_TIME
                          end))) ->
  forall G, build_graph_for_day_type feed service_ids = Ok G -> P G.
Proof.
  intros Hstops Htrip Htransfer G. unfold build_graph_for_day_type.
  destruct (convert_times _) as [visits|] eqn:Hvisits; cbn [bind];
    [|discriminate].
  intros [= <-].
  assert (Hvisit : forall v, In v visits -> visit_of feed service_ids v).
  { intros v Hv.
    destruct (convert_times_in _ _ Hvisits v Hv) as (r & Hr & Htrip_id & Hstop).
    rewrite Answers.filter_bool in Hr. apply filter_In in Hr as [Hr Hday].
    apply in_list_In, in_map_iff in Hday as (t & Ht & Hin).
    rewrite Answers.filter_bool in Hin. apply filter_In in Hin as [Hin Hsel].
    split.
    - exists t. split; [exact Hin|]. split; [congruence|exact Hsel].
    - now exists r. }
  assert (H2 : P (fold_left
                    (fun G '(trip, trip_stops) =>
                       add_trip_edges G trip
                         match
                           OD.get trip
                             (trip_route_map
                                (trips_with_routes
                                   (filter
                                      (fun t => in_list (t_service_id t) service_ids)
                                      (trips_df feed))
                                   (routes_df feed)))
                         with
                         | Some r => r
                         | None => Some "Unknown"
                         end (stable_sort sequence_leb trip_stops))
                    (groupby_trip (stable_sort visit_leb visits))
                    (stop_nodes feed))).
  { apply fold_inv; [|exact Hstops].
    intros G [trip g] Hg HG. apply add_trip_edges_inv; [|exact HG].
    intros G' a b Ha%LoopFacts.stable_sort_in Hb%LoopFacts.stable_sort_in HG'.
    destruct (groupby_in _ _ _ Hg a Ha) as [Ha'%LoopFacts.stable_sort_in <-].
    destruct (groupby_in _ _ _ Hg b Hb) as [Hb'%LoopFacts.stable_sort_in Hsame].
    apply Htrip; auto. }
  destruct (transfers_df feed) as [rows|] eqn:Hrows; [|exact H2].
  apply fold_inv; [|exact H2].
  intros G row Hrow HG. unfold add_transfer.
  destruct (has_node G (from_stop_id row)) eqn:Hu; [|exact HG].
  destruct (has_node G (to_stop_id row)) eqn:Hv; [|exact HG].
  cbn [andb]. now apply (Htransfer G rows row).
Qed.

(** *** The graph after the stops *)

Lemma stop_nodes_data (stops : list StopRow) (x : string) :
  forall G,
    (node_data (fold_left (fun G stop => add_node G (s_stop_id stop) (row_data stop))
                  stops G) x = node_data G x /\
     ~ In x (map s_stop_id stops)) \/
    (exists row,
       In row stops /\ s_stop_id row = x /\
       node_data (fold_left (fun G stop => add_node G (s_stop_id stop) (row_data stop))
                    stops G) x = Some (Some (row_data row))).
Proof.
  induction stops as [|s stops IH]; intros G; cbn [fold_left map].
  - left. split; [reflexivity|intros []].
  - destruct (IH (add_node G (s_stop_id s) (row_data s)))
      as [[Heq Hnot]|(row & Hrow & Hid & Hdata)].
    + rewrite data_add_node in Heq.
      destruct (String.eqb_spec x (s_stop_id s)) as [->|Hne].
      * right. exists s. split; [now left|]. now split.
      * left. split; [exact Heq|]. intros [Hs|Hin]; [congruence|contradiction].
    + right. exists row. split; [now right|]. now split.
Qed.

Lemma stop_nodes_keys (feed : Feed) : NoDup (OD.keys (stop_nodes feed)).
Proof.
  unfold stop_nodes.
  apply (fold_inv (fun G => NoDup (OD.keys G))); [|apply NoDup_nil_2].
  intros G s _ HG. now apply add_node_keys.
Qed.


Lemma stop_nodes_closed (feed : Feed) : closed (stop_nodes feed).
Proof.
  unfold stop_nodes. apply (fold_inv closed); [|constructor].
  intros G s _ HG. now apply add_node_closed.
Qed.

(** *** The graph the builder returns *)

Lemma built_keys (feed : Feed) (service_ids : list string) (G : DiGraph) :
  build_graph_for_day_type feed service_ids = Ok G -> NoDup (OD.keys G).
Proof.
  apply (build_inv feed service_ids (fun G => NoDup (OD.keys G))).
  - apply stop_nodes_keys.
  - intros; now apply add_edge_keys.
  - intros; now apply add_edge_keys.
Qed.

Lemma built_closed (feed : Feed) (service_ids : list string) (G : DiGraph) :
  build_graph_for_day_type feed service_ids = Ok G -> closed G.
Proof.
  apply (build_inv feed service_ids closed).
  - apply stop_nodes_closed.
  - intros; now apply add_edge_closed.
  - intros; now apply add_edge_closed.
Qed.

(** A node with attributes is a stop of stops.txt and has the attributes of
    one of its rows; one without is a stop that stops.txt does not list and
    that a trip of the day visits; what is no node is not listed. *)
Lemma built_data (feed : Feed) (service_ids : list string) (G : DiGraph) :
  build_graph_for_day_type feed service_ids = Ok G ->
  forall x,
    match node_data G x with
    | Some (Some data) =>
        exists row, In row (stops_df feed) /\ s_stop_id row = x /\
                    data = row_data row
    | Some None =>
        ~ In x (map s_stop_id (stops_df feed)) /\
        exists r, In r (stop_times_df feed) /\ st_stop_id r = x /\
                  on_day feed service_ids (st_trip_id r)
    | None => ~ In x (map s_stop_id (stops_df feed))
    end.
Proof.
  apply (build_inv feed service_ids
           (fun G => forall x,
              match node_data G x with
              | Some (Some data) =>
                  exists row, In row (stops_df feed) /\ s_stop_id row = x /\
                              data = row_data row
              | Some None =>
                  ~ In x (map s_stop_id (stops_df feed)) /\
                  exists r, In r (stop_times_df feed) /\ st_stop_id r = x /\
                            on_day feed service_ids (st_trip_id r)
              | None => ~ In x (map s_stop_id (stops_df feed))
              end)).
  - intros x. unfold stop_nodes.
    destruct (stop_nodes_data (stops_df feed) x [])
      as [[-> Hnot]|(row & Hrow & Hid & ->)]; [exact Hnot|].
    now exists row.
  - intros G0 a b route [Hday_a (ra & Hra & Hta & Hsa)]
      [Hday_b (rb & Hrb & Htb & Hsb)] _ HG x.
    rewrite data_add_edge. specialize (HG x).
    destruct (node_data G0 x) as [o|]; [exact HG|].
    destruct (String.eqb_spec x (v_stop_id a)) as [->|_]; cbn [orb].
    + split; [exact HG|]. exists ra. rewrite Hta. now repeat split.
    + destruct (String.eqb_spec x (v_stop_id b)) as [->|_]; [|exact HG].
      split; [exact HG|]. exists rb. rewrite Htb. now repeat split.
  - intros G0 rows row _ _ Hu Hv HG x.
    rewrite data_add_edge. specialize (HG x).
    rewrite has_node_data in Hu, Hv.
    destruct (node_data G0 x) as [o|] eqn:Hx; [exact HG|].
    destruct (String.eqb_spec x (from_stop_id row)) as [->|_];
      [now rewrite Hx in Hu|].
    destruct (String.eqb_spec x (to_stop_id row)) as [->|_];
      [now rewrite Hx in Hv|exact HG].
Qed.







End Built.

(** X18. In a graph the builder returns, no stop is a node twice and every
    successor is a node; every stop of stops.txt is a node, also one that no
    trip visits; a node with attributes has those of a row of stops.txt for
    its stop; a node without attributes is a stop that stops.txt does not
    list and that a trip of the day visits.  Transfers add no node. *)
Theorem built_graph_nodes (feed : Feed) (service_ids : list string)
    (G : DiGraph) :
  build_graph_for_day_type feed service_ids = Ok G ->
  NoDup (OD.keys G) /\
  successors_are_nodes G = true /\
  (forall s, In s (stops_df feed) -> has_node G (s_stop_id s) = true) /\
  (forall k node,
     OD.get k G = Some node ->
     match node_attrs node with
     | Some data =>
         exists row, In row (stops_df feed) /\ s_stop_id row = k /\
                     data = row_data row
     | None =>
         ~ In k (map s_stop_id (stops_df feed)) /\
         exists r, In r (stop_times_df feed) /\ st_stop_id r = k /\
                   on_day feed service_ids (st_trip_id r)
     end).
Proof.
  intros Hbuild.
  pose proof (Built.built_data feed service_ids G Hbuild) as Hdata.
  split; [exact (Built.built_keys feed service_ids G Hbuild)|].
  split; [exact (Built.closed_successors G
                   (Built.built_closed feed service_ids G Hbuild))|].
  split.
  - intros s Hs. rewrite Built.has_node_data. specialize (Hdata (s_stop_id s)).
    destruct (node_data G (s_stop_id s)) as [[data|]|]; [reflexivity|reflexivity|].
    exfalso. apply Hdata. now apply in_map.
  - intros k node Hget. specialize (Hdata k). unfold node_data in Hdata.
    rewrite Hget in Hdata. exact Hdata.
Qed.

Lemma built_graph_nodes_witness :
  NoDup (OD.keys Scenario.graph) /\
  successors_are_nodes Scenario.graph = true /\
  (forall s, In s (stops_df Scenario.feed) ->
             has_node Scenario.graph (s_stop_id s) = true) /\
  (forall k node,
     OD.get k Scenario.graph = Some node ->
     match node_attrs node with
     | Some data =>
         exists row, In row (stops_df Scenario.feed) /\ s_stop_id row = k /\
                     data = row_data row
     | None =>
         ~ In k (map s_stop_id (stops_df Scenario.feed)) /\
         exists r, In r (stop_times_df Scenario.feed) /\ st_stop_id r = k /\
                   on_day Scenario.feed ["S"] (st_trip_id r)
     end).
Proof.
  apply (built_graph_nodes Scenario.feed ["S"] Scenario.graph).
  vm_compute. reflexivity.
Defined.





(** * The downloader *)

Module Updates.
Import Downloader.

Section Storage.
Context {Archive : Type}.
Variable sha256 : Archive -> string.
Variable extractall : Archive -> list string * bool.
Variable read_feed_version : Archive -> option string.

(** Every way [check_and_update] has of ending. *)
Lemma check_cases (response : Response Archive) (clock : Clock)
    (files : Files Archive) :
  (response = Unreachable /\
   check_and_update sha256 extractall read_feed_version response clock files
   = (Raises RequestException, files)) \/
  (exists partial,
     response = Interrupted partial /\
     check_and_update sha256 extractall read_feed_version response clock files
     = (Raises RequestException,
        {| gtfs_zip := Some partial; gtfs_dir := gtfs_dir files;
           metadata_json := metadata_json files |})) \/
  (exists archive,
     response = Complete archive /\
     if same_checksum (sha256 archive) (checksum (load_metadata files))
     then
       check_and_update sha256 extractall read_feed_version response clock files
       = (Returns false,
          {| gtfs_zip := Some archive; gtfs_dir := gtfs_dir files;
             metadata_json := metadata_json files |})
     else
       if (extractall archive).2 then
         if validate_gtfs (extractall archive).1 then
           check_and_update sha256 extractall read_feed_version response clock
             files
           = (Returns true,
              {| gtfs_zip := Some archive; gtfs_dir := (extractall archive).1;
                 metadata_json :=
                   Some {| checksum := Some (sha256 archive);
                           download_date := Some (today clock);
                           feed_version :=
                             extract_feed_version read_feed_version archive
                               (extractall archive).1;
                           last_updated := Some (now_iso clock) |} |})
         else
           check_and_update sha256 extractall read_feed_version response clock
             files
           = (Returns false,
              {| gtfs_zip := Some archive; gtfs_dir := (extractall archive).1;
                 metadata_json := metadata_json files |})
       else
         check_and_update sha256 extractall read_feed_version response clock
           files
         = (Raises BadZipFile,
            {| gtfs_zip := Some archive; gtfs_dir := (extractall archive).1;
               metadata_json := metadata_json files |})).
Proof.
  destruct response as [|partial|archive].
  - left. now split.
  - right. left. now exists partial.
  - right. right. exists archive. split; [reflexivity|].
    unfold check_and_update, download_gtfs, load_metadata. cbn [metadata_json].
    destruct (same_checksum _ _); [reflexivity|].
    unfold extract_gtfs. destruct (extractall archive) as [names finished].
    cbn [fst snd gtfs_dir gtfs_zip metadata_json].
    destruct finished; [|reflexivity].
    now destruct (validate_gtfs names).
Qed.

Lemma same_checksum_refl (c : string) : same_checksum c (Some c) = true.
Proof. apply String.eqb_refl. Qed.

End Storage.

Lemma validate_in (names : list string) :
  validate_gtfs names = true <->
  forall filename, In filename required_files -> In filename names.
Proof.
  unfold validate_gtfs. rewrite forallb_forall.
  split; intros H f Hf; apply Built.in_list_In; now apply H.
Qed.

End Updates.

(** X21. An update is not repeated: after [check_and_update] has returned
    True for an archive, or [force_download] has returned for it, a call of
    [check_and_update] that downloads the same archive returns False and
    leaves every file as it is. *)
Theorem update_not_repeated (Archive : Type) (sha256 : Archive -> string)
    (extractall : Archive -> list string * bool)
    (read_feed_version : Archive -> option string)
    (archive : Archive) (clock clock' : Downloader.Clock)
    (files files' : Downloader.Files Archive) :
  Downloader.check_and_update sha256 extractall read_feed_version
    (Downloader.Complete archive) clock files = (Downloader.Returns true, files') \/
  Downloader.force_download sha256 extractall read_feed_version
    (Downloader.Complete archive) clock files = (Downloader.Returns tt, files') ->
  Downloader.check_and_update sha256 extractall read_feed_version
    (Downloader.Complete archive) clock' files'
  = (Downloader.Returns false, files').
Proof.
  intros Hdone.
  assert (Hfiles : Downloader.gtfs_zip files' = Some archive /\
                   Downloader.checksum (Downloader.load_metadata files')
                   = Some (sha256 archive)).
  { destruct Hdone as [Hcheck|Hforce].
    - destruct (Updates.check_cases sha256 extractall read_feed_version
                  (Downloader.Complete archive) clock files)
        as [[[=] _]|[(p & [=] & _)|(z & [= <-] & Hcase)]].
      destruct (Downloader.same_checksum _ _); [congruence|].
      destruct (extractall archive).2; [|congruence].
      destruct (Downloader.validate_gtfs _); [|congruence].
      rewrite Hcase in Hcheck. injection Hcheck as <-. now split.
    - unfold Downloader.force_download, Downloader.download_gtfs,
        Downloader.extract_gtfs in Hforce.
      destruct (extractall archive) as [names finished].
      destruct finished; [|discriminate].
      cbn [Downloader.gtfs_dir] in Hforce.
      destruct (Downloader.validate_gtfs names); [|discriminate].
      injection Hforce as <-. now split. }
  destruct Hfiles as [Hzip Hsum]. destruct files' as [z d m].
  cbn in Hzip. subst z.
  unfold Downloader.check_and_update, Downloader.download_gtfs.
  cbn [Downloader.gtfs_dir Downloader.metadata_json].
  unfold Downloader.load_metadata in *. cbn [Downloader.metadata_json] in *.
  now rewrite Hsum, Updates.same_checksum_refl.
Qed.

Lemma update_not_repeated_witness :
  exists files',
    Downloader.check_and_update (String.concat ",") (fun z => (z, true))
      (fun _ => None) (Downloader.Complete Downloader.required_files)
      {| Downloader.today := "2024-05-02";
         Downloader.now_iso := "2024-05-02T06:00:00" |} files'
    = (Downloader.Returns false, files').
Proof.
  eexists.
  apply (update_not_repeated (list string) (String.concat ",")
           (fun z => (z, true)) (fun _ => None) Downloader.required_files
           {| Downloader.today := "2024-05-01";
              Downloader.now_iso := "2024-05-01T06:00:00" |}
           {| Downloader.today := "2024-05-02";
              Downloader.now_iso := "2024-05-02T06:00:00" |}
           {| Downloader.gtfs_zip := None; Downloader.gtfs_dir := [];
              Downloader.metadata_json := None |}).
  left. vm_compute. reflexivity.
Defined.

(** X22. An archive that is new and fails the validation is not kept out:
    [check_and_update] returns False and leaves the metadata as it was, but
    the directory of the feed now holds the files of the rejected archive,
    the ones of the version in use are gone, and the next call that
    downloads the same archive does the same again. *)
Theorem rejected_archive_replaces_directory (Archive : Type)
    (sha256 : Archive -> string) (extractall : Archive -> list string * bool)
    (read_feed_version : Archive -> option string)
    (archive : Archive) (names : list string) (clock : Downloader.Clock)
    (files : Downloader.Files Archive) :
  Downloader.same_checksum (sha256 archive)
    (Downloader.checksum (Downloader.load_metadata files)) = false ->
  extractall archive = (names, true) ->
  Downloader.validate_gtfs names = false ->
  let files' :=
    {| Downloader.gtfs_zip := Some archive; Downloader.gtfs_dir := names;
       Downloader.metadata_json := Downloader.metadata_json files |} in
  Downloader.check_and_update sha256 extractall read_feed_version
    (Downloader.Complete archive) clock files = (Downloader.Returns false, files') /\
  (forall clock',
     Downloader.check_and_update sha256 extractall read_feed_version
       (Downloader.Complete archive) clock' files'
     = (Downloader.Returns false, files')) /\
  exists filename, In filename Downloader.required_files /\ ~ In filename names.
Proof.
  intros Hnew Hnames Hbad files'.
  assert (Hcall : forall c fs,
            Downloader.metadata_json fs = Downloader.metadata_json files ->
            Downloader.check_and_update sha256 extractall read_feed_version
              (Downloader.Complete archive) c fs = (Downloader.Returns false, files')).
  { intros c fs Hmeta.
    destruct (Updates.check_cases sha256 extractall read_feed_version
                (Downloader.Complete archive) c fs)
      as [[[=] _]|[(p & [=] & _)|(z & [= <-] & Hcase)]].
    unfold Downloader.load_metadata in Hcase, Hnew.
    rewrite Hmeta, Hnew, Hnames in Hcase. cbn [fst snd] in Hcase.
    rewrite Hbad in Hcase. now rewrite Hcase. }
  split; [now apply Hcall|]. split; [intros c; now apply Hcall|].
  unfold Downloader.validate_gtfs in Hbad.
  destruct (forallb _ _) eqn:Hall in Hbad; [discriminate|].
  clear Hbad. revert Hall.
  induction Downloader.required_files as [|f fs IH]; [discriminate|].
  cbn [forallb]. destruct (in_list f names) eqn:Hf; cbn [andb].
  - intros (g & Hg & Hnot)%IH. exists g. split; [now right|exact Hnot].
  - intros _. exists f. split; [now left|].
    intros Hin%Built.in_list_In. congruence.
Qed.

Lemma rejected_archive_replaces_directory_witness :
  Downloader.check_and_update (String.concat ",") (fun z => (z, true))
    (fun _ => None) (Downloader.Complete ["stops.txt"])
    {| Downloader.today := "2024-05-02";
       Downloader.now_iso := "2024-05-02T06:00:00" |}
    {| Downloader.gtfs_zip := Some Downloader.required_files;
       Downloader.gtfs_dir := Downloader.required_files;
       Downloader.metadata_json := None |}
  = (Downloader.Returns false,
     {| Downloader.gtfs_zip := Some ["stops.txt"];
        Downloader.gtfs_dir := ["stops.txt"];
        Downloader.metadata_json := None |}).
Proof.
  apply (proj1 (rejected_archive_replaces_directory (list string)
                  (String.concat ",") (fun z => (z, true)) (fun _ => None)
                  ["stops.txt"] ["stops.txt"]
                  {| Downloader.today := "2024-05-02";
                     Downloader.now_iso := "2024-05-02T06:00:00" |}
                  {| Downloader.gtfs_zip := Some Downloader.required_files;
                     Downloader.gtfs_dir := Downloader.required_files;
                     Downloader.metadata_json := None |}
                  eq_refl eq_refl eq_refl)).
Defined.

(** X23. The metadata is written only by a call of [check_and_update] that
    returns True: every other call leaves it as it was.  So metadata that
    names only archives that were extracted whole and passed the validation
    still does so after any call of [check_and_update]. *)
Theorem metadata_written_on_update_only (Archive : Type)
    (sha256 : Archive -> string) (extractall : Archive -> list string * bool)
    (read_feed_version : Archive -> option string)
    (response : Downloader.Response Archive) (clock : Downloader.Clock)
    (files : Downloader.Files Archive) :
  let result :=
    Downloader.check_and_update sha256 extractall read_feed_version response
      clock files in
  (result.1 <> Downloader.Returns true ->
   Downloader.metadata_json result.2 = Downloader.metadata_json files) /\
  (result.1 = Downloader.Returns true ->
   exists archive,
     response = Downloader.Complete archive /\
     Downloader.gtfs_zip result.2 = Some archive /\
     Downloader.gtfs_dir result.2 = (extractall archive).1 /\
     Downloader.validate_gtfs (Downloader.gtfs_dir result.2) = true /\
     Downloader.checksum (Downloader.load_metadata result.2)
     = Some (sha256 archive) /\
     Downloader.download_date (Downloader.load_metadata result.2)
     = Some (Downloader.today clock)) /\
  (Downloader.recorded_valid sha256 extractall (Downloader.metadata_json files) ->
   Downloader.recorded_valid sha256 extractall (Downloader.metadata_json result.2)).
Proof.
  intros result. subst result.
  destruct (Updates.check_cases sha256 extractall read_feed_version response
              clock files)
    as [[_ ->]|[(p & _ & ->)|(z & -> & Hcase)]];
    [cbn; repeat split; try discriminate; auto..|].
  destruct (Downloader.same_checksum _ _);
    [rewrite Hcase; cbn; repeat split; try discriminate; auto|].
  destruct (extractall z) as [names finished] eqn:Hz. cbn [fst snd] in Hcase.
  destruct finished;
    [|rewrite Hcase; cbn; repeat split; try discriminate; auto].
  destruct (Downloader.validate_gtfs names) eqn:Hvalid;
    [|rewrite Hcase; cbn; repeat split; try discriminate; auto].
  rewrite Hcase. unfold Downloader.load_metadata.
  cbn [fst snd Downloader.gtfs_zip Downloader.gtfs_dir Downloader.metadata_json
       Downloader.checksum Downloader.download_date].
  split; [intros H; now destruct H|]. split.
  - intros _. exists z. rewrite Hz. now repeat split.
  - intros _ m [= <-]. exists z, names. now repeat split.
Qed.

(** X24. A directory passes [validate_gtfs] exactly when it holds
    agency.txt and the five files [load_gtfs_data] reads without a [try]:
    after a validation the builder meets no missing file, and a feed without
    agency.txt is rejected though the builder never reads that file. *)
Theorem validated_feed_loads (names : list string) :
  (Downloader.validate_gtfs names = true <->
   Downloader.first_missing names = None /\ In "agency.txt" names) /\
  (forall filename,
     Downloader.first_missing names = Some filename ->
     In filename Downloader.files_read /\ ~ In filename names /\
     Downloader.validate_gtfs names = false) /\
  Downloader.validate_gtfs
    ["stops.txt"; "stop_times.txt"; "trips.txt"; "routes.txt"; "calendar.txt"]
  = false.
Proof.
  assert (Hmiss : Downloader.first_missing names = None <->
                  forall f, In f Downloader.files_read -> In f names).
  { unfold Downloader.first_missing. split.
    - intros Hnone f Hf. apply Built.in_list_In.
      pose proof (find_none _ _ Hnone f Hf) as H. cbn beta in H.
      now destruct (in_list f names).
    - intros Hall. destruct (List.find _ _) as [f|] eqn:Hfind; [|reflexivity].
      apply find_some in Hfind as [Hf Hnot].
      apply Hall, Built.in_list_In in Hf. now rewrite Hf in Hnot. }
  split; [|split; [|reflexivity]].
  - rewrite Updates.validate_in, Hmiss. split.
    + intros Hall. split.
      * intros f Hf. apply Hall. cbn in Hf |- *. tauto.
      * apply Hall. now left.
    + intros [Hread Hagency] f Hf. cbn in Hf.
      destruct Hf as [<-|Hf]; [exact Hagency|].
      apply Hread. cbn. tauto.
  - intros f Hfind. unfold Downloader.first_missing in Hfind.
    apply find_some in Hfind as [Hf Hnot].
    assert (Hout : ~ In f names).
    { intros Hin%Built.in_list_In. now rewrite Hin in Hnot. }
    split; [exact Hf|]. split; [exact Hout|].
    destruct (Downloader.validate_gtfs names) eqn:Hv; [|reflexivity].
    exfalso. apply Hout. apply (proj1 (Updates.validate_in names) Hv).
    cbn in Hf |- *. tauto.
Qed.
